(** * PollSystem+ : the poll / vote core and its storage layer

    A shallow embedding of

      - [src/storage/memoryStorage.js]  (the file-backed store),
      - [src/services/userService.js]   (user registration and lookup),
      - [src/services/pollService.js]   (create / delete / vote use cases),
      - [src/poll.js] and its case-insensitive sibling (the [Poll] class),

    followed by the properties of these operations.

    Conventions.  A JS string is a [string] whose characters are code
    units below 256.  A JS object used as a dictionary ([users], [polls],
    the counters of a [Poll], a serialised vote record) is a [gmap] of
    its own properties, keyed by strings; a property access [o[k]] also
    finds what every object inherits from [Object.prototype], and is a
    [Property].  A JS [Map] is an insertion-ordered list of entries.  An
    [async] function is a computation over the contents of
    [storage.json]; a thrown error is a [Throw] result.

    The embedding is typed: users and polls are records.  It follows the
    store where the store works with such records.  Two calls leave this
    ground, and what the definitions say of them is not the program's:
    [createPoll] of the store with the id [__proto__], and [updatePoll]
    of the store with an id that keys no poll but names an inherited
    property (see [memoryStorage.createPoll], [memoryStorage.updatePoll]).
    Neither is reached through the services. *)

From Stdlib Require Import Ascii ZArith.
From stdpp Require Import base option list strings gmap fin_maps.

Local Open Scope Z_scope.
Set Warnings "-register-all".

(** ** JavaScript strings *)

(** Code units that [String.prototype.trim] strips (WhiteSpace and
    LineTerminator of ECMA-262) among the code units below 256:
    TAB, LF, VT, FF, CR, SPACE and NBSP. *)
Definition is_js_space (c : ascii) : bool :=
  match c with
  | "009" | "010" | "011" | "012" | "013" | " " | "160" => true
  | _ => false
  end%char.

Fixpoint trimStart (s : string) : string :=
  match s with
  | EmptyString => EmptyString
  | String c s' => if is_js_space c then trimStart s' else s
  end.

Fixpoint trimEnd (s : string) : string :=
  match s with
  | EmptyString => EmptyString
  | String c s' =>
      match trimEnd s' with
      | EmptyString => if is_js_space c then EmptyString else String c EmptyString
      | t => String c t
      end
  end.

(** [s.trim()] *)
Definition trim (s : string) : string := trimEnd (trimStart s).

(** A string that does not begin with white space. *)
Definition starts_clean (s : string) : Prop :=
  match s with
  | EmptyString => True
  | String c _ => is_js_space c = false
  end.

(** [s.toLowerCase()] on code units below 256: A-Z, and the Latin-1
    capitals 192-222 except the multiplication sign 215. *)
Definition lower_ascii (c : ascii) : ascii :=
  let n := nat_of_ascii c in
  if ((65 <=? n)%nat && (n <=? 90)%nat)
     || ((192 <=? n)%nat && (n <=? 222)%nat && negb (n =? 215)%nat)
  then ascii_of_nat (n + 32) else c.

Fixpoint toLowerCase (s : string) : string :=
  match s with
  | EmptyString => EmptyString
  | String c s' => String (lower_ascii c) (toLowerCase s')
  end.

(** [s.length === 0], equivalently [!s] for a string. *)
Definition is_empty (s : string) : bool :=
  match s with EmptyString => true | _ => false end.

(** ** JavaScript values *)

(** A JS number: an integer, a finite non-integer, NaN or an infinity.
    The code only asks [Number.isInteger] of a number and then compares
    integers, so a non-integer carries no payload. *)
Inductive JsNum : Type :=
| Int (z : Z)
| Frac
| NaN
| Infinity (negative : bool).

Inductive JsValue : Type :=
| JUndefined
| JNull
| JBool (b : bool)
| JNum (n : JsNum)
| JStr (s : string)
| JArr (l : list JsValue)
| JObj.

(** [!!v] *)
Definition truthy (v : JsValue) : bool :=
  match v with
  | JUndefined | JNull => false
  | JBool b => b
  | JNum (Int z) => negb (z =? 0)
  | JNum NaN => false
  | JNum _ => true
  | JStr s => negb (is_empty s)
  | JArr _ | JObj => true
  end.

(** [typeof v === 'string'] *)
Definition is_string (v : JsValue) : bool :=
  match v with JStr _ => true | _ => false end.

(** ** Objects used as dictionaries *)

(** The properties that every plain object inherits from
    [Object.prototype].  [__proto__] is an accessor that yields
    [Object.prototype] itself; the others are functions.  All of them
    are truthy. *)
Definition inherited_names : list string :=
  ["constructor"; "__defineGetter__"; "__defineSetter__"; "hasOwnProperty";
   "__lookupGetter__"; "__lookupSetter__"; "isPrototypeOf";
   "propertyIsEnumerable"; "toString"; "valueOf"; "__proto__";
   "toLocaleString"].

(** The value of a property access [o[k]] on a plain object whose own
    properties have type [A]. *)
Inductive Property (A : Type) : Type :=
| Own (a : A)                 (* an own property of the object *)
| Inherited (name : string)   (* the member of Object.prototype of that name *)
| Absent.                     (* undefined *)
Arguments Own {A} a.
Arguments Inherited {A} name.
Arguments Absent {A}.

Global Instance Property_fmap : FMap Property := λ A B f p,
  match p with
  | Own a => Own (f a)
  | Inherited name => Inherited name
  | Absent => Absent
  end.

(** [o[k]]: an own property shadows an inherited one. *)
Definition Object_get {A : Type} (o : gmap string A) (k : string)
  : Property A :=
  match o !! k with
  | Some a => Own a
  | None => if bool_decide (k ∈ inherited_names) then Inherited k else Absent
  end.

(** [new Set(l)] keeps the first occurrence of every element, in order. *)
Definition Set_add (acc : list string) (x : string) : list string :=
  if bool_decide (x ∈ acc) then acc else acc ++ [x].
Definition Set_new (l : list string) : list string :=
  foldl Set_add [] l.
Definition Set_size (l : list string) : nat := length (Set_new l).

(** ** JS [Map] : insertion-ordered entries, one per key *)

Definition JsMap : Type := list (string * Z).

Definition Map_has (m : JsMap) (k : string) : bool :=
  bool_decide (k ∈ m.*1).

Fixpoint Map_get (m : JsMap) (k : string) : option Z :=
  match m with
  | [] => None
  | (k', v) :: m' => if decide (k' = k) then Some v else Map_get m' k
  end.

(** [m.set(k, v)]: overwrite in place when the key is present, else append. *)
Fixpoint Map_set (m : JsMap) (k : string) (v : Z) : JsMap :=
  match m with
  | [] => [(k, v)]
  | (k', v') :: m' =>
      if decide (k' = k) then (k, v) :: m' else (k', v') :: Map_set m' k v
  end.

(** [new Map(entries)] *)
Definition Map_new (entries : list (string * Z)) : JsMap :=
  foldl (λ m kv, Map_set m kv.1 kv.2) [] entries.

(** [Object.entries(o)]: the own properties of a record, in some order. *)
Definition Object_entries (o : gmap string Z) : list (string * Z) :=
  map_to_list o.

(** [Object.fromEntries(m)]: later entries win. *)
Definition Object_fromEntries (m : JsMap) : gmap string Z :=
  foldl (λ o kv, <[kv.1 := kv.2]> o) ∅ m.

(** ** Errors *)

(** The message of a thrown error, one constructor per message template
    of the source; the arguments are the interpolated values. *)
Inductive Message : Type :=
(* userService.js *)
| UsernameEmpty                    (* Username cannot be empty. *)
| UsernameTaken (u : string)       (* Username u is already taken. *)
(* memoryStorage.js *)
| UserExists (u : string)          (* User with username u already exists. *)
| PollNotFoundForUpdate (pollId : string)
                                   (* Poll with ID pollId not found for update. *)
(* pollService.js *)
| QuestionEmpty                    (* Poll question cannot be empty. *)
| TooFewOptions                    (* Poll must have at least two options. *)
| OptionsNotNonEmptyStrings        (* All poll options must be non-empty strings. *)
| OptionsNotUnique                 (* Poll options must be unique. *)
| CreatorRequired                  (* Creator username must be provided. *)
| CreatorDoesNotExist (u : string) (* User u does not exist and cannot create a poll. *)
| RequiredForDeletion              (* Poll ID and requesting username are required for deletion. *)
| PollNotFound (pollId : string)   (* Poll with ID pollId not found. *)
| NotAuthorized (u pollId : string)
                                   (* User u is not authorized to delete poll pollId. *)
| RequiredForVote                  (* Poll ID, option index, and username are required to vote. *)
| UserNotFound (u : string)        (* User u not found. *)
| InvalidOptionIndex (optionIndex : JsValue) (pollId : string)
                                   (* Invalid option index optionIndex for poll pollId. *)
| AlreadyVoted (u pollId : string) (* User u has already voted in poll pollId. *)
(* poll.js *)
| PollQuestionEmpty                (* Poll question cannot be empty *)
| PollTooFewOptions                (* Poll must have at least two options *)
| PollOptionsNotStrings            (* Poll options must be strings *)
| PollOptionsNotUnique             (* Poll options must be unique *)
| PollOptionsEmpty.                (* Poll options cannot be empty *)

Inductive Error : Type :=
| BusinessLogicError (msg : Message)  (* new BusinessLogicError(msg) *)
| PlainError (msg : Message)          (* new Error(msg) *)
| TypeError                           (* a method call on a value without it *)
| IOFailure.                          (* fs.readFile failed, not with ENOENT *)

Inductive Result (A : Type) : Type :=
| Ok (a : A)
| Throw (e : Error).
Arguments Ok {A} a.
Arguments Throw {A} e.

Global Instance Result_ret : MRet Result := @Ok.
Global Instance Result_bind : MBind Result := λ A B f r,
  match r with
  | Ok a => f a
  | Throw e => Throw e
  end.

(** ** Data model *)

Record User : Type := { username : string }.

(** A poll object; [V] is the type of its [votes] property: [JsMap] in
    memory, a flat record in [storage.json], and [unit] for the
    [pollData] handed to the store, which has no [votes] yet. *)
Record PollOf (V : Type) : Type := {
  id : string;
  question : string;
  options : list string;
  creator : string;
  votes : V
}.
Arguments id {V} _.
Arguments question {V} _.
Arguments options {V} _.
Arguments creator {V} _.
Arguments votes {V} _.

Definition with_votes {V W : Type} (p : PollOf V) (w : W) : PollOf W :=
  {| id := id p; question := question p; options := options p;
     creator := creator p; votes := w |}.

Abbreviation Poll := (PollOf JsMap).
Abbreviation StoredPoll := (PollOf (gmap string Z)).
Abbreviation PollData := (PollOf unit).

(** The object [{ users, polls }]. *)
Record DocumentOf (V : Type) : Type := {
  users : gmap string User;
  polls : gmap string (PollOf V)
}.
Arguments users {V} _.
Arguments polls {V} _.

Abbreviation Document := (DocumentOf JsMap).
Abbreviation StoredDocument := (DocumentOf (gmap string Z)).

(** What [storage.json] can be when it is read.  A stored document is
    one that the store can have written: [writeData] fills the polls of
    the text on a fresh object, on which an assignment to the key
    [__proto__] adds no property, so that no text it writes has a poll
    under that key. *)
Inductive Medium : Type :=
| Missing                        (* readFile fails with ENOENT *)
| Unparsable                     (* JSON.parse throws a SyntaxError *)
| Unreadable                     (* readFile fails with another error *)
| Stored (d : StoredDocument).   (* the text parses to this document *)

(** ** Asynchronous computations over the storage file *)

Definition M (A : Type) : Type := Medium → Result A * Medium.

Global Instance M_ret : MRet M := λ A a m, (Ok a, m).
Global Instance M_bind : MBind M := λ A B f c m,
  match c m with
  | (Ok a, m') => f a m'
  | (Throw e, m') => (Throw e, m')
  end.

Definition throw {A : Type} (e : Error) : M A := λ m, (Throw e, m).
Definition lift {A : Type} (r : Result A) : M A := λ m, (r, m).

(** ** src/storage/memoryStorage.js *)

Module memoryStorage.

Definition emptyDocument {V : Type} : DocumentOf V :=
  {| users := ∅; polls := ∅ |}.

(** The conversion applied to each poll after [JSON.parse]:
    [votes = new Map(Object.entries(votes))].  A parsed [votes] record
    is an object, hence truthy and never a [Map]. *)
Definition reviveVotes (p : StoredPoll) : Poll :=
  with_votes p (Map_new (Object_entries (votes p))).

(** The entry written for each poll:
    [{ ...poll, votes: Object.fromEntries(poll.votes) }]. *)
Definition serializeVotes (p : Poll) : StoredPoll :=
  with_votes p (Object_fromEntries (votes p)).

(** [for (const pollId in parsedData.polls) ...] over the parsed text *)
Definition revive (d : StoredDocument) : Document :=
  {| users := users d; polls := reviveVotes <$> polls d |}.

(** [dataToWrite = { users: data.users, polls: {} }] filled by the loop
    over [data.polls] *)
Definition serialize (data : Document) : StoredDocument :=
  {| users := users data; polls := serializeVotes <$> polls data |}.

(** [readData()].  The test [data.trim() === ''] comes after
    [JSON.parse(data)], which already throws a SyntaxError on blank
    text, so blank text is [Unparsable]. *)
Definition readData : M Document := λ m,
  match m with
  | Missing | Unparsable => (Ok emptyDocument, m)
  | Unreadable => (Throw IOFailure, m)
  | Stored d => (Ok (revive d), m)
  end.

(** [writeData(data)]: the whole file is overwritten.  The medium is
    taken to be writable: a failure of [fs.writeFile], which the source
    rethrows, is not modelled.  The polls of [data] are copied key by
    key (no poll is under [__proto__], see [Medium]). *)
Definition writeData (data : Document) : M unit := λ _,
  (Ok (), Stored (serialize data)).

(** [return data.users[username]] *)
Definition findUserByUsername (username : string) : M (Property User) :=
  data ← readData;
  mret (Object_get (users data) username).

(** The test [if (data.users[username])] passes on a user and on an
    inherited member alike; the assignment is reached for a name that
    resolves to nothing, and adds an own property. *)
Definition createUser (username : string) : M User :=
  data ← readData;
  match Object_get (users data) username with
  | Absent =>
      let user := {| username := username |} in
      _ ← writeData {| users := <[username := user]> (users data);
                       polls := polls data |};
      mret user
  | _ => throw (PlainError (UserExists username))
  end.

(** [return data.polls[pollId]] *)
Definition findPollById (pollId : string) : M (Property Poll) :=
  data ← readData;
  mret (Object_get (polls data) pollId).

(** [createPoll(pollData)], for an id other than [__proto__]: the
    assignment [data.polls[poll.id] = poll] adds or replaces an own
    property.  With the id [__proto__] it would replace the prototype of
    [data.polls] instead, and [writeData] would then write entries that
    are not polls; the embedding does not follow the program there. *)
Definition createPoll (pollData : PollData) : M Poll :=
  data ← readData;
  let poll : Poll := with_votes pollData [] in
  _ ← writeData {| users := users data;
                   polls := <[id poll := poll]> (polls data) |};
  mret poll.

(** The [votes] property of an [updatedPollData] object, when it has
    one: a [Map], or something that is not ([instanceof Map] fails). *)
Inductive PatchVotes : Type :=
| VotesMap (m : JsMap)
| VotesRecord (r : gmap string Z).

(** [updatedPollData]: each property is present or not. *)
Record PollPatch : Type := {
  patch_id : option string;
  patch_question : option string;
  patch_options : option (list string);
  patch_creator : option string;
  patch_votes : option PatchVotes
}.

(** [{ votes }] *)
Definition votesPatch (m : JsMap) : PollPatch :=
  {| patch_id := None; patch_question := None; patch_options := None;
     patch_creator := None; patch_votes := Some (VotesMap m) |}.

(** [{ ...poll, ...updatedPollData,
       votes: updatedPollData.votes instanceof Map
                ? updatedPollData.votes : poll.votes }] *)
Definition mergePoll (poll : Poll) (updatedPollData : PollPatch) : Poll :=
  {| id := default (id poll) (patch_id updatedPollData);
     question := default (question poll) (patch_question updatedPollData);
     options := default (options poll) (patch_options updatedPollData);
     creator := default (creator poll) (patch_creator updatedPollData);
     votes := match patch_votes updatedPollData with
              | Some (VotesMap m) => m
              | _ => votes poll
              end |}.

(** [updatePoll(pollId, updatedPollData)], for a [pollId] that keys a
    poll or resolves to nothing.  For an id that keys no poll but names
    an inherited property, the test [if (!poll)] passes on the inherited
    member, and the patch is merged into it and written: the result is
    not a poll, and the embedding does not follow the program there (it
    treats such an id as one that resolves to nothing). *)
Definition updatePoll (pollId : string) (updatedPollData : PollPatch)
  : M Poll :=
  data ← readData;
  match polls data !! pollId with
  | None => throw (PlainError (PollNotFoundForUpdate pollId))
  | Some poll =>
      let updated := mergePoll poll updatedPollData in
      _ ← writeData {| users := users data;
                       polls := <[pollId := updated]> (polls data) |};
      mret updated
  end.

(** The test [if (data.polls[pollId])] passes on a poll and on an
    inherited member alike; [delete data.polls[pollId]] removes an own
    property and does nothing when there is none. *)
Definition deletePoll (pollId : string) : M bool :=
  data ← readData;
  match Object_get (polls data) pollId with
  | Absent => mret false
  | _ =>
      _ ← writeData {| users := users data;
                       polls := delete pollId (polls data) |};
      mret true
  end.

(** [Object.values(data.polls)] *)
Definition getAllPolls : M (list Poll) :=
  data ← readData;
  mret (map_to_list (polls data)).*2.

Definition findPollsByCreator (username : string) : M (list Poll) :=
  allPolls ← getAllPolls;
  mret (filter (λ poll, creator poll = username) allPolls).

Definition findPollsVotedInByUser (username : string) : M (list Poll) :=
  allPolls ← getAllPolls;
  mret (filter (λ poll : Poll, Map_has (votes poll) username = true) allPolls).

Definition clearStorage : M unit :=
  writeData emptyDocument.

End memoryStorage.

(** ** src/services/userService.js *)

Module userService.

Definition createUser (username : JsValue) : M User :=
  match username with
  | JStr s =>
      (* !username || username.trim().length === 0 *)
      if negb (truthy username) || is_empty (trim s)
      then throw (BusinessLogicError UsernameEmpty)
      else
        let trimmedUsername := trim s in
        existingUser ← memoryStorage.findUserByUsername trimmedUsername;
        match existingUser with
        | Absent => memoryStorage.createUser trimmedUsername
        | _ => (* if (existingUser) *)
            throw (BusinessLogicError (UsernameTaken trimmedUsername))
        end
  | _ =>
      (* !username || typeof username !== 'string' *)
      throw (BusinessLogicError UsernameEmpty)
  end.

Definition findUser (username : string) : M (Property User) :=
  memoryStorage.findUserByUsername username.

End userService.

(** ** src/services/pollService.js *)

Module pollService.

(** [!v || typeof v !== 'string' || v.trim().length === 0] *)
Definition blank (v : JsValue) : bool :=
  match v with
  | JStr s => negb (truthy v) || is_empty (trim s)
  | _ => true
  end.

(** [options.map((opt) => opt.trim())]; [trim] is a method of strings
    only. *)
Fixpoint trimAll (opts : list JsValue) : Result (list string) :=
  match opts with
  | [] => Ok []
  | JStr s :: opts' => rest ← trimAll opts'; Ok (trim s :: rest)
  | _ :: _ => Throw TypeError
  end.

Definition validatePollData (question options creatorUsername : JsValue)
  : Result unit :=
  if blank question then Throw (BusinessLogicError QuestionEmpty) else
  match options with
  | JArr opts =>
      if (length opts <? 2)%nat
      then Throw (BusinessLogicError TooFewOptions)
      else if existsb blank opts
      then Throw (BusinessLogicError OptionsNotNonEmptyStrings)
      else
        trimmed ← trimAll opts;
        if negb (Set_size trimmed =? length opts)%nat
        then Throw (BusinessLogicError OptionsNotUnique)
        else if blank creatorUsername
        then Throw (BusinessLogicError CreatorRequired)
        else Ok ()
  | _ =>
      (* !Array.isArray(options) *)
      Throw (BusinessLogicError TooFewOptions)
  end.

(** [createPoll(question, options, creatorUsername)]; [pollId] is the
    value that [uuidv4()] returns in this call. *)
Definition createPoll (question options creatorUsername : JsValue)
    (pollId : string) : M Poll :=
  _ ← lift (validatePollData question options creatorUsername);
  match question, options, creatorUsername with
  | JStr q, JArr opts, JStr c =>
      let trimmedUsername := trim c in
      creator ← userService.findUser trimmedUsername;
      match creator with
      | Absent =>
          throw (BusinessLogicError (CreatorDoesNotExist trimmedUsername))
      | _ => (* if (!creator) does not fire *)
          trimmed ← lift (trimAll opts);
          memoryStorage.createPoll
            {| id := pollId; question := trim q; options := trimmed;
               creator := trimmedUsername; votes := () |}
      end
  | _, _, _ => throw TypeError
  end.

Definition deletePoll (pollId requestingUsername : string) : M bool :=
  (* !pollId || !requestingUsername *)
  if is_empty pollId || is_empty requestingUsername
  then throw (BusinessLogicError RequiredForDeletion)
  else
    poll ← memoryStorage.findPollById pollId;
    match poll with
    | Absent => throw (BusinessLogicError (PollNotFound pollId))
    | Own poll =>
        if bool_decide (creator poll ≠ trim requestingUsername)
        then throw (BusinessLogicError
                      (NotAuthorized requestingUsername pollId))
        else memoryStorage.deletePoll pollId
    | Inherited _ =>
        (* poll.creator is undefined, which differs from every string *)
        throw (BusinessLogicError (NotAuthorized requestingUsername pollId))
    end.

(** [typeof optionIndex !== 'number' || !Number.isInteger(optionIndex)
     || optionIndex < 0 || optionIndex >= length]; the comparisons are
    reached for integers only. *)
Definition invalidIndex (optionIndex : JsValue) (len : nat) : bool :=
  match optionIndex with
  | JNum (Int i) => (i <? 0) || (Z.of_nat len <=? i)
  | _ => true
  end.

Definition vote (pollId : string) (optionIndex : JsValue)
    (username : string) : M Poll :=
  (* !pollId || optionIndex === undefined || !username *)
  if is_empty pollId
     || match optionIndex with JUndefined => true | _ => false end
     || is_empty username
  then throw (BusinessLogicError RequiredForVote)
  else
    let trimmedUsername := trim username in
    poll ← memoryStorage.findPollById pollId;
    match poll with
    | Absent => throw (BusinessLogicError (PollNotFound pollId))
    | Own poll =>
        user ← userService.findUser trimmedUsername;
        match user with
        | Absent => throw (BusinessLogicError (UserNotFound trimmedUsername))
        | _ => (* if (!user) does not fire *)
            match optionIndex with
            | JNum (Int i) =>
                if invalidIndex optionIndex (length (options poll))
                then throw (BusinessLogicError
                              (InvalidOptionIndex optionIndex pollId))
                else if Map_has (votes poll) trimmedUsername
                then throw (BusinessLogicError
                              (AlreadyVoted trimmedUsername pollId))
                else
                  (* poll.votes.set(trimmedUsername, optionIndex) *)
                  let votes' := Map_set (votes poll) trimmedUsername i in
                  memoryStorage.updatePoll pollId
                    (memoryStorage.votesPatch votes')
            | _ =>
                throw (BusinessLogicError
                         (InvalidOptionIndex optionIndex pollId))
            end
        end
    | Inherited _ =>
        user ← userService.findUser trimmedUsername;
        match user with
        | Absent => throw (BusinessLogicError (UserNotFound trimmedUsername))
        | _ =>
            (* the test of the index reaches poll.options.length, where
               poll.options is undefined, for an integer that is not
               negative *)
            match optionIndex with
            | JNum (Int i) =>
                if i <? 0
                then throw (BusinessLogicError
                              (InvalidOptionIndex optionIndex pollId))
                else throw TypeError
            | _ =>
                throw (BusinessLogicError
                         (InvalidOptionIndex optionIndex pollId))
            end
        end
    end.

Definition getPollById (pollId : string) : M (Property Poll) :=
  memoryStorage.findPollById pollId.

Definition getAllPolls : M (list Poll) :=
  memoryStorage.getAllPolls.

Definition getPollsByCreator (username : string) : M (list Poll) :=
  let trimmedUsername := trim username in
  user ← userService.findUser trimmedUsername;
  match user with
  | Absent => throw (BusinessLogicError (UserNotFound trimmedUsername))
  | _ => memoryStorage.findPollsByCreator trimmedUsername
  end.

Definition getPollsVotedInByUser (username : string) : M (list Poll) :=
  let trimmedUsername := trim username in
  user ← userService.findUser trimmedUsername;
  match user with
  | Absent => throw (BusinessLogicError (UserNotFound trimmedUsername))
  | _ => memoryStorage.findPollsVotedInByUser trimmedUsername
  end.

End pollService.

(** ** src/poll.js : the [Poll] class *)

Module Poll.

(** The class exists in two files that differ in how option text is
    compared (and in the wording of the messages): [src/poll.js] uses
    [opt.trim()], its sibling [opt.trim().toLowerCase()]. *)
Inductive Policy : Type :=
| CaseSensitive
| CaseInsensitive.

Definition normalize (policy : Policy) (s : string) : string :=
  match policy with
  | CaseSensitive => trim s
  | CaseInsensitive => toLowerCase (trim s)
  end.

(** [options.map((opt) => normalize(opt))]; [trim] is a method of
    strings only. *)
Fixpoint normalizeAll (policy : Policy) (opts : list JsValue)
  : Result (list string) :=
  match opts with
  | [] => Ok []
  | JStr s :: opts' =>
      rest ← normalizeAll policy opts'; Ok (normalize policy s :: rest)
  | _ :: _ => Throw TypeError
  end.

(** [#validateInputs(question, options)] *)
Definition validateInputs (policy : Policy) (question options : JsValue)
  : Result unit :=
  (* !question?.trim() *)
  _ ← match question with
      | JUndefined | JNull => Throw (PlainError PollQuestionEmpty)
      | JStr s =>
          if is_empty (trim s) then Throw (PlainError PollQuestionEmpty)
          else Ok ()
      | _ => Throw TypeError
      end;
  match options with
  | JArr opts =>
      if (length opts <? 2)%nat then Throw (PlainError PollTooFewOptions)
      else if negb (forallb is_string opts)
      then Throw (PlainError PollOptionsNotStrings)
      else
        trimmed ← normalizeAll policy opts;
        if negb (Set_size trimmed =? length trimmed)%nat
        then Throw (PlainError PollOptionsNotUnique)
        else if existsb is_empty trimmed
        then Throw (PlainError PollOptionsEmpty)
        else Ok ()
  | _ =>
      (* !Array.isArray(options) *)
      Throw (PlainError PollTooFewOptions)
  end.

(** The private fields of an instance. *)
Record Instance : Type := {
  _id : JsValue;
  _question : string;
  _options : list string;
  _votes : gmap string Z
}.

(** [this.#votes[option] = 0]: the assignment adds an own property,
    except under the key [__proto__], where the inherited setter takes
    the value and ignores a number. *)
Definition zero (votes : gmap string Z) (option : string) : gmap string Z :=
  if bool_decide (option = "__proto__") then votes else <[option := 0]> votes.

(** [constructor(id, question, options)] *)
Definition constructor (policy : Policy) (id question options : JsValue)
  : Result Instance :=
  _ ← validateInputs policy question options;
  match question, options with
  | JStr q, JArr opts =>
      opts' ← normalizeAll policy opts;
      Ok {| _id := id; _question := normalize policy q; _options := opts';
            _votes := foldl zero ∅ opts' |}
  | _, _ => Throw TypeError
  end.

(** How a call of [vote] ends. *)
Inductive VoteOutcome : Type :=
| Counted (count : Z) (this' : Instance)
    (* returns the new count; the instance with its counter raised *)
| CountedNaN
    (* returns NaN: the option has no counter *)
| InvalidPollOption (option : JsValue)
    (* throws Error: Invalid poll option: option *)
| VoteTypeError.
    (* [option.trim] on a value that has no such method *)

(** [++this.#votes[key]].  An option without a counter of its own is
    [__proto__] in every instance that the constructor has built: the
    increment of the inherited object is NaN, which the setter ignores,
    so that the instance stays as it is. *)
Definition increment (this : Instance) (key : string) : VoteOutcome :=
  match _votes this !! key with
  | Some n =>
      Counted (n + 1)
        {| _id := _id this; _question := _question this;
           _options := _options this;
           _votes := <[key := n + 1]> (_votes this) |}
  | None => CountedNaN
  end.

(** [vote(option)].  In [src/poll.js] the option is looked up as given,
    and [includes] finds no value that is not a string among the
    options; the sibling file first computes
    [option.trim().toLowerCase()]. *)
Definition vote (policy : Policy) (this : Instance) (option : JsValue)
  : VoteOutcome :=
  match policy with
  | CaseSensitive =>
      match option with
      | JStr s =>
          if bool_decide (s ∈ _options this) then increment this s
          else InvalidPollOption option
      | _ => InvalidPollOption option
      end
  | CaseInsensitive =>
      match option with
      | JStr s =>
          let trimmedAndLowerCasedOption := toLowerCase (trim s) in
          if bool_decide (trimmedAndLowerCasedOption ∈ _options this)
          then increment this trimmedAndLowerCasedOption
          else InvalidPollOption option
      | _ => VoteTypeError
      end
  end.

(** The object that [getResults()] returns; the [votes] of an entry is
    the value of [this.#votes[option]]. *)
Record Results : Type := {
  results_question : string;
  totalVotes : Z;
  results : list (string * Property Z)
}.

(** [getResults()]; [totalVotes] is
    [Object.values(this.#votes).reduce((sum, count) => sum + count, 0)],
    over the own properties. *)
Definition getResults (this : Instance) : Results :=
  {| results_question := _question this;
     totalVotes := foldl Z.add 0 (map_to_list (_votes this)).*2;
     results := (λ option, (option, Object_get (_votes this) option))
                  <$> _options this |}.

End Poll.

(** ** The poll manager : a registry of [Poll] instances by numeric id *)

Module PollManager.

(** The fields of a manager: [polls], a [Map] from id to instance, and
    the private [#counter]. *)
Record Manager : Type := {
  _polls : gmap Z Poll.Instance;
  _counter : Z
}.

(** [constructor()] *)
Definition constructor : Manager :=
  {| _polls := ∅; _counter := 1 |}.

(** What a method of the manager throws. *)
Inductive Failure : Type :=
| DuplicateQuestion              (* A poll with this question already exists *)
| PollNotFoundWithId (id : JsValue)       (* Poll not found with id: id *)
| Construction (e : Error)       (* thrown by [new Poll(...)] *)
| InvalidOption (option : JsValue)        (* Invalid poll option: option *)
| ManagerTypeError.              (* [trim] on a value that has no such method *)

(** [poll.question]: the sibling file of the class has this getter,
    [src/poll.js] has not, and the property is [undefined] there. *)
Definition question_of (policy : Poll.Policy) (poll : Poll.Instance)
  : option string :=
  match policy with
  | Poll.CaseSensitive => None
  | Poll.CaseInsensitive => Some (Poll._question poll)
  end.

(** [Array.from(this.polls.values()).some((poll) =>
       poll.question === question.trim().toLowerCase())].
    The callback, and with it [question.trim()], runs only when there is
    a poll. *)
Definition hasDuplicateQuestion (policy : Poll.Policy) (this : Manager)
    (question : JsValue) : Failure + bool :=
  match (map_to_list (_polls this)).*2 with
  | [] => inr false
  | all =>
      match question with
      | JStr s =>
          inr (existsb
                 (λ poll, bool_decide (question_of policy poll
                                       = Some (toLowerCase (trim s))))
                 all)
      | _ => inl ManagerTypeError
      end
  end.

(** [#generateId()]: [return this.#counter++] *)
Definition generateId (this : Manager) : Z * Manager :=
  (_counter this,
   {| _polls := _polls this; _counter := _counter this + 1 |}).

(** [createPoll(question, options)]: the result and the manager after
    the call. *)
Definition createPoll (policy : Poll.Policy) (this : Manager)
    (question options : JsValue) : (Failure + Z) * Manager :=
  match hasDuplicateQuestion policy this question with
  | inl e => (inl e, this)
  | inr true => (inl DuplicateQuestion, this)
  | inr false =>
      let '(id, this) := generateId this in
      match Poll.constructor policy (JNum (Int id)) question options with
      | Throw e => (inl (Construction e), this)
      | Ok poll =>
          (inr id,
           {| _polls := <[id := poll]> (_polls this);
              _counter := _counter this |})
      end
  end.

(** [this.polls.get(id)]: only a number can be a key. *)
Definition lookup_poll (this : Manager) (id : JsValue)
  : option Poll.Instance :=
  match id with
  | JNum (Int n) => _polls this !! n
  | _ => None
  end.

(** [getPoll(id)] *)
Definition getPoll (this : Manager) (id : JsValue)
  : Failure + Poll.Instance :=
  match lookup_poll this id with
  | Some poll => inr poll
  | None => inl (PollNotFoundWithId id)
  end.

(** The manager in which the instance under [id] is [poll]: a method
    of an instance found by [getPoll] mutates it in place. *)
Definition mutated (this : Manager) (id : JsValue) (poll : Poll.Instance)
  : Manager :=
  match id with
  | JNum (Int n) =>
      {| _polls := <[n := poll]> (_polls this); _counter := _counter this |}
  | _ => this
  end.

(** [vote(pollId, option)]: [poll.vote(option); return true], whatever
    [poll.vote] returns. *)
Definition vote (policy : Poll.Policy) (this : Manager)
    (pollId option : JsValue) : (Failure + bool) * Manager :=
  match getPoll this pollId with
  | inl e => (inl e, this)
  | inr poll =>
      match Poll.vote policy poll option with
      | Poll.Counted _ poll' => (inr true, mutated this pollId poll')
      | Poll.CountedNaN => (inr true, this)
      | Poll.InvalidPollOption o => (inl (InvalidOption o), this)
      | Poll.VoteTypeError => (inl ManagerTypeError, this)
      end
  end.

(** [getResults(pollId)] *)
Definition getResults (this : Manager) (pollId : JsValue)
  : Failure + Poll.Results :=
  match getPoll this pollId with
  | inr poll => inr (Poll.getResults poll)
  | inl e => inl e
  end.

(** [getAllPolls()] *)
Definition getAllPolls (this : Manager) : list Poll.Instance :=
  (map_to_list (_polls this)).*2.

End PollManager.

(** ** src/app.js : the error-handling middleware *)

Module app.

(** The double-quote character, as a string. *)
Definition dq : string := String "034"%char EmptyString.

(** [s.startsWith(p)] *)
Fixpoint startsWith (s p : string) : bool :=
  match p, s with
  | EmptyString, _ => true
  | String a p', String b s' => bool_decide (a = b) && startsWith s' p'
  | String _ _, EmptyString => false
  end.

(** [s.includes(p)] *)
Fixpoint includes (s p : string) : bool :=
  startsWith s p
  || match s with
     | EmptyString => false
     | String _ s' => includes s' p
     end.

(** The text of a message.  [show] gives the text that a template
    literal puts for a value. *)
Definition message (show : JsValue → string) (msg : Message) : string :=
  match msg with
  | UsernameEmpty => "Username cannot be empty."
  | UsernameTaken u => "Username " +:+ dq +:+ u +:+ dq +:+ " is already taken."
  | UserExists u =>
      "User with username " +:+ dq +:+ u +:+ dq +:+ " already exists."
  | PollNotFoundForUpdate pollId =>
      "Poll with ID " +:+ dq +:+ pollId +:+ dq +:+ " not found for update."
  | QuestionEmpty => "Poll question cannot be empty."
  | TooFewOptions => "Poll must have at least two options."
  | OptionsNotNonEmptyStrings => "All poll options must be non-empty strings."
  | OptionsNotUnique => "Poll options must be unique."
  | CreatorRequired => "Creator username must be provided."
  | CreatorDoesNotExist u =>
      "User " +:+ dq +:+ u +:+ dq
      +:+ " does not exist and cannot create a poll."
  | RequiredForDeletion =>
      "Poll ID and requesting username are required for deletion."
  | PollNotFound pollId =>
      "Poll with ID " +:+ dq +:+ pollId +:+ dq +:+ " not found."
  | NotAuthorized u pollId =>
      "User " +:+ dq +:+ u +:+ dq +:+ " is not authorized to delete poll "
      +:+ dq +:+ pollId +:+ dq +:+ "."
  | RequiredForVote =>
      "Poll ID, option index, and username are required to vote."
  | UserNotFound u => "User " +:+ dq +:+ u +:+ dq +:+ " not found."
  | InvalidOptionIndex optionIndex pollId =>
      "Invalid option index " +:+ dq +:+ show optionIndex +:+ dq
      +:+ " for poll " +:+ dq +:+ pollId +:+ dq +:+ "."
  | AlreadyVoted u pollId =>
      "User " +:+ dq +:+ u +:+ dq +:+ " has already voted in poll "
      +:+ dq +:+ pollId +:+ dq +:+ "."
  | PollQuestionEmpty => "Poll question cannot be empty"
  | PollTooFewOptions => "Poll must have at least two options"
  | PollOptionsNotStrings => "Poll options must be strings"
  | PollOptionsNotUnique => "Poll options must be unique"
  | PollOptionsEmpty => "Poll options cannot be empty"
  end.

(** What [res.json(...)] is given. *)
Inductive Body : Type :=
| ErrorBody (error : string)          (* { error } *)
| MessageBody (text : string)         (* { message } *)
| UserBody (user : User)
| PollBody (poll : StoredPoll)
| PollsBody (polls : list StoredPoll)
| MemberBody (name : string).
    (* a member of Object.prototype handed to res.json: no text for a
       function, the text of an empty object for Object.prototype *)

(** [res.status(status).json(body)] *)
Record Response : Type := {
  status : nat;
  body : Body
}.

(** The middleware [(err, req, res, next) => ...]. *)
Definition errorHandler (show : JsValue → string) (err : Error) : Response :=
  match err with
  | BusinessLogicError msg =>
      let text := message show msg in
      if includes text "not found" || includes text "does not exist"
      then {| status := 404; body := ErrorBody text |}
      else if includes text "not authorized"
      then {| status := 403; body := ErrorBody text |}
      else if includes text "already exists"
              || includes text "already taken"
              || includes text "already voted"
      then {| status := 400; body := ErrorBody text |}
      else {| status := 400; body := ErrorBody text |}
  | _ => {| status := 500; body := ErrorBody "Internal Server Error" |}
  end.

End app.

(** ** src/routes/pollRoutes.js and src/routes/userRoutes.js *)

Module routes.

(** A handler computes the response over the storage file. *)
Definition Handler : Type := Medium → app.Response * Medium.

(** [try { ok(await call) } catch (error) { next(error) }] *)
Definition respond {A : Type} (show : JsValue → string) (call : M A)
    (ok : A → app.Response) : Handler := λ m,
  match call m with
  | (Ok a, m') => (ok a, m')
  | (Throw e, m') => (app.errorHandler show e, m')
  end.

(** [res.status(status).json({ error })] without calling a service *)
Definition reject (status : nat) (error : string) : Handler := λ m,
  ({| app.status := status; app.body := app.ErrorBody error |}, m).

(** [serializePollVotes(poll)] for a poll object, whose [votes] is a
    [Map] *)
Definition serializePollVotes (poll : Poll) : StoredPoll :=
  with_votes poll (Object_fromEntries (votes poll)).

(** [pollService.deletePoll(id, username)] for a [username] of any
    type: [trim] is reached once the poll is found, and is a method of
    strings only. *)
Definition deletePoll_call (id : string) (username : JsValue) : M bool :=
  match username with
  | JStr s => pollService.deletePoll id s
  | _ =>
      if is_empty id || negb (truthy username)
      then throw (BusinessLogicError RequiredForDeletion)
      else
        poll ← memoryStorage.findPollById id;
        match poll with
        | Absent => throw (BusinessLogicError (PollNotFound id))
        | _ => throw TypeError
        end
  end.

(** [pollService.vote(id, optionIndex, username)] for a [username] of
    any type: [trim] is the first thing called after the guard. *)
Definition vote_call (id : string) (optionIndex username : JsValue)
  : M Poll :=
  match username with
  | JStr s => pollService.vote id optionIndex s
  | _ =>
      if is_empty id
         || match optionIndex with JUndefined => true | _ => false end
         || negb (truthy username)
      then throw (BusinessLogicError RequiredForVote)
      else throw TypeError
  end.

(** [router.post('/')] of the user routes, on the [username] of the
    body *)
Definition postUser (show : JsValue → string) (username : JsValue)
  : Handler :=
  if negb (truthy username)
  then reject 400 "Username is required in the request body."
  else respond show (userService.createUser username)
         (λ newUser, {| app.status := 201; app.body := app.UserBody newUser |}).

(** [router.get('/:id')], on the [id] of the path.  The test [if (!poll)]
    fires on [undefined] only; [serializePollVotes] returns unchanged
    what has no [votes] that is a [Map]. *)
Definition getPoll (show : JsValue → string) (id : string) : Handler :=
  respond show (pollService.getPollById id)
    (λ poll,
       match poll with
       | Absent =>
           {| app.status := 404;
              app.body :=
                app.ErrorBody ("Poll with ID " +:+ app.dq +:+ id +:+ app.dq
                               +:+ " not found.") |}
       | Own poll =>
           {| app.status := 200;
              app.body := app.PollBody (serializePollVotes poll) |}
       | Inherited name =>
           {| app.status := 200; app.body := app.MemberBody name |}
       end).

(** [router.delete('/:id')], on the [id] of the path and the [username]
    of the body *)
Definition deletePoll (show : JsValue → string) (id : string)
    (username : JsValue) : Handler :=
  if negb (truthy username)
  then reject 400
         "Username is required in the request body to delete a poll."
  else respond show (deletePoll_call id username)
         (λ deleted : bool,
            if deleted
            then {| app.status := 200;
                    app.body :=
                      app.MessageBody ("Poll " +:+ app.dq +:+ id +:+ app.dq
                                       +:+ " deleted successfully.") |}
            else {| app.status := 404;
                    app.body :=
                      app.ErrorBody ("Poll with ID " +:+ app.dq +:+ id
                                     +:+ app.dq
                                     +:+ " not found or deletion failed.") |}).

(** [router.post('/:id/vote')], on the [id] of the path and the
    [username] and [optionIndex] of the body *)
Definition postVote (show : JsValue → string) (id : string)
    (username optionIndex : JsValue) : Handler :=
  if negb (truthy username)
     || match optionIndex with JUndefined => true | _ => false end
  then reject 400 "Missing required fields: username, optionIndex."
  else
    match optionIndex with
    | JNum _ =>
        respond show (vote_call id optionIndex username)
          (λ updatedPoll,
             {| app.status := 200;
                app.body := app.PollBody (serializePollVotes updatedPoll) |})
    | _ => reject 400 "optionIndex must be a number."
    end.

End routes.

(** The elements of an array that are strings. *)
Definition strings (l : list JsValue) : list string :=
  omap (λ v, match v with JStr s => Some s | _ => None end) l.

(** ** The construction rules of a poll, as the specification lists them *)

Module PollRules.

Inductive Rule : Type :=
| QuestionNonEmpty     (* question non-empty after trim *)
| AtLeastTwoOptions    (* options length at least 2 *)
| OptionsAreStrings    (* every option is string-typed *)
| OptionsUnique        (* options unique under the comparison policy *)
| OptionsNonEmpty.     (* no option empty after trim *)

(** The fixed order of validation. *)
Definition order : list Rule :=
  [QuestionNonEmpty; AtLeastTwoOptions; OptionsAreStrings; OptionsUnique;
   OptionsNonEmpty].

Definition error_of (r : Rule) : Error :=
  PlainError
    match r with
    | QuestionNonEmpty => PollQuestionEmpty
    | AtLeastTwoOptions => PollTooFewOptions
    | OptionsAreStrings => PollOptionsNotStrings
    | OptionsUnique => PollOptionsNotUnique
    | OptionsNonEmpty => PollOptionsEmpty
    end.

Definition holds (policy : Poll.Policy) (question options : JsValue)
    (r : Rule) : bool :=
  match r with
  | QuestionNonEmpty =>
      match question with
      | JStr s => bool_decide (trim s ≠ "")
      | _ => false
      end
  | AtLeastTwoOptions =>
      match options with
      | JArr l => bool_decide (2 ≤ length l)%nat
      | _ => false
      end
  | OptionsAreStrings =>
      match options with
      | JArr l => bool_decide (Forall (λ v, is_string v) l)
      | _ => true
      end
  | OptionsUnique =>
      match options with
      | JArr l => bool_decide (NoDup (Poll.normalize policy <$> strings l))
      | _ => true
      end
  | OptionsNonEmpty =>
      match options with
      | JArr l => bool_decide (Forall (λ s, trim s ≠ "") (strings l))
      | _ => true
      end
  end.

(** The position of a rule in [order]. *)
Definition rank (r : Rule) : nat :=
  match r with
  | QuestionNonEmpty => 0
  | AtLeastTwoOptions => 1
  | OptionsAreStrings => 2
  | OptionsUnique => 3
  | OptionsNonEmpty => 4
  end.

(** The first rule of [order] that the input violates, if any. *)
Definition first_violated (policy : Poll.Policy)
    (question options : JsValue) : option Rule :=
  List.find (λ r, negb (holds policy question options r)) order.

(** The declared type of [question]: a string, or no value. *)
Definition string_or_absent (question : JsValue) : Prop :=
  match question with
  | JStr _ | JUndefined | JNull => True
  | _ => False
  end.

Global Instance string_or_absent_dec (question : JsValue) :
  Decision (string_or_absent question).
Proof. destruct question; simpl; apply _. Defined.

End PollRules.

(** ** Vocabulary of the statements *)

(** The document that a read sees in the file: the stored one, or the
    empty one when the file is missing or does not parse. *)
Definition contents (m : Medium) : StoredDocument :=
  match m with
  | Stored d => d
  | _ => memoryStorage.emptyDocument
  end.

(** A string with something left after trimming. *)
Definition nonblank_string (v : JsValue) : Prop :=
  match v with
  | JStr s => trim s ≠ ""
  | _ => False
  end.

Global Instance nonblank_string_dec (v : JsValue) :
  Decision (nonblank_string v).
Proof. destruct v; simpl; apply _. Defined.

(** Two of the options are equal once trimmed. *)
Definition duplicate_after_trim (opts : list JsValue) : Prop :=
  ¬ NoDup (trim <$> strings opts).

Global Instance duplicate_after_trim_dec (opts : list JsValue) :
  Decision (duplicate_after_trim opts).
Proof. unfold duplicate_after_trim. apply _. Defined.

(** An integer in [[0, len)]. *)
Definition valid_index (optionIndex : JsValue) (len : nat) : Prop :=
  match optionIndex with
  | JNum (Int i) => 0 ≤ i < Z.of_nat len
  | _ => False
  end.

Global Instance valid_index_dec (optionIndex : JsValue) (len : nat) :
  Decision (valid_index optionIndex len).
Proof. destruct optionIndex as [| | |[]| | |]; simpl; apply _. Defined.

(** A computation that leaves the storage file as it found it. *)
Definition read_only {A : Type} (c : M A) : Prop :=
  ∀ m : Medium, (c m).2 = m.

(** The arguments that the Poll Service's validation lets through: a
    non-blank question, at least two options that are non-blank strings
    and pairwise distinct once trimmed, and a non-blank creator name. *)
Definition valid_poll_input (question options creatorUsername : JsValue)
  : Prop :=
  nonblank_string question
  ∧ match options with
    | JArr opts =>
        (2 ≤ length opts)%nat
        ∧ Forall nonblank_string opts
        ∧ NoDup (trim <$> strings opts)
    | _ => False
    end
  ∧ nonblank_string creatorUsername.

(** The text of a string value, empty for any other value. *)
Definition text_of (v : JsValue) : string :=
  match v with
  | JStr s => s
  | _ => ""
  end.

(** The elements of an array value. *)
Definition elements_of (v : JsValue) : list JsValue :=
  match v with
  | JArr l => l
  | _ => []
  end.

(** A call of one of the operations of the two services that can write
    the file. *)
Inductive ServiceCall : Type :=
| CreateUser (username : JsValue)
| CreatePoll (question options creatorUsername : JsValue) (pollId : string)
| Vote (pollId : string) (optionIndex : JsValue) (username : string)
| DeletePoll (pollId requestingUsername : string).

(** The file after a call, whether the call returned or threw. *)
Definition after (call : ServiceCall) (m : Medium) : Medium :=
  match call with
  | CreateUser username => (userService.createUser username m).2
  | CreatePoll question options creatorUsername pollId =>
      (pollService.createPoll question options creatorUsername pollId m).2
  | Vote pollId optionIndex username =>
      (pollService.vote pollId optionIndex username m).2
  | DeletePoll pollId requestingUsername =>
      (pollService.deletePoll pollId requestingUsername m).2
  end.

(** The file after a sequence of calls, first call first. *)
Definition after_all (calls : list ServiceCall) (m : Medium) : Medium :=
  foldl (λ m call, after call m) m calls.

(** The ids of the calls are those [uuidv4] draws, which are never the
    name [__proto__]. *)
Definition generated (call : ServiceCall) : Prop :=
  match call with
  | CreatePoll _ _ _ pollId => pollId ≠ "__proto__"
  | _ => True
  end.

(** A name that the user lookup of the services resolves: the name of a
    registered user, or one of the names every object inherits, which
    [if (!user)] lets through as well. *)
Definition known (d : StoredDocument) (u : string) : Prop :=
  is_Some (users d !! u) ∨ u ∈ inherited_names.

(** A poll as the Poll Service creates it: stored under its own id, with
    a trimmed non-empty question, at least two trimmed, non-empty,
    pairwise distinct options, and a creator whose name the user lookup
    resolved. *)
Definition well_formed_poll (d : StoredDocument) (pollId : string)
    (p : StoredPoll) : Prop :=
  id p = pollId
  ∧ question p ≠ "" ∧ trim (question p) = question p
  ∧ (2 ≤ length (options p))%nat
  ∧ NoDup (options p)
  ∧ Forall (λ o, o ≠ "" ∧ trim o = o) (options p)
  ∧ known d (creator p).

(** Every ledger entry is the vote, for an option of the poll, of a name
    the user lookup resolved. *)
Definition valid_ledger (d : StoredDocument) (p : StoredPoll) : Prop :=
  ∀ u i, votes p !! u = Some i →
         known d u ∧ 0 ≤ i < Z.of_nat (length (options p)).

(** The invariant of the document: users are stored under their own
    trimmed, non-empty name, none under a name that objects inherit, no
    poll is stored under [__proto__], and every poll is well formed with
    a valid ledger. *)
Definition consistent (d : StoredDocument) : Prop :=
  (∀ k usr, users d !! k = Some usr →
            username usr = k ∧ trim k = k ∧ k ≠ "" ∧ k ∉ inherited_names)
  ∧ polls d !! "__proto__" = None
  ∧ (∀ pollId p, polls d !! pollId = Some p →
                 well_formed_poll d pollId p ∧ valid_ledger d p).

(** ** Vocabulary for the [Poll] class *)

(** The text under which [vote] looks an option up: the string as given
    in [src/poll.js], trimmed and lower-cased in the sibling file;
    nothing for a value that is not a string. *)
Definition ballot_key (policy : Poll.Policy) (ballot : JsValue)
  : option string :=
  match ballot with
  | JStr s =>
      Some match policy with
           | Poll.CaseSensitive => s
           | Poll.CaseInsensitive => toLowerCase (trim s)
           end
  | _ => None
  end.

(** The invariant of an instance: the options are pairwise distinct and
    the counters are those of the options. *)
Definition counters_match (this : Poll.Instance) : Prop :=
  NoDup (Poll._options this)
  ∧ ∀ o : string, o ∈ Poll._options this ↔ is_Some (Poll._votes this !! o).

(** The invariant of an instance that the constructor has built: the
    options are pairwise distinct, and the counters are those of the
    options other than [__proto__], under which the assignment of the
    constructor stores nothing. *)
Definition counters_kept (this : Poll.Instance) : Prop :=
  NoDup (Poll._options this)
  ∧ ∀ o : string,
      is_Some (Poll._votes this !! o)
      ↔ o ∈ Poll._options this ∧ o ≠ "__proto__".

(** The count of an entry of the results, when it is a number. *)
Definition count_of (votes : Property Z) : option Z :=
  match votes with
  | Own n => Some n
  | _ => None
  end.

(** The instance after a sequence of calls of [vote], with the number
    of calls that returned a count: a call that throws counts nothing,
    and neither does one that returns NaN. *)
Fixpoint tally (policy : Poll.Policy) (this : Poll.Instance)
    (ballots : list JsValue) : nat * Poll.Instance :=
  match ballots with
  | [] => (0%nat, this)
  | ballot :: ballots' =>
      match Poll.vote policy this ballot with
      | Poll.Counted _ this' =>
          let '(n, final) := tally policy this' ballots' in (S n, final)
      | _ => tally policy this ballots'
      end
  end.

(** The sum of a list of integers. *)
Definition Zsum (l : list Z) : Z := foldr Z.add 0 l.

(** ** Vocabulary for the poll manager *)

(** A call of a method of the manager that can change it. *)
Inductive ManagerCall : Type :=
| ManagerCreatePoll (question options : JsValue)
| ManagerVote (pollId option : JsValue).

(** The manager after a call, whether the call returned or threw. *)
Definition manager_after (policy : Poll.Policy) (this : PollManager.Manager)
    (call : ManagerCall) : PollManager.Manager :=
  match call with
  | ManagerCreatePoll question options =>
      (PollManager.createPoll policy this question options).2
  | ManagerVote pollId option =>
      (PollManager.vote policy this pollId option).2
  end.

(** A new manager after a sequence of calls, first call first. *)
Definition manager_after_all (policy : Poll.Policy)
    (calls : list ManagerCall) : PollManager.Manager :=
  foldl (manager_after policy) PollManager.constructor calls.

(** The invariant of a manager: every poll is stored under its own id,
    which is below the counter, and its counters are those of its
    options other than [__proto__]. *)
Definition manager_ok (this : PollManager.Manager) : Prop :=
  1 ≤ PollManager._counter this
  ∧ ∀ n p, PollManager._polls this !! n = Some p →
           1 ≤ n < PollManager._counter this
           ∧ Poll._id p = JNum (Int n)
           ∧ counters_kept p.

(** No two polls of the manager have the same question. *)
Definition distinct_questions (this : PollManager.Manager) : Prop :=
  ∀ n n' p p',
    PollManager._polls this !! n = Some p →
    PollManager._polls this !! n' = Some p' →
    Poll._question p = Poll._question p' → n = n'.

(** ** Vocabulary for the HTTP layer *)

(** A name that contains none of the phrases by which the middleware
    recognises not-found and not-authorized errors. *)
Definition neutral (s : string) : Prop :=
  app.includes s "not found" = false
  ∧ app.includes s "does not exist" = false
  ∧ app.includes s "not authorized" = false.

(** Whether a character occurs in a string. *)
Fixpoint has_char (c : ascii) (s : string) : bool :=
  match s with
  | EmptyString => false
  | String x s' => bool_decide (x = c) || has_char c s'
  end.

(** ** Sample data *)

Module Examples.

Definition alice : User := {| username := "alice" |}.
Definition bob : User := {| username := "bob" |}.

(** alice's poll, in which bob has voted for option 1 *)
Definition poll1 : StoredPoll :=
  {| id := "p1"; question := "Pick one?"; options := ["X"; "Y"];
     creator := "alice"; votes := {[ "bob" := 1 ]} |}.

Definition doc : StoredDocument :=
  {| users := {[ "alice" := alice; "bob" := bob ]};
     polls := {[ "p1" := poll1 ]} |}.

Definition pollData2 : PollData :=
  {| id := "p2"; question := "Tea or coffee?"; options := ["Tea"; "Coffee"];
     creator := "bob"; votes := () |}.

(** a [pollData] whose id is the one of [poll1] *)
Definition pollData1 : PollData :=
  {| id := "p1"; question := "Again?"; options := ["Yes"; "No"];
     creator := "bob"; votes := () |}.

End Examples.

(** * Properties *)

(** ** Strings *)

Lemma is_empty_true (s : string) : is_empty s = true ↔ s = "".
Proof. destruct s; simpl; split; congruence. Qed.

Lemma is_empty_false (s : string) : is_empty s = false ↔ s ≠ "".
Proof. destruct s; simpl; split; congruence. Qed.

Lemma trimStart_clean (s : string) : starts_clean (trimStart s).
Proof.
  induction s as [|c s IH]; simpl; [done|].
  destruct (is_js_space c) eqn:Hc; [done|]. simpl. exact Hc.
Qed.

Lemma trimStart_fixed (s : string) : starts_clean s → trimStart s = s.
Proof. destruct s as [|c s]; simpl; [done|]. by intros ->. Qed.

Lemma trimEnd_clean (s : string) : starts_clean s → starts_clean (trimEnd s).
Proof.
  destruct s as [|c s]; simpl; [done|]. intros Hc.
  rewrite Hc. by destruct (trimEnd s).
Qed.

Lemma trimEnd_idemp (s : string) : trimEnd (trimEnd s) = trimEnd s.
Proof.
  induction s as [|c s IH]; simpl; [done|].
  destruct (trimEnd s) as [|c' t] eqn:Ht.
  - destruct (is_js_space c) eqn:Hc; simpl; [done|]. by rewrite Hc.
  - change (trimEnd (String c (String c' t))) with
      (match trimEnd (String c' t) with
       | EmptyString =>
           if is_js_space c then EmptyString else String c EmptyString
       | t' => String c t'
       end).
    by rewrite IH.
Qed.

(** Trimming is idempotent: a stored, trimmed name is its own trim. *)
Lemma trim_idemp (s : string) : trim (trim s) = trim s.
Proof.
  unfold trim.
  rewrite (trimStart_fixed (trimEnd (trimStart s))).
  - apply trimEnd_idemp.
  - apply trimEnd_clean, trimStart_clean.
Qed.

(** ** [Set] *)

Lemma Set_add_length_le (acc l : list string) :
  (length (foldl Set_add acc l) ≤ length acc + length l)%nat.
Proof.
  revert acc. induction l as [|x l IH]; intros acc; simpl; [lia|].
  unfold Set_add at 2. case_bool_decide.
  - specialize (IH acc). lia.
  - specialize (IH (acc ++ [x])). rewrite length_app in IH. simpl in IH. lia.
Qed.

Lemma Set_add_length_NoDup (acc l : list string) :
  NoDup acc →
  length (foldl Set_add acc l) = (length acc + length l)%nat ↔ NoDup (acc ++ l).
Proof.
  revert acc. induction l as [|x l IH]; intros acc Hacc; simpl.
  - rewrite app_nil_r. split; [done|lia].
  - unfold Set_add at 2. case_bool_decide as Hx.
    + split.
      * pose proof (Set_add_length_le acc l). lia.
      * intros Hnd. apply NoDup_app in Hnd as (_ & Hdis & _).
        exfalso. apply (Hdis x Hx). by left.
    + assert (NoDup (acc ++ [x])) as Hacc'.
      { apply NoDup_app. split_and!; [done| |apply NoDup_singleton].
        intros y Hy Hy'. apply list_elem_of_singleton in Hy'. by subst. }
      specialize (IH (acc ++ [x]) Hacc').
      rewrite length_app in IH. simpl in IH.
      rewrite <- (assoc_L (++)) in IH. simpl in IH.
      rewrite <- IH. lia.
Qed.

(** [new Set(l).size === l.length] exactly when [l] has no repetition. *)
Lemma Set_size_NoDup (l : list string) : Set_size l = length l ↔ NoDup l.
Proof.
  unfold Set_size, Set_new.
  pose proof (Set_add_length_NoDup [] l (NoDup_nil_2)) as H.
  simpl in H. exact H.
Qed.

(** ** [Map] and the two forms of a vote ledger *)

Lemma Map_get_list_to_map (m : JsMap) (k : string) :
  Map_get m k = (list_to_map m : gmap string Z) !! k.
Proof.
  induction m as [|[k' v] m IH]; simpl; [by rewrite lookup_empty|].
  destruct (decide (k' = k)) as [->|Hne].
  - by rewrite lookup_insert_eq.
  - by rewrite lookup_insert_ne.
Qed.

Lemma Map_has_get (m : JsMap) (k : string) :
  Map_has m k = true ↔ is_Some (Map_get m k).
Proof.
  unfold Map_has. rewrite bool_decide_eq_true.
  induction m as [|[k' v] m IH]; simpl.
  - split; [by intros ?%elem_of_nil | by intros [? ?]].
  - rewrite elem_of_cons. destruct (decide (k' = k)) as [->|Hne].
    + split; [eauto | by left].
    + rewrite <- IH. split; [intros [?|?]; [congruence|done] | by right].
Qed.

Lemma Map_set_fresh (m : JsMap) (k : string) (v : Z) :
  k ∉ m.*1 → Map_set m k v = m ++ [(k, v)].
Proof.
  induction m as [|[k' v'] m IH]; simpl; [done|].
  rewrite not_elem_of_cons. intros [Hne Hk].
  destruct (decide (k' = k)); [congruence|]. by rewrite IH.
Qed.

Lemma Map_new_from (acc l : list (string * Z)) :
  NoDup (acc ++ l).*1 →
  foldl (λ m kv, Map_set m kv.1 kv.2) acc l = acc ++ l.
Proof.
  revert acc. induction l as [|[k v] l IH]; intros acc Hnd; simpl.
  - by rewrite app_nil_r.
  - rewrite Map_set_fresh.
    + rewrite IH; rewrite <- (assoc_L (++)); done.
    + rewrite fmap_app in Hnd. apply NoDup_app in Hnd as (_ & Hdis & _).
      intros Hk. apply (Hdis k Hk). simpl. by left.
Qed.

(** Entries with distinct keys become the [Map] with those entries. *)
Lemma Map_new_NoDup (l : list (string * Z)) : NoDup l.*1 → Map_new l = l.
Proof. intros Hnd. unfold Map_new. by rewrite Map_new_from. Qed.

Lemma Object_fromEntries_list_to_map (m : JsMap) :
  Object_fromEntries m = list_to_map (reverse m).
Proof.
  unfold Object_fromEntries.
  induction m as [|[k v] m IH] using rev_ind; [done|].
  rewrite foldl_snoc, reverse_snoc, IH. done.
Qed.

(** The mapping form of a stored record answers [get] as the record does. *)
Lemma Map_get_revive (r : gmap string Z) (k : string) :
  Map_get (Map_new (Object_entries r)) k = r !! k.
Proof.
  unfold Object_entries.
  rewrite Map_new_NoDup by apply NoDup_fst_map_to_list.
  by rewrite Map_get_list_to_map, list_to_map_to_list.
Qed.

Lemma Map_keys_revive (r : gmap string Z) :
  NoDup (Map_new (Object_entries r)).*1.
Proof.
  unfold Object_entries.
  rewrite Map_new_NoDup; apply NoDup_fst_map_to_list.
Qed.

(** Record to [Map] and back to a record is the identity. *)
Lemma Object_fromEntries_revive (r : gmap string Z) :
  Object_fromEntries (Map_new (Object_entries r)) = r.
Proof.
  unfold Object_entries.
  rewrite Map_new_NoDup by apply NoDup_fst_map_to_list.
  rewrite Object_fromEntries_list_to_map.
  rewrite <- (list_to_map_to_list r) at 2.
  apply list_to_map_proper.
  - rewrite fmap_reverse, reverse_Permutation. apply NoDup_fst_map_to_list.
  - apply reverse_Permutation.
Qed.

(** ** The [Poll] class *)

Lemma toLowerCase_empty (s : string) : is_empty (toLowerCase s) = is_empty s.
Proof. by destruct s. Qed.

Lemma normalize_empty (policy : Poll.Policy) (s : string) :
  is_empty (Poll.normalize policy s) = is_empty (trim s).
Proof. destruct policy; simpl; [done|apply toLowerCase_empty]. Qed.

Lemma normalizeAll_strings (policy : Poll.Policy) (opts : list JsValue) :
  forallb is_string opts = true →
  Poll.normalizeAll policy opts
  = Ok (Poll.normalize policy <$> strings opts).
Proof.
  induction opts as [|v opts IH]; simpl; [done|].
  intros [Hv Hopts]%andb_true_iff.
  destruct v; try discriminate. simpl in *.
  by rewrite (IH Hopts).
Qed.

Lemma forallb_is_string (opts : list JsValue) :
  forallb is_string opts = bool_decide (Forall (λ v, is_string v) opts).
Proof.
  induction opts as [|v opts IH]; cbn [forallb].
  - symmetry. by apply bool_decide_eq_true_2.
  - rewrite IH. destruct (is_string v) eqn:Hv; simpl.
    + apply bool_decide_ext. rewrite Forall_cons, Hv. simpl. tauto.
    + symmetry. apply bool_decide_eq_false_2.
      rewrite Forall_cons, Hv. simpl. tauto.
Qed.

Lemma existsb_empty_normalized (policy : Poll.Policy) (l : list string) :
  existsb is_empty (Poll.normalize policy <$> l)
  = negb (bool_decide (Forall (λ s, trim s ≠ "") l)).
Proof.
  induction l as [|s l IH]; cbn [existsb fmap list_fmap].
  - symmetry. apply negb_false_iff. by apply bool_decide_eq_true_2.
  - rewrite IH, normalize_empty. destruct (is_empty (trim s)) eqn:Hs; simpl.
    + symmetry. apply negb_true_iff, bool_decide_eq_false_2.
      apply is_empty_true in Hs. rewrite Forall_cons. tauto.
    + f_equal. apply bool_decide_ext.
      apply is_empty_false in Hs. rewrite Forall_cons. tauto.
Qed.

Lemma Set_size_test (l : list string) :
  negb (Set_size l =? length l)%nat = negb (bool_decide (NoDup l)).
Proof.
  f_equal. destruct (decide (NoDup l)) as [Hnd|Hnd].
  - rewrite (bool_decide_eq_true_2 _ Hnd).
    apply Nat.eqb_eq. by apply Set_size_NoDup.
  - rewrite (bool_decide_eq_false_2 _ Hnd).
    apply Nat.eqb_neq. by rewrite Set_size_NoDup.
Qed.

Lemma validateInputs_first_violated
    (policy : Poll.Policy) (question options : JsValue) :
  PollRules.string_or_absent question →
  Poll.validateInputs policy question options
  = match PollRules.first_violated policy question options with
    | Some r => Throw (PollRules.error_of r)
    | None => Ok ()
    end.
Proof.
  intros Hq. unfold PollRules.first_violated, PollRules.order, Poll.validateInputs.
  destruct question as [| | | |s| |]; try done; simpl.
  destruct (is_empty (trim s)) eqn:Hs; simpl.
  { apply is_empty_true in Hs. rewrite bool_decide_eq_false_2; [done|]. tauto. }
  apply is_empty_false in Hs. rewrite (bool_decide_eq_true_2 _ Hs). simpl.
  destruct options as [| | | | |opts|]; try done.
  destruct (length opts <? 2)%nat eqn:Hlen.
  { apply Nat.ltb_lt in Hlen. rewrite bool_decide_eq_false_2 by lia. done. }
  apply Nat.ltb_ge in Hlen. rewrite (bool_decide_eq_true_2 _ Hlen). simpl.
  rewrite forallb_is_string.
  destruct (bool_decide (Forall (λ v, is_string v) opts)) eqn:Hstr; [|done].
  simpl. rewrite <- forallb_is_string in Hstr.
  rewrite (normalizeAll_strings _ _ Hstr). simpl.
  rewrite Set_size_test.
  destruct (bool_decide (NoDup _)); [|done]. simpl.
  rewrite existsb_empty_normalized.
  by destruct (bool_decide (Forall _ _)).
Qed.

(** ** Property access *)

Lemma Object_get_Some {A : Type} (o : gmap string A) (k : string) (a : A) :
  o !! k = Some a → Object_get o k = Own a.
Proof. intros H. unfold Object_get. by rewrite H. Qed.

Lemma Object_get_Own {A : Type} (o : gmap string A) (k : string) (a : A) :
  Object_get o k = Own a ↔ o !! k = Some a.
Proof.
  unfold Object_get. destruct (o !! k) as [b|].
  - split; congruence.
  - case_bool_decide; split; discriminate.
Qed.

Lemma Object_get_Absent {A : Type} (o : gmap string A) (k : string) :
  Object_get o k = Absent ↔ o !! k = None ∧ k ∉ inherited_names.
Proof.
  unfold Object_get. destruct (o !! k) as [b|].
  - split; [discriminate|by intros [? _]].
  - case_bool_decide; split; try done. by intros [_ ?].
Qed.

Lemma Object_get_Inherited {A : Type} (o : gmap string A) (k name : string) :
  Object_get o k = Inherited name
  ↔ o !! k = None ∧ k ∈ inherited_names ∧ name = k.
Proof.
  unfold Object_get. destruct (o !! k) as [b|].
  - split; [discriminate|by intros [? _]].
  - case_bool_decide; split; try done.
    + by intros [= <-].
    + by intros (_ & _ & ->).
    + by intros (_ & ? & _).
Qed.

(** A key that the object has of its own, or inherits, resolves. *)
Lemma Object_get_resolves {A : Type} (o : gmap string A) (k : string) :
  Object_get o k ≠ Absent ↔ is_Some (o !! k) ∨ k ∈ inherited_names.
Proof.
  unfold Object_get. destruct (o !! k) as [a|].
  - split; [by left|done].
  - case_bool_decide as Hk; split; try done.
    + by right.
    + by intros [[? [=]]|?].
Qed.

Lemma Object_get_is_Some {A : Type} (o : gmap string A) (k : string) :
  is_Some (o !! k) → Object_get o k ≠ Absent.
Proof. intros H. apply Object_get_resolves. by left. Qed.

Lemma Object_get_cases {A : Type} (o : gmap string A) (k : string) :
  Object_get o k = Absent ∨ Object_get o k ≠ Absent.
Proof. destruct (Object_get o k); [by right..|by left]. Qed.

Lemma Object_get_fmap {A B : Type} (f : A → B) (o : gmap string A)
    (k : string) :
  Object_get (f <$> o) k = f <$> Object_get o k.
Proof.
  unfold Object_get. rewrite lookup_fmap.
  destruct (o !! k); simpl; [done|]. by case_bool_decide.
Qed.

Lemma Object_get_insert_eq {A : Type} (o : gmap string A) (k : string)
    (a : A) :
  Object_get (<[k := a]> o) k = Own a.
Proof. apply Object_get_Some, lookup_insert_eq. Qed.

Lemma Object_get_insert_ne {A : Type} (o : gmap string A) (k k' : string)
    (a : A) :
  k ≠ k' → Object_get (<[k := a]> o) k' = Object_get o k'.
Proof. intros H. unfold Object_get. by rewrite lookup_insert_ne. Qed.

(** Once an own property is deleted, the key resolves as it does on an
    object without properties: to an inherited member, or to nothing. *)
Lemma Object_get_delete_eq {A : Type} (o : gmap string A) (k : string) :
  Object_get (delete k o) k = Object_get (∅ : gmap string A) k.
Proof. unfold Object_get. by rewrite lookup_delete_eq, lookup_empty. Qed.

Lemma Object_get_delete_ne {A : Type} (o : gmap string A) (k k' : string) :
  k ≠ k' → Object_get (delete k o) k' = Object_get o k'.
Proof. intros H. unfold Object_get. by rewrite lookup_delete_ne. Qed.

(** ** Running computations *)

Lemma M_bind_Ok {A B : Type} (c : M A) (f : A → M B) (m m' : Medium) (a : A) :
  c m = (Ok a, m') → (c ≫= f) m = f a m'.
Proof. intros H. unfold mbind, M_bind. by rewrite H. Qed.

Lemma M_bind_Throw {A B : Type} (c : M A) (f : A → M B) (m m' : Medium)
    (e : Error) :
  c m = (Throw e, m') → (c ≫= f) m = (Throw e, m').
Proof. intros H. unfold mbind, M_bind. by rewrite H. Qed.

(** Runs the write that ends a read-modify-write cycle. *)
Ltac run_write :=
  unfold mbind, M_bind, memoryStorage.writeData, memoryStorage.serialize;
  simpl.

(** ** The store *)

(** Parsing a stored poll and serialising it again gives it back. *)
Lemma serializeVotes_reviveVotes (p : StoredPoll) :
  memoryStorage.serializeVotes (memoryStorage.reviveVotes p) = p.
Proof.
  unfold memoryStorage.serializeVotes, memoryStorage.reviveVotes, with_votes.
  simpl. rewrite Object_fromEntries_revive. by destruct p.
Qed.

Lemma serialize_revive_polls (ps : gmap string StoredPoll) :
  memoryStorage.serializeVotes <$> (memoryStorage.reviveVotes <$> ps) = ps.
Proof.
  rewrite <- map_fmap_compose. apply map_eq. intros k.
  rewrite lookup_fmap. destruct (ps !! k) as [p|]; simpl; [|done].
  by rewrite serializeVotes_reviveVotes.
Qed.

(** A read followed by a write of what was read leaves the file as it is. *)
Lemma serialize_revive (d : StoredDocument) :
  memoryStorage.serialize (memoryStorage.revive d) = d.
Proof.
  unfold memoryStorage.serialize, memoryStorage.revive. simpl.
  rewrite serialize_revive_polls. by destruct d.
Qed.

(** The operations of the store on a file whose read does not fail,
    in terms of the document that the file holds. *)
Section Readable.

Context (m : Medium) (Hm : m ≠ Unreadable).

Lemma readData_readable :
  memoryStorage.readData m = (Ok (memoryStorage.revive (contents m)), m).
Proof using Hm.
  destruct m; simpl; try done.
  all: unfold memoryStorage.revive, memoryStorage.emptyDocument;
    simpl; by rewrite fmap_empty.
Qed.

Lemma findUserByUsername_readable (username : string) :
  memoryStorage.findUserByUsername username m
  = (Ok (Object_get (users (contents m)) username), m).
Proof using Hm.
  unfold memoryStorage.findUserByUsername.
  by rewrite (M_bind_Ok _ _ _ _ _ readData_readable).
Qed.

Lemma findPollById_readable (pollId : string) :
  memoryStorage.findPollById pollId m
  = (Ok (memoryStorage.reviveVotes <$> Object_get (polls (contents m)) pollId),
     m).
Proof using Hm.
  unfold memoryStorage.findPollById.
  rewrite (M_bind_Ok _ _ _ _ _ readData_readable).
  unfold mret, M_ret. simpl. by rewrite Object_get_fmap.
Qed.

Lemma createUser_readable (username : string) :
  memoryStorage.createUser username m
  = match Object_get (users (contents m)) username with
    | Absent =>
        (Ok {| username := username |},
         Stored {| users := <[username := {| username := username |}]>
                              (users (contents m));
                   polls := polls (contents m) |})
    | _ => (Throw (PlainError (UserExists username)), m)
    end.
Proof using Hm.
  unfold memoryStorage.createUser.
  rewrite (M_bind_Ok _ _ _ _ _ readData_readable). simpl.
  destruct (Object_get (users (contents m)) username); [done|done|].
  run_write. by rewrite serialize_revive_polls.
Qed.

Lemma createPoll_readable (pollData : PollData) :
  memoryStorage.createPoll pollData m
  = (Ok (with_votes pollData []),
     Stored {| users := users (contents m);
               polls := <[id pollData := with_votes pollData ∅]>
                          (polls (contents m)) |}).
Proof using Hm.
  unfold memoryStorage.createPoll.
  rewrite (M_bind_Ok _ _ _ _ _ readData_readable).
  run_write. by rewrite fmap_insert, serialize_revive_polls.
Qed.

Lemma updatePoll_readable (pollId : string)
    (patch : memoryStorage.PollPatch) :
  memoryStorage.updatePoll pollId patch m
  = match polls (contents m) !! pollId with
    | None => (Throw (PlainError (PollNotFoundForUpdate pollId)), m)
    | Some p =>
        let updated :=
          memoryStorage.mergePoll (memoryStorage.reviveVotes p) patch in
        (Ok updated,
         Stored {| users := users (contents m);
                   polls := <[pollId := memoryStorage.serializeVotes updated]>
                              (polls (contents m)) |})
    end.
Proof using Hm.
  unfold memoryStorage.updatePoll.
  rewrite (M_bind_Ok _ _ _ _ _ readData_readable). simpl.
  rewrite lookup_fmap.
  destruct (polls (contents m) !! pollId) as [p|]; simpl; [|done].
  run_write. by rewrite fmap_insert, serialize_revive_polls.
Qed.

Lemma deletePoll_readable (pollId : string) :
  memoryStorage.deletePoll pollId m
  = match Object_get (polls (contents m)) pollId with
    | Absent => (Ok false, m)
    | _ =>
        (Ok true,
         Stored {| users := users (contents m);
                   polls := delete pollId (polls (contents m)) |})
    end.
Proof using Hm.
  unfold memoryStorage.deletePoll.
  rewrite (M_bind_Ok _ _ _ _ _ readData_readable). simpl.
  rewrite Object_get_fmap.
  destruct (Object_get (polls (contents m)) pollId) as [p|name|]; simpl;
    [| |done];
    run_write; by rewrite fmap_delete, serialize_revive_polls.
Qed.

Lemma findUser_readable (username : string) :
  userService.findUser username m
  = (Ok (Object_get (users (contents m)) username), m).
Proof using Hm. apply findUserByUsername_readable. Qed.

End Readable.

(** ** The Durable Store *)

(** C5.  When [storage.json] is missing or does not parse, [readData]
    returns the empty document and does not fail.  When it parses to a
    document, [readData] returns that document: the same users, the same
    polls under the same ids with the same id, question, options and
    creator, and each vote ledger turned from its flat record into a
    [Map] with one entry per key of the record, answering [get] and
    [has] as the record does. *)
Theorem readData_bootstrap_and_revive :
  memoryStorage.readData Missing = (Ok memoryStorage.emptyDocument, Missing)
  ∧ memoryStorage.readData Unparsable
    = (Ok memoryStorage.emptyDocument, Unparsable)
  ∧ ∀ d : StoredDocument, ∃ doc : Document,
      memoryStorage.readData (Stored d) = (Ok doc, Stored d)
      ∧ users doc = users d
      ∧ ∀ pollId : string,
          match polls d !! pollId with
          | None => polls doc !! pollId = None
          | Some p => ∃ p' : Poll,
              polls doc !! pollId = Some p'
              ∧ id p' = id p ∧ question p' = question p
              ∧ options p' = options p ∧ creator p' = creator p
              ∧ NoDup (votes p').*1
              ∧ Object_fromEntries (votes p') = votes p
              ∧ ∀ k : string,
                  Map_get (votes p') k = votes p !! k
                  ∧ Map_has (votes p') k = bool_decide (is_Some (votes p !! k))
          end.
Proof.
  split_and!; [done..|].
  intros d. eexists. split; [reflexivity|]. split; [done|].
  intros pollId. simpl. rewrite lookup_fmap.
  destruct (polls d !! pollId) as [p|]; simpl; [|done].
  eexists. split; [reflexivity|]. simpl.
  split_and!; try done.
  - apply Map_keys_revive.
  - apply Object_fromEntries_revive.
  - intros k. split; [apply Map_get_revive|].
    apply bool_decide_ext. fold (Map_has (Map_new (Object_entries (votes p))) k).
    unfold Map_has. rewrite <- Map_get_revive.
    pose proof (Map_has_get (Map_new (Object_entries (votes p))) k) as H.
    unfold Map_has in H. by rewrite bool_decide_eq_true in H.
Qed.

(** Creating a poll in the store under an id other than [__proto__]
    writes the file; reading the file back yields, under the id of the
    poll data, a poll with an empty vote ledger whose id, question,
    options and creator are those of the poll that was created. *)
Theorem createPoll_reload_roundtrip (m : Medium) (pollData : PollData) :
  m ≠ Unreadable →
  id pollData ≠ "__proto__" →
  ∃ (poll : Poll) (m' : Medium),
    memoryStorage.createPoll pollData m = (Ok poll, m')
    ∧ id poll = id pollData ∧ question poll = question pollData
    ∧ options poll = options pollData ∧ creator poll = creator pollData
    ∧ ∃ (doc : Document) (reloaded : Poll),
        memoryStorage.readData m' = (Ok doc, m')
        ∧ polls doc !! id pollData = Some reloaded
        ∧ votes reloaded = []
        ∧ id reloaded = id poll ∧ question reloaded = question poll
        ∧ options reloaded = options poll ∧ creator reloaded = creator poll.
Proof.
  intros Hm _. rewrite (createPoll_readable m Hm pollData).
  eexists _, _. split; [reflexivity|]. split_and!; try done.
  eexists _, _. split; [reflexivity|]. simpl.
  rewrite lookup_fmap, lookup_insert_eq. simpl.
  split; [reflexivity|]. simpl. by split_and!.
Qed.

Lemma createPoll_reload_roundtrip_witness :
  Missing ≠ Unreadable
  ∧ id Examples.pollData2 ≠ "__proto__"
  ∧ ∃ (poll : Poll) (m' : Medium),
      memoryStorage.createPoll Examples.pollData2 Missing = (Ok poll, m')
      ∧ id poll = "p2" ∧ question poll = "Tea or coffee?"
      ∧ options poll = ["Tea"; "Coffee"] ∧ creator poll = "bob"
      ∧ ∃ (doc : Document) (reloaded : Poll),
          memoryStorage.readData m' = (Ok doc, m')
          ∧ polls doc !! "p2" = Some reloaded
          ∧ votes reloaded = []
          ∧ id reloaded = id poll ∧ question reloaded = question poll
          ∧ options reloaded = options poll ∧ creator reloaded = creator poll.
Proof.
  split; [discriminate|]. split; [discriminate|].
  apply (createPoll_reload_roundtrip Missing Examples.pollData2);
    discriminate.
Defined.

(** [updatePoll] fails when the id resolves to nothing.  On an id that
    keys a stored poll it returns a poll in which every field named in
    the patch has the patch's value and every other field its prior
    value, and whose vote ledger is the one supplied by the patch when
    that is a [Map], and the poll's own ledger in every other case.
    (Nothing is said of an id that keys no poll and names an inherited
    property.) *)
Theorem updatePoll_merges_patch
    (d : StoredDocument) (pollId : string) (patch : memoryStorage.PollPatch) :
  match Object_get (polls d) pollId with
  | Inherited _ => True
  | Absent =>
      memoryStorage.updatePoll pollId patch (Stored d)
      = (Throw (PlainError (PollNotFoundForUpdate pollId)), Stored d)
  | Own p =>
      ∃ (updated : Poll) (m' : Medium),
        memoryStorage.updatePoll pollId patch (Stored d) = (Ok updated, m')
        ∧ id updated
          = match memoryStorage.patch_id patch with
            | Some x => x | None => id p end
        ∧ question updated
          = match memoryStorage.patch_question patch with
            | Some x => x | None => question p end
        ∧ options updated
          = match memoryStorage.patch_options patch with
            | Some x => x | None => options p end
        ∧ creator updated
          = match memoryStorage.patch_creator patch with
            | Some x => x | None => creator p end
        ∧ match memoryStorage.patch_votes patch with
          | Some (memoryStorage.VotesMap ledger) => votes updated = ledger
          | _ =>
              votes updated = votes (memoryStorage.reviveVotes p)
              ∧ Object_fromEntries (votes updated) = votes p
              ∧ ∀ k : string, Map_get (votes updated) k = votes p !! k
          end
  end.
Proof.
  rewrite updatePoll_readable by done. unfold Object_get. simpl.
  destruct (polls d !! pollId) as [p|]; [|by case_bool_decide].
  eexists _, _. split; [reflexivity|]. destruct patch as [pi pq po pc pv].
  simpl. split_and!.
  - by destruct pi.
  - by destruct pq.
  - by destruct po.
  - by destruct pc.
  - destruct pv as [[ledger|r]|]; [done|..];
      (split_and!; [done|apply Object_fromEntries_revive|
                    intros k; apply Map_get_revive]).
Qed.

(** C10.  The store's [createPoll] does not fail on an id that already
    keys the polls collection: it returns the new poll with an empty vote
    ledger, and afterwards the id resolves to that poll, the one stored
    before being gone, while the users and the other polls are as they
    were.  The store's [createUser], on a username that already exists,
    fails and leaves the file untouched. *)
Theorem store_createPoll_replaces_createUser_refuses
    (d : StoredDocument) (pollData : PollData) (old : StoredPoll)
    (u : string) (usr : User) :
  polls d !! id pollData = Some old →
  users d !! u = Some usr →
  (∃ m' : Medium,
     memoryStorage.createPoll pollData (Stored d)
     = (Ok (with_votes pollData []), m')
     ∧ memoryStorage.findPollById (id pollData) m'
       = (Ok (Own (with_votes pollData [])), m')
     ∧ users (contents m') = users d
     ∧ ∀ other : string,
         other ≠ id pollData →
         polls (contents m') !! other = polls d !! other)
  ∧ memoryStorage.createUser u (Stored d)
    = (Throw (PlainError (UserExists u)), Stored d).
Proof.
  intros Hold Hu. split.
  - rewrite createPoll_readable by done. eexists. split; [reflexivity|].
    rewrite findPollById_readable by done. simpl.
    rewrite Object_get_insert_eq. simpl. split_and!.
    + unfold memoryStorage.reviveVotes, Object_entries. simpl.
      by rewrite map_to_list_empty.
    + done.
    + intros other Hne. by rewrite lookup_insert_ne.
  - rewrite createUser_readable by done. simpl.
    by rewrite (Object_get_Some _ _ _ Hu).
Qed.

Lemma store_createPoll_replaces_createUser_refuses_witness :
  polls Examples.doc !! id Examples.pollData1 = Some Examples.poll1
  ∧ users Examples.doc !! "bob" = Some Examples.bob
  ∧ (∃ m' : Medium,
       memoryStorage.createPoll Examples.pollData1 (Stored Examples.doc)
       = (Ok (with_votes Examples.pollData1 []), m')
       ∧ memoryStorage.findPollById "p1" m'
         = (Ok (Own (with_votes Examples.pollData1 [])), m'))
  ∧ memoryStorage.createUser "bob" (Stored Examples.doc)
    = (Throw (PlainError (UserExists "bob")), Stored Examples.doc).
Proof.
  assert (polls Examples.doc !! id Examples.pollData1 = Some Examples.poll1)
    as H1 by reflexivity.
  assert (users Examples.doc !! "bob" = Some Examples.bob)
    as H2 by reflexivity.
  split; [exact H1|]. split; [exact H2|].
  destruct (store_createPoll_replaces_createUser_refuses
              Examples.doc Examples.pollData1 Examples.poll1 "bob"
              Examples.bob H1 H2) as [(m' & Hc & Hf & _) Hu].
  split; [|exact Hu]. exists m'. split; [exact Hc|exact Hf].
Defined.

(** ** The Identity Registry *)

Lemma createUser_string (m : Medium) (s : string) :
  m ≠ Unreadable →
  userService.createUser (JStr s) m
  = if decide (trim s = "")
    then (Throw (BusinessLogicError UsernameEmpty), m)
    else match Object_get (users (contents m)) (trim s) with
         | Absent =>
             (Ok {| username := trim s |},
              Stored {| users := <[trim s := {| username := trim s |}]>
                                   (users (contents m));
                        polls := polls (contents m) |})
         | _ => (Throw (BusinessLogicError (UsernameTaken (trim s))), m)
         end.
Proof.
  intros Hm. unfold userService.createUser.
  destruct (decide (trim s = "")) as [He|He].
  - rewrite He. simpl. by rewrite orb_true_r.
  - assert (s ≠ "") as Hs by (intros ->; by apply He).
    apply is_empty_false in He, Hs. simpl. rewrite He, Hs. simpl.
    rewrite (M_bind_Ok _ _ _ _ _ (findUserByUsername_readable m Hm (trim s))).
    destruct (Object_get (users (contents m)) (trim s)) as [usr|name|] eqn:Hu;
      [done|done|].
    rewrite createUser_readable by done. by rewrite Hu.
Qed.

(** Every name that registration stores is trimmed and not empty, and
    is found afterwards. *)
Lemma createUser_stores_trimmed
    (m m' : Medium) (name : JsValue) (user : User) :
  userService.createUser name m = (Ok user, m') →
  trim (username user) = username user
  ∧ username user ≠ ""
  ∧ users (contents m') !! username user = Some user.
Proof.
  assert (m = Unreadable ∨ m ≠ Unreadable) as [->|Hm]
    by (destruct m; auto; right; discriminate).
  { destruct name as [| | | |s| |]; try discriminate.
    unfold userService.createUser.
    destruct (negb (truthy (JStr s)) || is_empty (trim s)); discriminate. }
  destruct name as [| | | |s| |]; try discriminate.
  rewrite createUser_string by done.
  destruct (decide (trim s = "")) as [He|He]; [discriminate|].
  destruct (Object_get (users (contents m)) (trim s));
    [discriminate|discriminate|].
  intros [= <- <-]. simpl. split_and!.
  - apply trim_idemp.
  - done.
  - by rewrite lookup_insert_eq.
Qed.

(** [createUser] of the user service fails with the validation error
    when the username is not a string, is empty or is white space only;
    fails with the conflict error when the trimmed name resolves in the
    users of the store, to a user or to an inherited member; and
    otherwise stores the user under the trimmed name, leaving the other
    users and the polls as they were.  [findUser] looks the name up as
    given: a name that is no key of the store and no inherited name is
    not found, even when its trimmed form is registered. *)
Theorem register_trims_lookup_is_exact
    (m : Medium) (name : JsValue) (query : string) :
  m ≠ Unreadable →
  match name with
  | JStr s =>
      if decide (trim s = "")
      then userService.createUser name m
           = (Throw (BusinessLogicError UsernameEmpty), m)
      else
        match Object_get (users (contents m)) (trim s) with
        | Absent =>
            ∃ m' : Medium,
              userService.createUser name m
              = (Ok {| username := trim s |}, m')
              ∧ users (contents m')
                = <[trim s := {| username := trim s |}]> (users (contents m))
              ∧ polls (contents m') = polls (contents m)
        | _ =>
            userService.createUser name m
            = (Throw (BusinessLogicError (UsernameTaken (trim s))), m)
        end
  | _ =>
      userService.createUser name m
      = (Throw (BusinessLogicError UsernameEmpty), m)
  end
  ∧ userService.findUser query m
    = (Ok (Object_get (users (contents m)) query), m)
  ∧ (users (contents m) !! query = None → query ∉ inherited_names →
     userService.findUser query m = (Ok Absent, m)).
Proof.
  intros Hm. split_and!.
  - destruct name as [| | | |s| |]; try done.
    rewrite createUser_string by done.
    destruct (decide (trim s = "")); [done|].
    destruct (Object_get (users (contents m)) (trim s)); [done|done|].
    by eexists.
  - by apply findUser_readable.
  - intros Hq Hn. rewrite findUser_readable by done.
    by rewrite (proj2 (Object_get_Absent _ _) (conj Hq Hn)).
Qed.

Lemma register_trims_lookup_is_exact_witness :
  Stored Examples.doc ≠ Unreadable
  ∧ (∃ m' : Medium,
       userService.createUser (JStr "  carol ") (Stored Examples.doc)
       = (Ok {| username := "carol" |}, m')
       ∧ users (contents m')
         = <["carol" := {| username := "carol" |}]> (users Examples.doc)
       ∧ polls (contents m') = polls Examples.doc)
  ∧ userService.findUser " bob" (Stored Examples.doc)
    = (Ok Absent, Stored Examples.doc).
Proof.
  assert (Stored Examples.doc ≠ Unreadable) as Hm by discriminate.
  split; [exact Hm|].
  pose proof (register_trims_lookup_is_exact
                (Stored Examples.doc) (JStr "  carol ") " bob" Hm)
    as (Hc & _ & Hf).
  split; [exact Hc|]. apply Hf; [reflexivity|].
  unfold inherited_names. rewrite !not_elem_of_cons.
  split_and!; try discriminate. apply not_elem_of_nil.
Defined.

(** C9.  The claim fails on a name that every object inherits: nobody
    is registered in a new store, yet the registration of "constructor"
    is refused as already taken, because the lookup of the name in the
    users object finds the inherited member of that name.  [findUser]
    returns that member, not "absent". *)
Theorem registering_constructor_is_refused :
  users (contents Missing) !! "constructor" = None
  ∧ userService.findUser "constructor" Missing
    = (Ok (Inherited "constructor"), Missing)
  ∧ userService.createUser (JStr "constructor") Missing
    = (Throw (BusinessLogicError (UsernameTaken "constructor")), Missing)
  ∧ memoryStorage.createUser "constructor" Missing
    = (Throw (PlainError (UserExists "constructor")), Missing).
Proof. by split_and!. Qed.

(** ** The Poll Service : voting *)

Lemma valid_index_invalidIndex (optionIndex : JsValue) (len : nat) :
  pollService.invalidIndex optionIndex len = false
  ↔ valid_index optionIndex len.
Proof.
  destruct optionIndex as [| | |[i| | |]| | |]; simpl;
    try (split; [discriminate|tauto]).
  rewrite orb_false_iff, Z.ltb_ge, Z.leb_gt. tauto.
Qed.

Lemma getPollById_stored
    (d : StoredDocument) (pollId : string) (p : StoredPoll) :
  polls d !! pollId = Some p →
  pollService.getPollById pollId (Stored d)
  = (Ok (Own (memoryStorage.reviveVotes p)), Stored d).
Proof.
  intros Hp. unfold pollService.getPollById.
  rewrite findPollById_readable by done. simpl.
  by rewrite (Object_get_Some _ _ _ Hp).
Qed.

(** What [vote] does up to the test of the option index: the poll and the
    user are found. *)
Lemma vote_reaches_index_test
    (d : StoredDocument) (pollId u : string) (p : StoredPoll)
    (optionIndex : JsValue) :
  pollId ≠ "" → u ≠ "" → optionIndex ≠ JUndefined →
  polls d !! pollId = Some p →
  Object_get (users d) (trim u) ≠ Absent →
  pollService.vote pollId optionIndex u (Stored d)
  = match optionIndex with
    | JNum (Int i) =>
        if pollService.invalidIndex optionIndex (length (options p))
        then (Throw (BusinessLogicError
                       (InvalidOptionIndex optionIndex pollId)), Stored d)
        else if Map_has (Map_new (Object_entries (votes p))) (trim u)
        then (Throw (BusinessLogicError (AlreadyVoted (trim u) pollId)),
              Stored d)
        else memoryStorage.updatePoll pollId
               (memoryStorage.votesPatch
                  (Map_set (Map_new (Object_entries (votes p))) (trim u) i))
               (Stored d)
    | _ => (Throw (BusinessLogicError
                     (InvalidOptionIndex optionIndex pollId)), Stored d)
    end.
Proof.
  intros Hid Hu Hundef Hp Husr. unfold pollService.vote.
  apply is_empty_false in Hid, Hu. rewrite Hid, Hu.
  replace (match optionIndex with JUndefined => true | _ => false end)
    with false by (by destruct optionIndex).
  simpl.
  rewrite (M_bind_Ok _ _ _ _ _
             (findPollById_readable (Stored d) ltac:(done) pollId)).
  simpl. rewrite (Object_get_Some _ _ _ Hp). simpl.
  rewrite (M_bind_Ok _ _ _ _ _
             (findUser_readable (Stored d) ltac:(done) (trim u))).
  simpl.
  destruct (Object_get (users d) (trim u)) as [usr|name|]; [| |done];
    (destruct optionIndex as [| | |[i| | |]| | |]; try done;
     simpl; by repeat case_match).
Qed.

(** C1, as amended.  Let a username be registered (hence trimmed and not
    empty) and key the vote ledger of a stored poll.  A further call of
    [vote] by that username fails whatever the option index and leaves
    the file untouched, so that the poll read back still maps the
    username to the index of the first vote.  The error is the
    already-voted error when the option index is valid for the poll; for
    an invalid index it is the invalid-option-index error (the
    required-arguments error when the index is undefined). *)
Theorem second_vote_rejected
    (d : StoredDocument) (pollId u : string) (p : StoredPoll) (first : Z)
    (optionIndex : JsValue) :
  pollId ≠ "" → u ≠ "" → trim u = u →
  polls d !! pollId = Some p →
  is_Some (users d !! u) →
  votes p !! u = Some first →
  ∃ msg : Message,
    pollService.vote pollId optionIndex u (Stored d)
    = (Throw (BusinessLogicError msg), Stored d)
    ∧ (valid_index optionIndex (length (options p)) →
       msg = AlreadyVoted u pollId)
    ∧ (¬ valid_index optionIndex (length (options p)) →
       msg = match optionIndex with
             | JUndefined => RequiredForVote
             | _ => InvalidOptionIndex optionIndex pollId
             end)
    ∧ ∃ poll : Poll,
        pollService.getPollById pollId (Stored d) = (Ok (Own poll), Stored d)
        ∧ Map_get (votes poll) u = Some first.
Proof.
  intros Hid Hu Htrim Hp Husr Hfirst.
  assert (∃ poll : Poll,
             pollService.getPollById pollId (Stored d)
             = (Ok (Own poll), Stored d)
             ∧ Map_get (votes poll) u = Some first) as Hafter.
  { eexists. split; [by apply getPollById_stored|].
    simpl. by rewrite Map_get_revive. }
  assert (optionIndex = JUndefined ∨ optionIndex ≠ JUndefined)
    as [->|Hundef] by (destruct optionIndex; auto; right; discriminate).
  { exists RequiredForVote. split_and!; [|done|done|done].
    unfold pollService.vote. by rewrite orb_true_r. }
  rewrite (vote_reaches_index_test d pollId u p optionIndex)
    by (rewrite ?Htrim; try done; by apply Object_get_is_Some).
  rewrite Htrim.
  assert (Map_has (Map_new (Object_entries (votes p))) u = true) as Hhas.
  { apply Map_has_get. rewrite Map_get_revive, Hfirst. by eexists. }
  destruct (pollService.invalidIndex optionIndex (length (options p)))
    eqn:Hinv.
  - exists (InvalidOptionIndex optionIndex pollId). split_and!.
    + by destruct optionIndex as [| | |[i| | |]| | |].
    + intros Hv%valid_index_invalidIndex. congruence.
    + intros _. by destruct optionIndex.
    + done.
  - exists (AlreadyVoted u pollId).
    pose proof (proj1 (valid_index_invalidIndex _ _) Hinv) as Hvalid.
    split_and!; [|done|done|done].
    destruct optionIndex as [| | |[i| | |]| | |]; try done.
    by rewrite Hhas.
Qed.

Lemma second_vote_rejected_witness :
  "p1" ≠ "" ∧ "bob" ≠ "" ∧ trim "bob" = "bob"
  ∧ polls Examples.doc !! "p1" = Some Examples.poll1
  ∧ is_Some (users Examples.doc !! "bob")
  ∧ votes Examples.poll1 !! "bob" = Some 1
  ∧ ∃ msg : Message,
      pollService.vote "p1" (JNum (Int 0)) "bob" (Stored Examples.doc)
      = (Throw (BusinessLogicError msg), Stored Examples.doc)
      ∧ (valid_index (JNum (Int 0)) 2 → msg = AlreadyVoted "bob" "p1").
Proof.
  assert ("p1" ≠ "") as H1 by discriminate.
  assert ("bob" ≠ "") as H2 by discriminate.
  assert (trim "bob" = "bob") as H3 by reflexivity.
  assert (polls Examples.doc !! "p1" = Some Examples.poll1) as H4
    by reflexivity.
  assert (is_Some (users Examples.doc !! "bob")) as H5
    by (exists Examples.bob; reflexivity).
  assert (votes Examples.poll1 !! "bob" = Some 1) as H6 by reflexivity.
  split_and!; try assumption.
  destruct (second_vote_rejected Examples.doc "p1" "bob" Examples.poll1 1
              (JNum (Int 0)) H1 H2 H3 H4 H5 H6) as (msg & Hv & Hmsg & _).
  exists msg. split; [exact Hv|exact Hmsg].
Defined.

(** The claim C1 as stated fails: bob has voted in [poll1], and his
    second call with the out-of-range index 99 is answered with the
    invalid-option-index error, not the already-voted error. *)
Lemma second_vote_out_of_range_is_not_already_voted :
  polls Examples.doc !! "p1" = Some Examples.poll1
  ∧ users Examples.doc !! "bob" = Some Examples.bob
  ∧ votes Examples.poll1 !! "bob" = Some 1
  ∧ pollService.vote "p1" (JNum (Int 99)) "bob" (Stored Examples.doc)
    = (Throw (BusinessLogicError (InvalidOptionIndex (JNum (Int 99)) "p1")),
       Stored Examples.doc)
  ∧ InvalidOptionIndex (JNum (Int 99)) "p1" ≠ AlreadyVoted "bob" "p1".
Proof. split_and!; [reflexivity..|discriminate]. Qed.

(** C2, as amended.  Let a username be registered (hence trimmed and not
    empty) and absent from the vote ledger of a stored poll.  A call of
    [vote] with an option index that is supplied (not undefined) and is
    not an integer of [[0, options.length)] fails with the
    invalid-option-index error; with an undefined index it fails with
    the required-arguments error.  In both cases the file is untouched
    and the poll read back has the ledger it had. *)
Theorem invalid_index_rejected
    (d : StoredDocument) (pollId u : string) (p : StoredPoll)
    (optionIndex : JsValue) :
  pollId ≠ "" → u ≠ "" → trim u = u →
  polls d !! pollId = Some p →
  is_Some (users d !! u) →
  votes p !! u = None →
  ¬ valid_index optionIndex (length (options p)) →
  pollService.vote pollId optionIndex u (Stored d)
  = (Throw (BusinessLogicError
              match optionIndex with
              | JUndefined => RequiredForVote
              | _ => InvalidOptionIndex optionIndex pollId
              end),
     Stored d)
  ∧ ∃ poll : Poll,
      pollService.getPollById pollId (Stored d) = (Ok (Own poll), Stored d)
      ∧ Object_fromEntries (votes poll) = votes p
      ∧ ∀ k : string, Map_get (votes poll) k = votes p !! k.
Proof.
  intros Hid Hu Htrim Hp Husr Hnone Hinvalid. split.
  - assert (optionIndex = JUndefined ∨ optionIndex ≠ JUndefined)
      as [->|Hundef] by (destruct optionIndex; auto; right; discriminate).
    { unfold pollService.vote. by rewrite orb_true_r. }
    rewrite (vote_reaches_index_test d pollId u p optionIndex)
      by (rewrite ?Htrim; try done; by apply Object_get_is_Some).
    destruct (pollService.invalidIndex optionIndex (length (options p)))
      eqn:Hinv.
    + by destruct optionIndex as [| | |[i| | |]| | |].
    + by apply valid_index_invalidIndex in Hinv.
  - eexists. split; [by apply getPollById_stored|]. simpl.
    split; [apply Object_fromEntries_revive|]. intros k. apply Map_get_revive.
Qed.

Lemma invalid_index_rejected_witness :
  "p1" ≠ "" ∧ "alice" ≠ "" ∧ trim "alice" = "alice"
  ∧ polls Examples.doc !! "p1" = Some Examples.poll1
  ∧ is_Some (users Examples.doc !! "alice")
  ∧ votes Examples.poll1 !! "alice" = None
  ∧ ¬ valid_index (JNum Frac) 2
  ∧ pollService.vote "p1" (JNum Frac) "alice" (Stored Examples.doc)
    = (Throw (BusinessLogicError (InvalidOptionIndex (JNum Frac) "p1")),
       Stored Examples.doc).
Proof.
  assert ("p1" ≠ "") as H1 by discriminate.
  assert ("alice" ≠ "") as H2 by discriminate.
  assert (trim "alice" = "alice") as H3 by reflexivity.
  assert (polls Examples.doc !! "p1" = Some Examples.poll1) as H4
    by reflexivity.
  assert (is_Some (users Examples.doc !! "alice")) as H5
    by (exists Examples.alice; reflexivity).
  assert (votes Examples.poll1 !! "alice" = None) as H6 by reflexivity.
  assert (¬ valid_index (JNum Frac) 2) as H7 by (simpl; tauto).
  split_and!; try assumption.
  exact (proj1 (invalid_index_rejected Examples.doc "p1" "alice"
                  Examples.poll1 (JNum Frac) H1 H2 H3 H4 H5 H6 H7)).
Defined.

(** The claim C2 as stated fails: alice is registered and has not voted
    in [poll1]; undefined is not an integer, yet her call with an
    undefined option index is answered with the required-arguments
    error, not the invalid-option-index error. *)
Lemma undefined_index_is_not_invalid_index_error :
  polls Examples.doc !! "p1" = Some Examples.poll1
  ∧ users Examples.doc !! "alice" = Some Examples.alice
  ∧ votes Examples.poll1 !! "alice" = None
  ∧ ¬ valid_index JUndefined (length (options Examples.poll1))
  ∧ pollService.vote "p1" JUndefined "alice" (Stored Examples.doc)
    = (Throw (BusinessLogicError RequiredForVote), Stored Examples.doc)
  ∧ RequiredForVote ≠ InvalidOptionIndex JUndefined "p1".
Proof. split_and!; [reflexivity..|simpl; tauto|reflexivity|discriminate]. Qed.

(** ** The Poll Service : deletion *)

(** C3, as amended.  For a poll id and a requesting username that are not
    empty: [deletePoll] fails with the not-found error when the id
    resolves to nothing; on an id that keys a stored poll it fails with
    the not-authorized error when the requesting username, once trimmed,
    differs from the poll's creator (compared as is, with no case
    folding), and the poll is still retrievable; and when the trimmed
    requesting username equals the creator it deletes the poll and
    returns true, after which the poll is no longer stored and the id,
    unless it names an inherited property, resolves to nothing.
    (Nothing is said of an id that keys no poll and names an inherited
    property; what the call does then is [deletePoll_inherited_id].) *)
Theorem deletePoll_checks_trimmed_requester
    (d : StoredDocument) (pollId requestingUsername : string) :
  pollId ≠ "" → requestingUsername ≠ "" →
  match Object_get (polls d) pollId with
  | Inherited _ => True
  | Absent =>
      pollService.deletePoll pollId requestingUsername (Stored d)
      = (Throw (BusinessLogicError (PollNotFound pollId)), Stored d)
  | Own p =>
      if decide (trim requestingUsername = creator p)
      then ∃ m' : Medium,
             pollService.deletePoll pollId requestingUsername (Stored d)
             = (Ok true, m')
             ∧ polls (contents m') !! pollId = None
             ∧ (pollId ∉ inherited_names →
                pollService.getPollById pollId m' = (Ok Absent, m'))
      else pollService.deletePoll pollId requestingUsername (Stored d)
           = (Throw (BusinessLogicError
                       (NotAuthorized requestingUsername pollId)), Stored d)
           ∧ pollService.getPollById pollId (Stored d)
             = (Ok (Own (memoryStorage.reviveVotes p)), Stored d)
  end.
Proof.
  intros Hid Hreq. unfold pollService.deletePoll.
  apply is_empty_false in Hid, Hreq. rewrite Hid, Hreq. simpl.
  rewrite (M_bind_Ok _ _ _ _ _
             (findPollById_readable (Stored d) ltac:(done) pollId)).
  simpl.
  destruct (Object_get (polls d) pollId) as [p|name|] eqn:Hp; simpl;
    [|done|done].
  destruct (decide (trim requestingUsername = creator p)) as [Heq|Hne].
  - rewrite bool_decide_eq_false_2 by (intros Hc; by apply Hc).
    rewrite deletePoll_readable by done. simpl. rewrite Hp.
    eexists. split; [reflexivity|]. simpl.
    split; [apply lookup_delete_eq|]. intros Hn.
    unfold pollService.getPollById.
    rewrite findPollById_readable by done. simpl.
    rewrite Object_get_delete_eq.
    by rewrite (proj2 (Object_get_Absent _ _) (conj (lookup_empty _) Hn)).
  - rewrite bool_decide_eq_true_2 by (intros Hc; by apply Hne).
    split; [done|]. by apply getPollById_stored, Object_get_Own.
Qed.

Lemma deletePoll_checks_trimmed_requester_witness :
  "p1" ≠ "" ∧ "bob" ≠ ""
  ∧ pollService.deletePoll "p1" "bob" (Stored Examples.doc)
    = (Throw (BusinessLogicError (NotAuthorized "bob" "p1")),
       Stored Examples.doc)
  ∧ pollService.getPollById "p1" (Stored Examples.doc)
    = (Ok (Own (memoryStorage.reviveVotes Examples.poll1)),
       Stored Examples.doc).
Proof.
  assert ("p1" ≠ "") as H1 by discriminate.
  assert ("bob" ≠ "") as H2 by discriminate.
  split; [exact H1|]. split; [exact H2|].
  exact (deletePoll_checks_trimmed_requester Examples.doc "p1" "bob" H1 H2).
Defined.

(** The claim C3 as stated fails: the requesting username " alice", with
    a leading space, differs from the creator "alice" of [poll1]; the
    call is not refused but deletes the poll and returns true. *)
Lemma padded_creator_name_is_authorized :
  polls Examples.doc !! "p1" = Some Examples.poll1
  ∧ " alice" ≠ creator Examples.poll1
  ∧ ∃ m' : Medium,
      pollService.deletePoll "p1" " alice" (Stored Examples.doc)
      = (Ok true, m')
      ∧ pollService.getPollById "p1" m' = (Ok Absent, m').
Proof.
  split; [reflexivity|]. split; [discriminate|].
  eexists. split; reflexivity.
Qed.

(** On an id that keys no poll but names an inherited property, the
    lookup finds the inherited member, which has no creator:
    [deletePoll] throws the not-authorized error, not the not-found
    one, and the file stays as it was. *)
Lemma deletePoll_inherited_id
    (d : StoredDocument) (pollId requestingUsername name : string) :
  pollId ≠ "" → requestingUsername ≠ "" →
  Object_get (polls d) pollId = Inherited name →
  pollService.deletePoll pollId requestingUsername (Stored d)
  = (Throw (BusinessLogicError (NotAuthorized requestingUsername pollId)),
     Stored d).
Proof.
  intros Hid Hreq Hp. unfold pollService.deletePoll.
  apply is_empty_false in Hid, Hreq. rewrite Hid, Hreq. simpl.
  rewrite (M_bind_Ok _ _ _ _ _
             (findPollById_readable (Stored d) ltac:(done) pollId)).
  simpl. by rewrite Hp.
Qed.

(** ** The Poll Service : creation *)

Lemma blank_nonblank (v : JsValue) :
  pollService.blank v = false ↔ nonblank_string v.
Proof.
  destruct v as [| | | |s| |]; simpl; try (split; [discriminate|tauto]).
  rewrite orb_false_iff, negb_false_iff, negb_true_iff, !is_empty_false.
  split; [tauto|]. intros Hs. split; [|done]. intros ->. by apply Hs.
Qed.

Lemma existsb_blank (opts : list JsValue) :
  existsb pollService.blank opts = false ↔ Forall nonblank_string opts.
Proof.
  induction opts as [|v opts IH]; cbn [existsb].
  - split; [constructor|done].
  - rewrite orb_false_iff, Forall_cons, IH, blank_nonblank. tauto.
Qed.

Lemma trimAll_nonblank (opts : list JsValue) :
  Forall nonblank_string opts →
  pollService.trimAll opts = Ok (trim <$> strings opts)
  ∧ length (strings opts) = length opts.
Proof.
  induction 1 as [|v opts Hv _ [IH1 IH2]]; [done|].
  destruct v; try done. simpl. rewrite IH1. simpl.
  split; [done|]. unfold strings in *. simpl. by rewrite IH2.
Qed.

Lemma strings_length (opts : list JsValue) :
  (length (strings opts) ≤ length opts)%nat.
Proof.
  induction opts as [|v opts IH]; simpl; [done|].
  unfold strings in *. destruct v; simpl; lia.
Qed.

Lemma duplicate_needs_two (opts : list JsValue) :
  duplicate_after_trim opts → (2 ≤ length opts)%nat.
Proof.
  intros Hdup. pose proof (strings_length opts) as Hlen.
  destruct (strings opts) as [|s [|t l]] eqn:Hs.
  - exfalso. apply Hdup. unfold strings in *. rewrite Hs. constructor.
  - exfalso. apply Hdup. unfold strings in *. rewrite Hs.
    apply NoDup_singleton.
  - simpl in Hlen. lia.
Qed.

Lemma validatePollData_duplicate
    (question creatorUsername : JsValue) (opts : list JsValue) :
  duplicate_after_trim opts →
  pollService.validatePollData question (JArr opts) creatorUsername
  = Throw (BusinessLogicError
             (if pollService.blank question then QuestionEmpty
              else if existsb pollService.blank opts
                   then OptionsNotNonEmptyStrings
                   else OptionsNotUnique)).
Proof.
  intros Hdup. unfold pollService.validatePollData.
  destruct (pollService.blank question); [done|].
  pose proof (duplicate_needs_two opts Hdup) as Hlen.
  apply Nat.ltb_ge in Hlen. rewrite Hlen.
  destruct (existsb pollService.blank opts) eqn:Hblank; [done|].
  apply existsb_blank, trimAll_nonblank in Hblank as [-> Hlen'].
  simpl. rewrite <- Hlen', <- (length_fmap trim), Set_size_test.
  by rewrite bool_decide_eq_false_2.
Qed.

(** C4, as amended.  Every call of the Poll Service's [createPoll] whose
    options contain a duplicate after trimming fails with a business
    error and leaves the file untouched, so that no poll is added.  The
    error is that of the first violated rule in the order in which the
    service checks them: the empty-question error when the question is
    not a non-blank string; else the non-empty-strings error when some
    option is not a non-blank string; else the uniqueness error. *)
Theorem createPoll_duplicate_rejected
    (m : Medium) (question creatorUsername : JsValue) (opts : list JsValue)
    (pollId : string) :
  duplicate_after_trim opts →
  ∃ msg : Message,
    pollService.createPoll question (JArr opts) creatorUsername pollId m
    = (Throw (BusinessLogicError msg), m)
    ∧ (¬ nonblank_string question → msg = QuestionEmpty)
    ∧ (nonblank_string question → ¬ Forall nonblank_string opts →
       msg = OptionsNotNonEmptyStrings)
    ∧ (nonblank_string question → Forall nonblank_string opts →
       msg = OptionsNotUnique).
Proof.
  intros Hdup. eexists. split.
  - unfold pollService.createPoll. apply M_bind_Throw. unfold lift.
    by rewrite validatePollData_duplicate.
  - rewrite <- blank_nonblank, <- existsb_blank.
    destruct (pollService.blank question),
      (existsb pollService.blank opts); split_and!; congruence.
Qed.

Lemma createPoll_duplicate_rejected_witness :
  duplicate_after_trim [JStr "A"; JStr " A "]
  ∧ ∃ msg : Message,
      pollService.createPoll (JStr "Q?") (JArr [JStr "A"; JStr " A "])
        (JStr "alice") "p9" (Stored Examples.doc)
      = (Throw (BusinessLogicError msg), Stored Examples.doc)
      ∧ (nonblank_string (JStr "Q?") →
         Forall nonblank_string [JStr "A"; JStr " A "] →
         msg = OptionsNotUnique).
Proof.
  assert (duplicate_after_trim [JStr "A"; JStr " A "]) as Hdup.
  { intros [Hnotin _]%NoDup_cons. apply Hnotin. by left. }
  split; [exact Hdup|].
  destruct (createPoll_duplicate_rejected (Stored Examples.doc) (JStr "Q?")
              (JStr "alice") [JStr "A"; JStr " A "] "p9" Hdup)
    as (msg & Hc & _ & _ & Hmsg).
  exists msg. split; [exact Hc|exact Hmsg].
Defined.

(** The claim C4 as stated fails: the options [""] and [" "] are equal
    after trimming, the question and the creator are in order, and
    [createPoll] fails with the non-empty-strings error, which the
    service checks before uniqueness, not with the uniqueness error. *)
Lemma blank_duplicates_fail_before_uniqueness :
  duplicate_after_trim [JStr ""; JStr " "]
  ∧ nonblank_string (JStr "Q?")
  ∧ users Examples.doc !! "alice" = Some Examples.alice
  ∧ pollService.createPoll (JStr "Q?") (JArr [JStr ""; JStr " "])
      (JStr "alice") "p9" (Stored Examples.doc)
    = (Throw (BusinessLogicError OptionsNotNonEmptyStrings),
       Stored Examples.doc)
  ∧ OptionsNotNonEmptyStrings ≠ OptionsNotUnique.
Proof.
  split_and!; [|discriminate|reflexivity|reflexivity|discriminate].
  intros [Hnotin _]%NoDup_cons. apply Hnotin. by left.
Qed.

(** ** The [Poll] class : order of validation *)

Lemma constructor_after_validation
    (policy : Poll.Policy) (id question options : JsValue) :
  Poll.validateInputs policy question options = Ok () →
  ∃ inst : Poll.Instance,
    Poll.constructor policy id question options = Ok inst.
Proof.
  intros Hv. unfold Poll.constructor. rewrite Hv. simpl.
  unfold Poll.validateInputs in Hv.
  destruct question as [| | | |s| |]; try discriminate.
  destruct (is_empty (trim s)); try discriminate. simpl in Hv.
  destruct options as [| | | | |opts|]; try discriminate.
  destruct (length opts <? 2)%nat; try discriminate.
  destruct (forallb is_string opts) eqn:Hstr; try discriminate.
  rewrite (normalizeAll_strings _ _ Hstr). simpl. by eexists.
Qed.

Lemma constructor_validation_error
    (policy : Poll.Policy) (id question options : JsValue) (e : Error) :
  Poll.validateInputs policy question options = Throw e →
  Poll.constructor policy id question options = Throw e.
Proof. intros Hv. unfold Poll.constructor. by rewrite Hv. Qed.

(** Closes the case of a violated rule: the error is the rule's, in the
    validation and in the constructor, and the rules of lower rank hold. *)
Ltac first_violation :=
  split_and!; [done|by apply constructor_validation_error|done|];
  let Hr := fresh "Hr" in
  intros [] Hr; simpl in Hr; (done || lia).

(** C7, as amended.  For a question of its declared type, that is a
    string, or absent ([null] or [undefined]), and any options value,
    under either comparison policy: the validation of the [Poll] class,
    which the constructor runs before anything else, fails exactly when
    some rule of the list question non-empty after trim, at least two
    options, every option a string, options unique under the policy, no
    option empty after trim is violated, and the error is then that of
    the first violated rule in this order: the rule is violated and every
    rule before it holds, whatever the later rules.  When no rule is
    violated the validation passes and the constructor returns an
    instance. *)
Theorem Poll_validation_order
    (policy : Poll.Policy) (id question options : JsValue) :
  PollRules.string_or_absent question →
  match PollRules.first_violated policy question options with
  | Some r =>
      Poll.validateInputs policy question options
      = Throw (PollRules.error_of r)
      ∧ Poll.constructor policy id question options
        = Throw (PollRules.error_of r)
      ∧ PollRules.holds policy question options r = false
      ∧ ∀ r' : PollRules.Rule,
          (PollRules.rank r' < PollRules.rank r)%nat →
          PollRules.holds policy question options r' = true
  | None =>
      Poll.validateInputs policy question options = Ok ()
      ∧ (∃ inst : Poll.Instance,
           Poll.constructor policy id question options = Ok inst)
      ∧ ∀ r : PollRules.Rule,
          PollRules.holds policy question options r = true
  end.
Proof.
  intros Hq.
  pose proof (validateInputs_first_violated policy question options Hq) as Hv.
  revert Hv. unfold PollRules.first_violated, PollRules.order.
  cbn [List.find].
  generalize (PollRules.holds policy question options). intros holds.
  destruct (holds PollRules.QuestionNonEmpty) eqn:H1;
    [destruct (holds PollRules.AtLeastTwoOptions) eqn:H2;
       [destruct (holds PollRules.OptionsAreStrings) eqn:H3;
          [destruct (holds PollRules.OptionsUnique) eqn:H4;
             [destruct (holds PollRules.OptionsNonEmpty) eqn:H5|]|]|]|];
    cbn [negb]; intros Hv.
  - split; [done|]. split; [by apply constructor_after_validation|].
    by intros [].
  - first_violation.
  - first_violation.
  - first_violation.
  - first_violation.
  - first_violation.
Qed.

Lemma Poll_validation_order_witness :
  PollRules.string_or_absent (JStr " ")
  ∧ Poll.validateInputs Poll.CaseInsensitive (JStr " ")
      (JArr [JStr "Yes"; JStr " yes"; JStr ""])
    = Throw (PlainError PollQuestionEmpty)
  ∧ Poll.constructor Poll.CaseInsensitive (JNum (Int 1)) (JStr " ")
      (JArr [JStr "Yes"; JStr " yes"; JStr ""])
    = Throw (PlainError PollQuestionEmpty).
Proof.
  assert (PollRules.string_or_absent (JStr " ")) as Hq by exact I.
  split; [exact Hq|].
  pose proof (Poll_validation_order Poll.CaseInsensitive (JNum (Int 1))
                (JStr " ") (JArr [JStr "Yes"; JStr " yes"; JStr ""]) Hq)
    as H.
  destruct H as (Hv & Hc & _). split; [exact Hv|exact Hc].
Defined.

(** The claim as stated, for every question, fails on a question that is
    a number: [question?.trim()] guards against [null] and [undefined]
    only, a number has no [trim], and the call throws a TypeError, which
    is the error of no rule, although the options violate nothing and
    the first rule that the input violates is the one on the question. *)
Lemma numeric_question_throws_TypeError :
  PollRules.first_violated Poll.CaseSensitive (JNum (Int 7))
    (JArr [JStr "Yes"; JStr "No"])
  = Some PollRules.QuestionNonEmpty
  ∧ Poll.validateInputs Poll.CaseSensitive (JNum (Int 7))
      (JArr [JStr "Yes"; JStr "No"])
    = Throw TypeError
  ∧ Poll.constructor Poll.CaseSensitive (JNum (Int 1)) (JNum (Int 7))
      (JArr [JStr "Yes"; JStr "No"])
    = Throw TypeError
  ∧ Poll.validateInputs Poll.CaseInsensitive (JNum (Int 7))
      (JArr [JStr "Yes"; JStr "No"])
    = Throw TypeError
  ∧ ∀ r : PollRules.Rule, PollRules.error_of r ≠ TypeError.
Proof. split_and!; try reflexivity. by intros []. Qed.

(** ** Two votes in sequence *)

Lemma Object_fromEntries_set_fresh (m : JsMap) (k : string) (v : Z) :
  k ∉ m.*1 →
  Object_fromEntries (Map_set m k v) = <[k := v]> (Object_fromEntries m).
Proof.
  intros Hk. rewrite Map_set_fresh by done.
  unfold Object_fromEntries. by rewrite foldl_snoc.
Qed.

(** A first vote with a valid index is recorded in the file. *)
Lemma first_vote_recorded
    (d : StoredDocument) (pollId u : string) (p : StoredPoll) (i : Z) :
  pollId ≠ "" → u ≠ "" → trim u = u →
  polls d !! pollId = Some p →
  is_Some (users d !! u) →
  votes p !! u = None →
  valid_index (JNum (Int i)) (length (options p)) →
  ∃ poll : Poll,
    pollService.vote pollId (JNum (Int i)) u (Stored d)
    = (Ok poll,
       Stored {| users := users d;
                 polls := <[pollId := with_votes p (<[u := i]> (votes p))]>
                            (polls d) |})
    ∧ Map_get (votes poll) u = Some i.
Proof.
  intros Hid Hu Htrim Hp Husr Hnone Hvalid.
  rewrite (vote_reaches_index_test d pollId u p (JNum (Int i)))
    by (rewrite ?Htrim; try done; by apply Object_get_is_Some).
  apply valid_index_invalidIndex in Hvalid. rewrite Hvalid, Htrim.
  assert (Map_has (Map_new (Object_entries (votes p))) u = false) as Hhas.
  { apply not_true_is_false. rewrite Map_has_get, Map_get_revive, Hnone.
    by intros [? ?]. }
  rewrite Hhas. rewrite updatePoll_readable by done. simpl. rewrite Hp.
  eexists. split.
  - f_equal. f_equal. f_equal. f_equal.
    unfold memoryStorage.serializeVotes, memoryStorage.mergePoll, with_votes.
    simpl. f_equal.
    rewrite Object_fromEntries_set_fresh.
    + by rewrite Object_fromEntries_revive.
    + unfold Map_has in Hhas. by apply bool_decide_eq_false in Hhas.
  - simpl. rewrite Map_get_list_to_map.
    rewrite Map_set_fresh
      by (unfold Map_has in Hhas; by apply bool_decide_eq_false in Hhas).
    apply elem_of_list_to_map_1.
    + rewrite fmap_app. apply NoDup_app. split_and!.
      * apply Map_keys_revive.
      * intros x Hx Hx'. apply list_elem_of_singleton in Hx'. subst x.
        unfold Map_has in Hhas. by apply bool_decide_eq_false in Hhas.
      * apply NoDup_singleton.
    + apply elem_of_app. right. by apply list_elem_of_singleton.
Qed.

(** The scenario of the specification: alice and bob register, alice
    creates a poll, bob votes for option 1 and then tries option 0. *)
Example bob_votes_twice :
  let r1 := userService.createUser (JStr "alice") Missing in
  let r2 := userService.createUser (JStr " bob ") r1.2 in
  let r3 := pollService.createPoll (JStr "Pick one?")
              (JArr [JStr "X"; JStr "Y"]) (JStr "alice") "p1" r2.2 in
  let r4 := pollService.vote "p1" (JNum (Int 1)) "bob" r3.2 in
  let r5 := pollService.vote "p1" (JNum (Int 0)) "bob" r4.2 in
  r1.1 = Ok Examples.alice
  ∧ r2.1 = Ok Examples.bob
  ∧ r3.1 = Ok (memoryStorage.reviveVotes
                 (with_votes Examples.poll1 (∅ : gmap string Z)))
  ∧ r4.1 = Ok (memoryStorage.reviveVotes Examples.poll1)
  ∧ r4.2 = Stored Examples.doc
  ∧ r5 = (Throw (BusinessLogicError (AlreadyVoted "bob" "p1")),
          Stored Examples.doc).
Proof. cbv zeta. split_and!; reflexivity. Qed.

(** * Further properties of the store *)

(** ** Reading and writing the whole document *)

Lemma Map_new_fromEntries_perm (l : JsMap) :
  NoDup l.*1 → Map_new (Object_entries (Object_fromEntries l)) ≡ₚ l.
Proof.
  intros Hnd. unfold Object_entries.
  rewrite Map_new_NoDup by apply NoDup_fst_map_to_list.
  rewrite Object_fromEntries_list_to_map.
  rewrite map_to_list_to_map by (by rewrite fmap_reverse, reverse_Permutation).
  apply reverse_Permutation.
Qed.

Lemma Map_get_fromEntries (l : JsMap) (k : string) :
  NoDup l.*1 → Object_fromEntries l !! k = Map_get l k.
Proof.
  intros Hnd. rewrite Object_fromEntries_list_to_map, Map_get_list_to_map.
  f_equal. apply list_to_map_proper.
  - by rewrite fmap_reverse, reverse_Permutation.
  - apply reverse_Permutation.
Qed.

(** A read-modify-write cycle that modifies nothing rewrites the file
    with the document it held: the stored document when there is one,
    the empty document when the file was missing or broken. *)
Theorem read_then_write_keeps_document (m : Medium) :
  m ≠ Unreadable →
  (memoryStorage.readData ≫= memoryStorage.writeData) m
  = (Ok (), Stored (contents m)).
Proof.
  intros Hm. rewrite (M_bind_Ok _ _ _ _ _ (readData_readable m Hm)).
  unfold memoryStorage.writeData. by rewrite serialize_revive.
Qed.

Lemma read_then_write_keeps_document_witness :
  Stored Examples.doc ≠ Unreadable
  ∧ (memoryStorage.readData ≫= memoryStorage.writeData) (Stored Examples.doc)
    = (Ok (), Stored Examples.doc).
Proof.
  assert (Stored Examples.doc ≠ Unreadable) as Hm by discriminate.
  split; [exact Hm|].
  exact (read_then_write_keeps_document (Stored Examples.doc) Hm).
Defined.

(** Writing a document and reading the file back returns the users and,
    under the same ids, polls with the same fields whose ledgers have the
    same entries, whatever the file was before.  The ledgers of the
    written document have one entry per key, as every [Map] has. *)
Theorem write_then_read_returns_document (data : Document) (m : Medium) :
  (∀ pollId p, polls data !! pollId = Some p → NoDup (votes p).*1) →
  ∃ doc : Document,
    (memoryStorage.writeData data ≫= λ _, memoryStorage.readData) m
    = (Ok doc, Stored (memoryStorage.serialize data))
    ∧ users doc = users data
    ∧ ∀ pollId : string,
        match polls data !! pollId with
        | None => polls doc !! pollId = None
        | Some p => ∃ p' : Poll,
            polls doc !! pollId = Some p'
            ∧ id p' = id p ∧ question p' = question p
            ∧ options p' = options p ∧ creator p' = creator p
            ∧ votes p' ≡ₚ votes p
            ∧ ∀ k : string, Map_get (votes p') k = Map_get (votes p) k
        end.
Proof.
  intros Hnd. eexists. split; [reflexivity|]. split; [done|].
  intros pollId. simpl. rewrite !lookup_fmap.
  destruct (polls data !! pollId) as [p|] eqn:Hp; simpl; [|done].
  eexists. split; [reflexivity|]. simpl. split_and!; try done.
  - apply Map_new_fromEntries_perm. by eapply Hnd.
  - intros k. rewrite Map_get_revive. apply Map_get_fromEntries.
    by eapply Hnd.
Qed.

Lemma write_then_read_returns_document_witness :
  (∀ pollId p,
     polls (memoryStorage.revive Examples.doc) !! pollId = Some p →
     NoDup (votes p).*1)
  ∧ ∃ doc : Document,
      (memoryStorage.writeData (memoryStorage.revive Examples.doc)
         ≫= λ _, memoryStorage.readData) Missing
      = (Ok doc,
         Stored (memoryStorage.serialize (memoryStorage.revive Examples.doc)))
      ∧ users doc = users Examples.doc.
Proof.
  assert (∀ pollId p,
            polls (memoryStorage.revive Examples.doc) !! pollId = Some p →
            NoDup (votes p).*1) as Hnd.
  { intros pollId p. unfold memoryStorage.revive. cbn [polls].
    rewrite lookup_fmap. intros (q & _ & ->)%fmap_Some.
    apply Map_keys_revive. }
  split; [exact Hnd|].
  destruct (write_then_read_returns_document
              (memoryStorage.revive Examples.doc) Missing Hnd)
    as (doc & Hrun & Husers & _).
  exists doc. split; [exact Hrun|exact Husers].
Defined.

(** ** Deleting and updating polls in the store *)

(** The store's [deletePoll] returns false, without writing, exactly on
    an id that resolves to nothing.  On an id that keys no poll but
    names an inherited property it returns true and rewrites the file
    with the document it held.  On a stored id it returns true and
    removes the poll, the users and the other polls being as they were;
    afterwards the id resolves as it does on an empty collection, and a
    second [deletePoll] returns false unless the id names an inherited
    property, in which case it returns true again. *)
Theorem store_deletePoll_removes_once (d : StoredDocument) (pollId : string) :
  match Object_get (polls d) pollId with
  | Absent =>
      memoryStorage.deletePoll pollId (Stored d) = (Ok false, Stored d)
  | Inherited _ =>
      memoryStorage.deletePoll pollId (Stored d) = (Ok true, Stored d)
  | Own _ =>
      ∃ m' : Medium,
        memoryStorage.deletePoll pollId (Stored d) = (Ok true, m')
        ∧ polls (contents m') !! pollId = None
        ∧ memoryStorage.findPollById pollId m'
          = (Ok (Object_get ∅ pollId), m')
        ∧ memoryStorage.deletePoll pollId m'
          = (Ok (bool_decide (pollId ∈ inherited_names)), m')
        ∧ users (contents m') = users d
        ∧ ∀ other : string,
            other ≠ pollId → polls (contents m') !! other = polls d !! other
  end.
Proof.
  rewrite deletePoll_readable by done. simpl.
  destruct (Object_get (polls d) pollId) as [p|name|] eqn:Hp; [| |done].
  - eexists. split; [reflexivity|].
    rewrite findPollById_readable, deletePoll_readable by done. simpl.
    rewrite Object_get_delete_eq. split_and!; try done.
    + apply lookup_delete_eq.
    + unfold Object_get. rewrite lookup_empty. by case_bool_decide.
    + unfold Object_get. rewrite lookup_empty.
      case_bool_decide; [|done].
      by rewrite delete_id by apply lookup_delete_eq.
    + intros other Hne. by rewrite lookup_delete_ne.
  - apply Object_get_Inherited in Hp as (Hnone & _ & _).
    rewrite delete_id by done. by destruct d.
Qed.

(** After a successful [updatePoll] whose patch carries no ledger, or a
    ledger with one entry per key, the poll found under the id has the
    fields of the poll that was returned and a ledger with the same
    entries; the users and the polls under other ids are untouched. *)
Theorem updatePoll_is_persisted
    (d : StoredDocument) (pollId : string) (p : StoredPoll)
    (patch : memoryStorage.PollPatch) :
  polls d !! pollId = Some p →
  (∀ ledger, memoryStorage.patch_votes patch
             = Some (memoryStorage.VotesMap ledger) → NoDup ledger.*1) →
  ∃ (updated found : Poll) (m' : Medium),
    memoryStorage.updatePoll pollId patch (Stored d) = (Ok updated, m')
    ∧ memoryStorage.findPollById pollId m' = (Ok (Own found), m')
    ∧ id found = id updated ∧ question found = question updated
    ∧ options found = options updated ∧ creator found = creator updated
    ∧ votes found ≡ₚ votes updated
    ∧ (∀ k : string, Map_get (votes found) k = Map_get (votes updated) k)
    ∧ users (contents m') = users d
    ∧ ∀ other : string,
        other ≠ pollId → polls (contents m') !! other = polls d !! other.
Proof.
  intros Hp Hnd. rewrite updatePoll_readable by done. simpl. rewrite Hp.
  eexists _, _, _. split; [reflexivity|].
  rewrite findPollById_readable by done. simpl. rewrite Object_get_insert_eq.
  simpl. split; [reflexivity|]. simpl.
  assert (NoDup (votes (memoryStorage.mergePoll
                          (memoryStorage.reviveVotes p) patch)).*1) as Hkeys.
  { simpl. destruct (memoryStorage.patch_votes patch) as [[ledger|r]|] eqn:Hv;
      [by apply Hnd|apply Map_keys_revive..]. }
  split_and!; try done.
  - by apply Map_new_fromEntries_perm.
  - intros k. rewrite Map_get_revive. by apply Map_get_fromEntries.
  - intros other Hne. by rewrite lookup_insert_ne.
Qed.

Lemma updatePoll_is_persisted_witness :
  polls Examples.doc !! "p1" = Some Examples.poll1
  ∧ (∀ ledger,
       memoryStorage.patch_votes
         (memoryStorage.votesPatch [("bob", 1); ("alice", 0)])
       = Some (memoryStorage.VotesMap ledger) → NoDup ledger.*1)
  ∧ ∃ (updated found : Poll) (m' : Medium),
      memoryStorage.updatePoll "p1"
        (memoryStorage.votesPatch [("bob", 1); ("alice", 0)])
        (Stored Examples.doc) = (Ok updated, m')
      ∧ memoryStorage.findPollById "p1" m' = (Ok (Own found), m')
      ∧ votes found ≡ₚ votes updated.
Proof.
  assert (polls Examples.doc !! "p1" = Some Examples.poll1) as Hp
    by reflexivity.
  assert (∀ ledger,
            memoryStorage.patch_votes
              (memoryStorage.votesPatch [("bob", 1); ("alice", 0)])
            = Some (memoryStorage.VotesMap ledger) → NoDup ledger.*1) as Hnd.
  { intros ledger [= <-]. simpl. apply NoDup_cons. split.
    - intros [=]%list_elem_of_singleton.
    - apply NoDup_singleton. }
  split; [exact Hp|]. split; [exact Hnd|].
  destruct (updatePoll_is_persisted Examples.doc "p1" Examples.poll1 _ Hp Hnd)
    as (updated & found & m' & Hu & Hf & _ & _ & _ & _ & Hperm & _).
  exists updated, found, m'. split_and!; [exact Hu|exact Hf|exact Hperm].
Defined.

(** A patch that names an [id] changes the [id] property of the poll but
    not the key under which the poll is stored: the poll stays under the
    id given to [updatePoll], and the new id resolves as it did before,
    to a stored poll, to an inherited member or to nothing. *)
Theorem updatePoll_never_rekeys
    (d : StoredDocument) (pollId newId : string) (p : StoredPoll)
    (patch : memoryStorage.PollPatch) :
  polls d !! pollId = Some p →
  memoryStorage.patch_id patch = Some newId →
  newId ≠ pollId →
  ∃ (updated found : Poll) (m' : Medium),
    memoryStorage.updatePoll pollId patch (Stored d) = (Ok updated, m')
    ∧ id updated = newId
    ∧ memoryStorage.findPollById pollId m' = (Ok (Own found), m')
    ∧ id found = newId
    ∧ memoryStorage.findPollById newId m'
      = (Ok (memoryStorage.reviveVotes <$> Object_get (polls d) newId), m').
Proof.
  intros Hp Hid Hne. rewrite updatePoll_readable by done. simpl. rewrite Hp.
  eexists _, _, _. split; [reflexivity|]. simpl. rewrite Hid.
  split; [done|].
  rewrite !findPollById_readable by done. simpl.
  rewrite Object_get_insert_eq, Object_get_insert_ne by done. simpl.
  split; [reflexivity|]. simpl. by rewrite Hid.
Qed.

Lemma updatePoll_never_rekeys_witness :
  polls Examples.doc !! "p1" = Some Examples.poll1
  ∧ "p7" ≠ "p1"
  ∧ ∃ (updated found : Poll) (m' : Medium),
      memoryStorage.updatePoll "p1"
        {| memoryStorage.patch_id := Some "p7";
           memoryStorage.patch_question := None;
           memoryStorage.patch_options := None;
           memoryStorage.patch_creator := None;
           memoryStorage.patch_votes := None |}
        (Stored Examples.doc) = (Ok updated, m')
      ∧ id updated = "p7"
      ∧ memoryStorage.findPollById "p1" m' = (Ok (Own found), m')
      ∧ id found = "p7"
      ∧ memoryStorage.findPollById "p7" m' = (Ok Absent, m').
Proof.
  assert (polls Examples.doc !! "p1" = Some Examples.poll1) as Hp
    by reflexivity.
  assert ("p7" ≠ "p1") as Hne by discriminate.
  split; [exact Hp|]. split; [exact Hne|].
  exact (updatePoll_never_rekeys Examples.doc "p1" "p7" Examples.poll1
           {| memoryStorage.patch_id := Some "p7";
              memoryStorage.patch_question := None;
              memoryStorage.patch_options := None;
              memoryStorage.patch_creator := None;
              memoryStorage.patch_votes := None |} Hp eq_refl Hne).
Defined.

(** ** Listing polls *)

Lemma getAllPolls_readable (m : Medium) :
  m ≠ Unreadable →
  memoryStorage.getAllPolls m
  = (Ok (map_to_list (memoryStorage.reviveVotes <$> polls (contents m))).*2,
     m).
Proof.
  intros Hm. unfold memoryStorage.getAllPolls.
  by rewrite (M_bind_Ok _ _ _ _ _ (readData_readable m Hm)).
Qed.

Lemma elem_of_all_polls (ps : gmap string StoredPoll) (poll : Poll) :
  poll ∈ (map_to_list (memoryStorage.reviveVotes <$> ps)).*2
  ↔ ∃ pollId p, ps !! pollId = Some p ∧ poll = memoryStorage.reviveVotes p.
Proof.
  rewrite list_elem_of_fmap. split.
  - intros ([pollId q] & -> & Hin). apply elem_of_map_to_list in Hin.
    rewrite lookup_fmap in Hin. apply fmap_Some in Hin as (p & Hp & ->).
    by exists pollId, p.
  - intros (pollId & p & Hp & ->).
    exists (pollId, memoryStorage.reviveVotes p). split; [done|].
    apply elem_of_map_to_list. by rewrite lookup_fmap, Hp.
Qed.

(** [getAllPolls] returns the stored polls and nothing else: a poll is
    listed exactly when it is the parsed form of a poll stored under some
    id, and the list is as long as the collection is large. *)
Theorem getAllPolls_lists_stored_polls (d : StoredDocument) :
  ∃ all : list Poll,
    memoryStorage.getAllPolls (Stored d) = (Ok all, Stored d)
    ∧ length all = size (polls d)
    ∧ ∀ poll : Poll,
        poll ∈ all
        ↔ ∃ pollId p,
            polls d !! pollId = Some p ∧ poll = memoryStorage.reviveVotes p.
Proof.
  rewrite getAllPolls_readable by done. eexists. split; [reflexivity|].
  simpl. split.
  - by rewrite length_fmap, length_map_to_list, map_size_fmap.
  - apply elem_of_all_polls.
Qed.

Lemma findPollsByCreator_listing (d : StoredDocument) (u : string) :
  ∃ found : list Poll,
    memoryStorage.findPollsByCreator u (Stored d) = (Ok found, Stored d)
    ∧ ∀ poll : Poll,
        poll ∈ found
        ↔ ∃ pollId p,
            polls d !! pollId = Some p ∧ creator p = u
            ∧ poll = memoryStorage.reviveVotes p.
Proof.
  unfold memoryStorage.findPollsByCreator.
  rewrite (M_bind_Ok _ _ _ _ _
             (getAllPolls_readable (Stored d) ltac:(done))).
  eexists. split; [reflexivity|]. intros poll. simpl.
  rewrite list_elem_of_filter, elem_of_all_polls. split.
  - intros (Hc & pollId & p & Hp & ->). by exists pollId, p.
  - intros (pollId & p & Hp & Hc & ->). split; [done|]. by exists pollId, p.
Qed.

Lemma findPollsVotedInByUser_listing (d : StoredDocument) (u : string) :
  ∃ found : list Poll,
    memoryStorage.findPollsVotedInByUser u (Stored d) = (Ok found, Stored d)
    ∧ ∀ poll : Poll,
        poll ∈ found
        ↔ ∃ pollId p,
            polls d !! pollId = Some p ∧ is_Some (votes p !! u)
            ∧ poll = memoryStorage.reviveVotes p.
Proof.
  unfold memoryStorage.findPollsVotedInByUser.
  rewrite (M_bind_Ok _ _ _ _ _
             (getAllPolls_readable (Stored d) ltac:(done))).
  eexists. split; [reflexivity|]. intros poll. simpl.
  rewrite list_elem_of_filter, elem_of_all_polls. split.
  - intros (Hv & pollId & p & Hp & ->). exists pollId, p.
    split_and!; [done| |done].
    apply Map_has_get in Hv. simpl in Hv. by rewrite Map_get_revive in Hv.
  - intros (pollId & p & Hp & Hv & ->). split; [|by exists pollId, p].
    apply Map_has_get. simpl. by rewrite Map_get_revive.
Qed.

(** The two filters of the store return exactly what they name:
    [findPollsByCreator] the stored polls whose creator is the given
    username, compared as is, and [findPollsVotedInByUser] the stored
    polls whose vote ledger has the given username as a key. *)
Theorem store_filters_sound_complete (d : StoredDocument) (u : string) :
  ∃ created voted : list Poll,
    memoryStorage.findPollsByCreator u (Stored d) = (Ok created, Stored d)
    ∧ memoryStorage.findPollsVotedInByUser u (Stored d)
      = (Ok voted, Stored d)
    ∧ ∀ poll : Poll,
        (poll ∈ created
         ↔ ∃ pollId p,
             polls d !! pollId = Some p ∧ creator p = u
             ∧ poll = memoryStorage.reviveVotes p)
        ∧ (poll ∈ voted
           ↔ ∃ pollId p,
               polls d !! pollId = Some p ∧ is_Some (votes p !! u)
               ∧ poll = memoryStorage.reviveVotes p).
Proof.
  destruct (findPollsByCreator_listing d u) as (created & Hc & Hcm).
  destruct (findPollsVotedInByUser_listing d u) as (voted & Hv & Hvm).
  exists created, voted. by split_and!.
Qed.

(** ** What the queries never do *)

Lemma read_only_readData : read_only memoryStorage.readData.
Proof. by intros []. Qed.

Lemma read_only_mret {A : Type} (a : A) : read_only (mret a : M A).
Proof. by intros m. Qed.

Lemma read_only_throw {A : Type} (e : Error) : read_only (throw e : M A).
Proof. by intros m. Qed.

Lemma read_only_bind {A B : Type} (c : M A) (f : A → M B) :
  read_only c → (∀ a, read_only (f a)) → read_only (c ≫= f).
Proof.
  intros Hc Hf m. unfold mbind, M_bind. specialize (Hc m).
  destruct (c m) as [[a|e] m'] eqn:Hcm; simpl in Hc; subst m'.
  - apply Hf.
  - done.
Qed.

Lemma read_only_getAllPolls : read_only memoryStorage.getAllPolls.
Proof.
  apply read_only_bind; [apply read_only_readData|].
  intros data. apply read_only_mret.
Qed.

Lemma read_only_findUser (u : string) : read_only (userService.findUser u).
Proof.
  apply read_only_bind; [apply read_only_readData|].
  intros data. apply read_only_mret.
Qed.

(** No query writes the file, whatever the file is and whatever the
    query answers or throws: the lookups and listings of the store, and
    the queries of the two services. *)
Theorem queries_never_write (u pollId : string) :
  read_only (memoryStorage.findUserByUsername u)
  ∧ read_only (memoryStorage.findPollById pollId)
  ∧ read_only memoryStorage.getAllPolls
  ∧ read_only (memoryStorage.findPollsByCreator u)
  ∧ read_only (memoryStorage.findPollsVotedInByUser u)
  ∧ read_only (userService.findUser u)
  ∧ read_only (pollService.getPollById pollId)
  ∧ read_only pollService.getAllPolls
  ∧ read_only (pollService.getPollsByCreator u)
  ∧ read_only (pollService.getPollsVotedInByUser u).
Proof.
  assert (read_only (memoryStorage.findPollById pollId)) as Hpoll.
  { apply read_only_bind; [apply read_only_readData|].
    intros data. apply read_only_mret. }
  assert (∀ v, read_only (memoryStorage.findPollsByCreator v)
               ∧ read_only (memoryStorage.findPollsVotedInByUser v))
    as Hfilters.
  { intros v.
    split; (apply read_only_bind; [apply read_only_getAllPolls|]);
      intros all; apply read_only_mret. }
  split_and!; try done.
  - apply read_only_findUser.
  - apply read_only_getAllPolls.
  - apply Hfilters.
  - apply Hfilters.
  - apply read_only_findUser.
  - apply read_only_getAllPolls.
  - apply read_only_bind; [apply read_only_findUser|].
    intros [usr|name|]; [apply Hfilters..|apply read_only_throw].
  - apply read_only_bind; [apply read_only_findUser|].
    intros [usr|name|]; [apply Hfilters..|apply read_only_throw].
Qed.

(** ** A file that cannot be read *)

(** When reading the file fails with an error other than ENOENT, every
    operation of the store that reads it throws that I/O failure and
    writes nothing. *)
Theorem unreadable_file_fails_every_operation
    (u pollId : string) (pollData : PollData)
    (patch : memoryStorage.PollPatch) :
  memoryStorage.findUserByUsername u Unreadable = (Throw IOFailure, Unreadable)
  ∧ memoryStorage.createUser u Unreadable = (Throw IOFailure, Unreadable)
  ∧ memoryStorage.findPollById pollId Unreadable
    = (Throw IOFailure, Unreadable)
  ∧ memoryStorage.createPoll pollData Unreadable
    = (Throw IOFailure, Unreadable)
  ∧ memoryStorage.updatePoll pollId patch Unreadable
    = (Throw IOFailure, Unreadable)
  ∧ memoryStorage.deletePoll pollId Unreadable = (Throw IOFailure, Unreadable)
  ∧ memoryStorage.getAllPolls Unreadable = (Throw IOFailure, Unreadable)
  ∧ memoryStorage.findPollsByCreator u Unreadable
    = (Throw IOFailure, Unreadable)
  ∧ memoryStorage.findPollsVotedInByUser u Unreadable
    = (Throw IOFailure, Unreadable).
Proof. by split_and!. Qed.

(** * Further properties of the Poll Service *)

(** ** Validation and creation *)

(** The validation of the Poll Service, rule by rule in the order of the
    source. *)
Lemma validatePollData_decides (question options creatorUsername : JsValue) :
  pollService.validatePollData question options creatorUsername
  = if decide (nonblank_string question) then
      match options with
      | JArr opts =>
          if decide (2 ≤ length opts)%nat then
            if decide (Forall nonblank_string opts) then
              if decide (NoDup (trim <$> strings opts)) then
                if decide (nonblank_string creatorUsername) then Ok ()
                else Throw (BusinessLogicError CreatorRequired)
              else Throw (BusinessLogicError OptionsNotUnique)
            else Throw (BusinessLogicError OptionsNotNonEmptyStrings)
          else Throw (BusinessLogicError TooFewOptions)
      | _ => Throw (BusinessLogicError TooFewOptions)
      end
    else Throw (BusinessLogicError QuestionEmpty).
Proof.
  unfold pollService.validatePollData.
  destruct (decide (nonblank_string question)) as [Hq|Hq].
  2: { destruct (pollService.blank question) eqn:Hb; [done|].
       by apply blank_nonblank in Hb. }
  apply blank_nonblank in Hq. rewrite Hq.
  destruct options as [| | | | |opts|]; try done.
  destruct (decide (2 ≤ length opts)%nat) as [Hlen|Hlen].
  2: { assert ((length opts <? 2)%nat = true) as ->
         by (apply Nat.ltb_lt; lia).
       done. }
  apply Nat.ltb_ge in Hlen. rewrite Hlen.
  destruct (decide (Forall nonblank_string opts)) as [Hall|Hall].
  2: { destruct (existsb pollService.blank opts) eqn:Hb; [done|].
       by apply existsb_blank in Hb. }
  pose proof (trimAll_nonblank opts Hall) as [Htrim Hlen'].
  apply existsb_blank in Hall. rewrite Hall, Htrim. simpl.
  rewrite <- Hlen', <- (length_fmap trim), Set_size_test.
  destruct (decide (NoDup (trim <$> strings opts))) as [Hnd|Hnd].
  2: { by rewrite bool_decide_eq_false_2. }
  rewrite bool_decide_eq_true_2 by done. simpl.
  destruct (decide (nonblank_string creatorUsername)) as [Hc|Hc].
  - apply blank_nonblank in Hc. by rewrite Hc.
  - destruct (pollService.blank creatorUsername) eqn:Hb; [done|].
    by apply blank_nonblank in Hb.
Qed.

Lemma validatePollData_valid (question options creatorUsername : JsValue) :
  pollService.validatePollData question options creatorUsername = Ok ()
  ↔ valid_poll_input question options creatorUsername.
Proof.
  rewrite validatePollData_decides. unfold valid_poll_input.
  destruct (decide (nonblank_string question)) as [Hq|Hq];
    [|split; [done|tauto]].
  destruct options as [| | | | |opts|]; try (split; [done|tauto]).
  destruct (decide (2 ≤ length opts)%nat) as [Hlen|Hlen];
    [|split; [done|tauto]].
  destruct (decide (Forall nonblank_string opts)) as [Hall|Hall];
    [|split; [done|tauto]].
  destruct (decide (NoDup (trim <$> strings opts))) as [Hnd|Hnd];
    [|split; [done|tauto]].
  destruct (decide (nonblank_string creatorUsername)) as [Hc|Hc];
    [|split; [done|tauto]].
  tauto.
Qed.

(** The validation of the Poll Service accepts exactly the arguments
    with a non-blank question, at least two non-blank string options
    that are pairwise distinct after trimming, and a non-blank creator
    name; whatever it is given, it rejects with one of its five business
    errors and with nothing else. *)
Theorem validatePollData_accepts_exactly
    (question options creatorUsername : JsValue) :
  (pollService.validatePollData question options creatorUsername = Ok ()
   ↔ valid_poll_input question options creatorUsername)
  ∧ ∀ e : Error,
      pollService.validatePollData question options creatorUsername = Throw e
      → e ∈ BusinessLogicError <$>
              [QuestionEmpty; TooFewOptions; OptionsNotNonEmptyStrings;
               OptionsNotUnique; CreatorRequired].
Proof.
  rewrite validatePollData_decides. unfold valid_poll_input.
  destruct (decide (nonblank_string question)) as [Hq|Hq].
  2: { split; [split; [done|tauto]|]. intros e [= <-]. set_solver. }
  destruct options as [| | | | |opts|];
    try (split; [split; [done|tauto]|]; intros e [= <-]; set_solver).
  destruct (decide (2 ≤ length opts)%nat) as [Hlen|Hlen].
  2: { split; [split; [done|tauto]|]. intros e [= <-]. set_solver. }
  destruct (decide (Forall nonblank_string opts)) as [Hall|Hall].
  2: { split; [split; [done|tauto]|]. intros e [= <-]. set_solver. }
  destruct (decide (NoDup (trim <$> strings opts))) as [Hnd|Hnd].
  2: { split; [split; [done|tauto]|]. intros e [= <-]. set_solver. }
  destruct (decide (nonblank_string creatorUsername)) as [Hc|Hc].
  2: { split; [split; [done|tauto]|]. intros e [= <-]. set_solver. }
  split; [tauto|done].
Qed.

Lemma trimAll_strings (opts : list JsValue) :
  Forall nonblank_string opts →
  pollService.trimAll opts = Ok (trim <$> strings opts).
Proof. intros H. by apply trimAll_nonblank. Qed.

(** What [createPoll] does with valid arguments on a readable file. *)
Lemma createPoll_valid
    (m : Medium) (q c : string) (opts : list JsValue) (pollId : string) :
  m ≠ Unreadable →
  valid_poll_input (JStr q) (JArr opts) (JStr c) →
  pollService.createPoll (JStr q) (JArr opts) (JStr c) pollId m
  = match Object_get (users (contents m)) (trim c) with
    | Absent => (Throw (BusinessLogicError (CreatorDoesNotExist (trim c))), m)
    | _ =>
        (Ok {| id := pollId; question := trim q;
               options := trim <$> strings opts; creator := trim c;
               votes := [] |},
         Stored {| users := users (contents m);
                   polls := <[pollId := {| id := pollId; question := trim q;
                                           options := trim <$> strings opts;
                                           creator := trim c; votes := ∅ |}]>
                              (polls (contents m)) |})
    end.
Proof.
  intros Hm Hvalid. unfold pollService.createPoll.
  assert (pollService.validatePollData (JStr q) (JArr opts) (JStr c) = Ok ())
    as Hv by (by apply validatePollData_valid).
  rewrite (M_bind_Ok _ _ m m ()) by (unfold lift; by rewrite Hv).
  rewrite (M_bind_Ok _ _ _ _ _ (findUser_readable m Hm (trim c))).
  destruct Hvalid as (_ & (_ & Hall & _) & _).
  destruct (Object_get (users (contents m)) (trim c)) as [usr|name|];
    [| |done];
    rewrite (M_bind_Ok _ _ m m (trim <$> strings opts))
      by (unfold lift; by rewrite trimAll_strings);
    by rewrite createPoll_readable.
Qed.

Lemma strings_nonblank (opts : list JsValue) :
  Forall nonblank_string opts →
  length (strings opts) = length opts
  ∧ Forall (λ s, trim s ≠ "") (strings opts).
Proof.
  induction 1 as [|v opts Hv _ [IH1 IH2]]; [done|].
  destruct v as [| | | |s| |]; try done.
  change (strings (JStr s :: opts)) with (s :: strings opts). split.
  - simpl. by rewrite IH1.
  - by constructor.
Qed.

(** With valid arguments and a registered creator, [createPoll] returns
    a poll with the given id, the trimmed question, the trimmed options
    in their order and as many as were given, the trimmed creator name
    and an empty ledger; the poll is then found under its id, and the
    users and the polls under other ids are untouched. *)
Theorem createPoll_creates
    (m : Medium) (q c : string) (opts : list JsValue) (pollId : string) :
  m ≠ Unreadable →
  valid_poll_input (JStr q) (JArr opts) (JStr c) →
  is_Some (users (contents m) !! trim c) →
  ∃ (poll : Poll) (m' : Medium),
    pollService.createPoll (JStr q) (JArr opts) (JStr c) pollId m
    = (Ok poll, m')
    ∧ id poll = pollId ∧ question poll = trim q ∧ creator poll = trim c
    ∧ options poll = trim <$> strings opts
    ∧ length (options poll) = length opts
    ∧ JStr <$> strings opts = opts
    ∧ votes poll = []
    ∧ pollService.getPollById pollId m' = (Ok (Own poll), m')
    ∧ users (contents m') = users (contents m)
    ∧ ∀ other : string,
        other ≠ pollId →
        polls (contents m') !! other = polls (contents m) !! other.
Proof.
  intros Hm Hvalid [usr Husr]. rewrite createPoll_valid by done.
  rewrite (Object_get_Some _ _ _ Husr).
  eexists _, _. split; [reflexivity|]. simpl.
  destruct Hvalid as (_ & (_ & Hall & _) & _).
  split_and!; try done.
  - rewrite length_fmap. by apply strings_nonblank.
  - clear -Hall. induction Hall as [|v opts Hv _ IH]; [done|].
    destruct v as [| | | |s| |]; try done.
    change (strings (JStr s :: opts)) with (s :: strings opts).
    rewrite fmap_cons. by rewrite IH.
  - unfold pollService.getPollById.
    rewrite findPollById_readable by done. simpl.
    by rewrite Object_get_insert_eq.
  - intros other Hne. by rewrite lookup_insert_ne.
Qed.

Lemma createPoll_creates_witness :
  Stored Examples.doc ≠ Unreadable
  ∧ valid_poll_input (JStr " Tea or coffee? ")
      (JArr [JStr "Tea "; JStr " Coffee"]) (JStr " bob")
  ∧ is_Some (users (contents (Stored Examples.doc)) !! trim " bob")
  ∧ ∃ (poll : Poll) (m' : Medium),
      pollService.createPoll (JStr " Tea or coffee? ")
        (JArr [JStr "Tea "; JStr " Coffee"]) (JStr " bob") "p2"
        (Stored Examples.doc) = (Ok poll, m')
      ∧ id poll = "p2" ∧ question poll = "Tea or coffee?"
      ∧ creator poll = "bob".
Proof.
  assert (Stored Examples.doc ≠ Unreadable) as Hm by discriminate.
  assert (valid_poll_input (JStr " Tea or coffee? ")
            (JArr [JStr "Tea "; JStr " Coffee"]) (JStr " bob")) as Hv.
  { unfold valid_poll_input.
    split_and!;
      [done|simpl; lia|by repeat (apply Forall_cons; split; [done|])
      |vm_compute; apply NoDup_cons; split;
         [by intros [=]%list_elem_of_singleton|apply NoDup_singleton]
      |done]. }
  assert (is_Some (users (contents (Stored Examples.doc)) !! trim " bob"))
    as Hu by (exists Examples.bob; reflexivity).
  split; [exact Hm|]. split; [exact Hv|]. split; [exact Hu|].
  destruct (createPoll_creates (Stored Examples.doc) " Tea or coffee? "
              " bob" [JStr "Tea "; JStr " Coffee"] "p2" Hm Hv Hu)
    as (poll & m' & Hc & Hid & Hq & Hcr & _).
  exists poll, m'. split_and!; [exact Hc|exact Hid|exact Hq|exact Hcr].
Defined.

(** ** The outcome of each writing call *)

Lemma not_Unreadable_cases (m : Medium) : m = Unreadable ∨ m ≠ Unreadable.
Proof. destruct m; auto; right; discriminate. Qed.

(** [createUser] either throws and leaves the file as it was, or stores
    a new user under the trimmed name. *)
Lemma createUser_outcome (m : Medium) (name : JsValue) :
  (∃ e, userService.createUser name m = (Throw e, m))
  ∨ (∃ s, name = JStr s ∧ trim s ≠ ""
          ∧ Object_get (users (contents m)) (trim s) = Absent
          ∧ userService.createUser name m
            = (Ok {| username := trim s |},
               Stored {| users := <[trim s := {| username := trim s |}]>
                                    (users (contents m));
                         polls := polls (contents m) |})).
Proof.
  destruct name as [| | | |s| |]; try (left; by eexists).
  destruct (not_Unreadable_cases m) as [->|Hm].
  { left. unfold userService.createUser.
    destruct (negb (truthy (JStr s)) || is_empty (trim s)); by eexists. }
  rewrite createUser_string by done.
  destruct (decide (trim s = "")); [left; by eexists|].
  destruct (Object_get (users (contents m)) (trim s)) eqn:Hu;
    [left; by eexists..|].
  right. by exists s.
Qed.

(** [createPoll] either throws and leaves the file as it was, or stores
    the new poll under the given id. *)
Lemma createPoll_outcome
    (m : Medium) (question options creatorUsername : JsValue)
    (pollId : string) :
  (∃ e, pollService.createPoll question options creatorUsername pollId m
        = (Throw e, m))
  ∨ (∃ q opts c,
       question = JStr q ∧ options = JArr opts ∧ creatorUsername = JStr c
       ∧ valid_poll_input question options creatorUsername
       ∧ Object_get (users (contents m)) (trim c) ≠ Absent
       ∧ pollService.createPoll question options creatorUsername pollId m
         = (Ok {| id := pollId; question := trim q;
                  options := trim <$> strings opts; creator := trim c;
                  votes := [] |},
            Stored {| users := users (contents m);
                      polls := <[pollId := {| id := pollId;
                                              question := trim q;
                                              options := trim <$> strings opts;
                                              creator := trim c;
                                              votes := ∅ |}]>
                                 (polls (contents m)) |})).
Proof.
  destruct (pollService.validatePollData question options creatorUsername)
    as [[]|e] eqn:Hv.
  2: { left. exists e. unfold pollService.createPoll.
       apply M_bind_Throw. unfold lift. by rewrite Hv. }
  pose proof (proj1 (validatePollData_valid _ _ _) Hv) as Hvalid.
  destruct Hvalid as (Hq & Ho & Hc).
  destruct question as [| | | |q| |]; try done.
  destruct options as [| | | | |opts|]; try done.
  destruct creatorUsername as [| | | |c| |]; try done.
  assert (valid_poll_input (JStr q) (JArr opts) (JStr c)) as Hvalid by done.
  destruct (not_Unreadable_cases m) as [->|Hm].
  { left. exists IOFailure. unfold pollService.createPoll.
    rewrite (M_bind_Ok _ _ Unreadable Unreadable ())
      by (unfold lift; by rewrite Hv).
    done. }
  rewrite createPoll_valid by done.
  destruct (Object_get (users (contents m)) (trim c)) as [usr|name|] eqn:Hu.
  - right. exists q, opts, c. split_and!; try done. by rewrite Hu.
  - right. exists q, opts, c. split_and!; try done. by rewrite Hu.
  - left. by eexists.
Qed.

(** [deletePoll] either throws and leaves the file as it was, or removes
    the poll and returns true. *)
Lemma deletePoll_outcome (m : Medium) (pollId requestingUsername : string) :
  (∃ e, pollService.deletePoll pollId requestingUsername m = (Throw e, m))
  ∨ (∃ p, polls (contents m) !! pollId = Some p
          ∧ creator p = trim requestingUsername
          ∧ pollService.deletePoll pollId requestingUsername m
            = (Ok true,
               Stored {| users := users (contents m);
                         polls := delete pollId (polls (contents m)) |})).
Proof.
  unfold pollService.deletePoll.
  destruct (is_empty pollId || is_empty requestingUsername);
    [left; by eexists|].
  destruct (not_Unreadable_cases m) as [->|Hm]; [left; by eexists|].
  rewrite (M_bind_Ok _ _ _ _ _ (findPollById_readable m Hm pollId)).
  destruct (Object_get (polls (contents m)) pollId) as [p|name|] eqn:Hp;
    simpl; [|left; by eexists..].
  case_bool_decide as Hc; [left; by eexists|].
  right. exists p. rewrite deletePoll_readable by done. rewrite Hp.
  split_and!; try done. by apply Object_get_Own.
Qed.

(** [vote] either throws and leaves the file as it was, or adds one
    entry to the ledger of the poll. *)
Lemma vote_outcome
    (m : Medium) (pollId : string) (optionIndex : JsValue) (u : string) :
  (∃ e, pollService.vote pollId optionIndex u m = (Throw e, m))
  ∨ (∃ p i,
       optionIndex = JNum (Int i)
       ∧ polls (contents m) !! pollId = Some p
       ∧ Object_get (users (contents m)) (trim u) ≠ Absent
       ∧ valid_index optionIndex (length (options p))
       ∧ votes p !! trim u = None
       ∧ ∃ poll : Poll,
           Map_get (votes poll) (trim u) = Some i
           ∧ pollService.vote pollId optionIndex u m
             = (Ok poll,
                Stored {| users := users (contents m);
                          polls := <[pollId := with_votes p
                                                 (<[trim u := i]> (votes p))]>
                                     (polls (contents m)) |})).
Proof.
  destruct (decide (pollId = "")) as [->|Hid]; [left; by eexists|].
  destruct (decide (u = "")) as [->|Hu].
  { left. unfold pollService.vote. rewrite orb_true_r. by eexists. }
  assert (optionIndex = JUndefined ∨ optionIndex ≠ JUndefined)
    as [->|Hundef] by (destruct optionIndex; auto; right; discriminate).
  { left. unfold pollService.vote. rewrite orb_true_r. by eexists. }
  assert (∀ m0, m0 ≠ Unreadable →
            polls (contents m0) !! pollId = None →
            ∃ e, pollService.vote pollId optionIndex u m0 = (Throw e, m0))
    as Habsent.
  { intros m0 Hm0 Hnone. unfold pollService.vote.
    apply is_empty_false in Hid, Hu. rewrite Hid, Hu.
    replace (match optionIndex with JUndefined => true | _ => false end)
      with false by (by destruct optionIndex).
    simpl. rewrite (M_bind_Ok _ _ _ _ _ (findPollById_readable m0 Hm0 pollId)).
    unfold Object_get. rewrite Hnone.
    case_bool_decide; simpl; [|by eexists].
    rewrite (M_bind_Ok _ _ _ _ _ (findUser_readable m0 Hm0 (trim u))).
    destruct (Object_get (users (contents m0)) (trim u)); simpl;
      destruct optionIndex as [| | |[i| | |]| | |];
      try destruct (i <? 0); by eexists. }
  destruct m as [| | |d].
  - left. by apply Habsent.
  - left. by apply Habsent.
  - left. unfold pollService.vote.
    apply is_empty_false in Hid, Hu. rewrite Hid, Hu.
    replace (match optionIndex with JUndefined => true | _ => false end)
      with false by (by destruct optionIndex).
    by eexists.
  - destruct (polls d !! pollId) as [p|] eqn:Hp;
      [|left; by apply Habsent].
    destruct (Object_get_cases (users d) (trim u)) as [Husr|Husr].
    { left. unfold pollService.vote.
      apply is_empty_false in Hid, Hu. rewrite Hid, Hu.
      replace (match optionIndex with JUndefined => true | _ => false end)
        with false by (by destruct optionIndex).
      simpl.
      rewrite (M_bind_Ok _ _ _ _ _
                 (findPollById_readable (Stored d) ltac:(done) pollId)).
      simpl. rewrite (Object_get_Some _ _ _ Hp). simpl.
      rewrite (M_bind_Ok _ _ _ _ _
                 (findUser_readable (Stored d) ltac:(done) (trim u))).
      simpl. rewrite Husr. by eexists. }
    rewrite (vote_reaches_index_test d pollId u p optionIndex) by done.
    destruct optionIndex as [| | |[i| | |]| | |]; try (left; by eexists).
    destruct (pollService.invalidIndex (JNum (Int i)) (length (options p)))
      eqn:Hinv; [left; by eexists|].
    destruct (Map_has (Map_new (Object_entries (votes p))) (trim u))
      eqn:Hhas; [left; by eexists|].
    assert (trim u ∉ (Map_new (Object_entries (votes p))).*1) as Hfresh.
    { unfold Map_has in Hhas. by apply bool_decide_eq_false in Hhas. }
    assert (votes p !! trim u = None) as Hnone.
    { apply eq_None_not_Some. rewrite <- Map_get_revive, <- Map_has_get.
      by rewrite Hhas. }
    right. exists p, i.
    split; [done|]. split; [done|]. split; [done|].
    split; [by apply valid_index_invalidIndex|]. split; [done|].
    rewrite updatePoll_readable by done. simpl. rewrite Hp.
    eexists. split; [|f_equal; f_equal; f_equal; f_equal].
    + simpl. rewrite Map_get_list_to_map, Map_set_fresh by done.
      apply elem_of_list_to_map_1.
      * rewrite fmap_app. apply NoDup_app. split_and!.
        -- apply Map_keys_revive.
        -- intros x Hx Hx'. apply list_elem_of_singleton in Hx'. by subst x.
        -- apply NoDup_singleton.
      * apply elem_of_app. right. by apply list_elem_of_singleton.
    + unfold memoryStorage.serializeVotes, memoryStorage.mergePoll, with_votes.
      simpl. f_equal.
      by rewrite Object_fromEntries_set_fresh, Object_fromEntries_revive.
Qed.

(** ** Deleting *)

(** The Poll Service's [deletePoll] never returns false: when it
    returns, the poll was stored, the trimmed requester was its creator,
    and the result is true. *)
Theorem deletePoll_returns_only_true
    (m m' : Medium) (pollId requestingUsername : string) (result : bool) :
  pollService.deletePoll pollId requestingUsername m = (Ok result, m') →
  result = true
  ∧ ∃ p, polls (contents m) !! pollId = Some p
         ∧ creator p = trim requestingUsername
         ∧ polls (contents m') !! pollId = None.
Proof.
  intros Hd.
  destruct (deletePoll_outcome m pollId requestingUsername)
    as [[e H]|(p & Hp & Hc & H)]; rewrite H in Hd; [discriminate|].
  injection Hd as <- <-. split; [done|]. exists p.
  split_and!; try done. simpl. by rewrite lookup_delete_eq.
Qed.

Lemma deletePoll_returns_only_true_witness :
  pollService.deletePoll "p1" "alice" (Stored Examples.doc)
  = (Ok true,
     Stored {| users := users Examples.doc;
               polls := delete "p1" (polls Examples.doc) |})
  ∧ ∃ p, polls (contents (Stored Examples.doc)) !! "p1" = Some p
         ∧ creator p = trim "alice".
Proof.
  assert (pollService.deletePoll "p1" "alice" (Stored Examples.doc)
          = (Ok true,
             Stored {| users := users Examples.doc;
                       polls := delete "p1" (polls Examples.doc) |})) as Hd
    by reflexivity.
  split; [exact Hd|].
  destruct (deletePoll_returns_only_true _ _ _ _ _ Hd)
    as (_ & p & Hp & Hc & _).
  exists p. split; [exact Hp|exact Hc].
Defined.

(** ** Voting *)

(** A first vote: for a stored poll, a username whose trimmed form is
    registered and not yet in the ledger, and a valid option index,
    [vote] returns the poll with its fields unchanged and the new entry
    in its ledger beside the old ones; the file then holds the poll with
    exactly that entry added, and the users and the other polls are as
    they were. *)
Theorem vote_appends_entry
    (d : StoredDocument) (pollId u : string) (p : StoredPoll) (i : Z) :
  pollId ≠ "" → u ≠ "" →
  polls d !! pollId = Some p →
  is_Some (users d !! trim u) →
  votes p !! trim u = None →
  valid_index (JNum (Int i)) (length (options p)) →
  ∃ poll : Poll,
    pollService.vote pollId (JNum (Int i)) u (Stored d)
    = (Ok poll,
       Stored {| users := users d;
                 polls := <[pollId := with_votes p (<[trim u := i]> (votes p))]>
                            (polls d) |})
    ∧ id poll = id p ∧ question poll = question p
    ∧ options poll = options p ∧ creator poll = creator p
    ∧ ∀ k : string,
        Map_get (votes poll) k = (<[trim u := i]> (votes p)) !! k.
Proof.
  intros Hid Hu Hp Husr Hnone Hvalid.
  rewrite (vote_reaches_index_test d pollId u p (JNum (Int i)))
    by (try done; by apply Object_get_is_Some).
  apply valid_index_invalidIndex in Hvalid. rewrite Hvalid.
  assert (Map_has (Map_new (Object_entries (votes p))) (trim u) = false)
    as Hhas.
  { apply not_true_is_false. rewrite Map_has_get, Map_get_revive, Hnone.
    by intros [? ?]. }
  assert (trim u ∉ (Map_new (Object_entries (votes p))).*1) as Hfresh.
  { unfold Map_has in Hhas. by apply bool_decide_eq_false in Hhas. }
  rewrite Hhas. rewrite updatePoll_readable by done. simpl. rewrite Hp.
  eexists. split.
  - f_equal. f_equal. f_equal. f_equal.
    unfold memoryStorage.serializeVotes, memoryStorage.mergePoll, with_votes.
    simpl. f_equal.
    by rewrite Object_fromEntries_set_fresh, Object_fromEntries_revive.
  - split_and!; try done.
    intros k. simpl. rewrite <- Map_get_fromEntries.
    + by rewrite Object_fromEntries_set_fresh, Object_fromEntries_revive.
    + rewrite Map_set_fresh, fmap_app by done. apply NoDup_app. split_and!.
      * apply Map_keys_revive.
      * intros x Hx Hx'. apply list_elem_of_singleton in Hx'. by subst x.
      * apply NoDup_singleton.
Qed.

Lemma vote_appends_entry_witness :
  "p1" ≠ "" ∧ " alice " ≠ ""
  ∧ polls Examples.doc !! "p1" = Some Examples.poll1
  ∧ is_Some (users Examples.doc !! trim " alice ")
  ∧ votes Examples.poll1 !! trim " alice " = None
  ∧ valid_index (JNum (Int 0)) (length (options Examples.poll1))
  ∧ ∃ poll : Poll,
      pollService.vote "p1" (JNum (Int 0)) " alice " (Stored Examples.doc)
      = (Ok poll,
         Stored {| users := users Examples.doc;
                   polls := <["p1" := with_votes Examples.poll1
                                        (<["alice" := 0]>
                                           (votes Examples.poll1))]>
                              (polls Examples.doc) |}).
Proof.
  assert ("p1" ≠ "") as H1 by discriminate.
  assert (" alice " ≠ "") as H2 by discriminate.
  assert (polls Examples.doc !! "p1" = Some Examples.poll1) as H3
    by reflexivity.
  assert (is_Some (users Examples.doc !! trim " alice ")) as H4
    by (exists Examples.alice; reflexivity).
  assert (votes Examples.poll1 !! trim " alice " = None) as H5 by reflexivity.
  assert (valid_index (JNum (Int 0)) (length (options Examples.poll1)))
    as H6 by (simpl; lia).
  split_and!; try assumption.
  destruct (vote_appends_entry Examples.doc "p1" " alice " Examples.poll1 0
              H1 H2 H3 H4 H5 H6) as (poll & Hv & _).
  exists poll. exact Hv.
Defined.

(** [vote] trims the username before anything else uses it: a username
    with white space around a non-empty name votes exactly as the
    trimmed name does, with the same result, error and effect. *)
Theorem vote_ignores_surrounding_space
    (m : Medium) (pollId : string) (optionIndex : JsValue) (u : string) :
  trim u ≠ "" →
  pollService.vote pollId optionIndex u m
  = pollService.vote pollId optionIndex (trim u) m.
Proof.
  intros Ht. assert (u ≠ "") as Hu by (intros ->; by apply Ht).
  unfold pollService.vote. rewrite trim_idemp.
  apply is_empty_false in Ht, Hu. by rewrite Ht, Hu.
Qed.

Lemma vote_ignores_surrounding_space_witness :
  trim "  bob " ≠ ""
  ∧ pollService.vote "p1" (JNum (Int 0)) "  bob " (Stored Examples.doc)
    = pollService.vote "p1" (JNum (Int 0)) (trim "  bob ")
        (Stored Examples.doc).
Proof.
  assert (trim "  bob " ≠ "") as Ht by discriminate.
  split; [exact Ht|].
  exact (vote_ignores_surrounding_space (Stored Examples.doc) "p1"
           (JNum (Int 0)) "  bob " Ht).
Defined.

(** [vote] is append-only: whatever its arguments and whether it returns
    or throws, every poll that was stored is still stored with the same
    id, question, options and creator, every entry of every ledger is
    still there with the same index, and the users are as they were. *)
Theorem vote_keeps_polls_and_entries
    (m : Medium) (pollId : string) (optionIndex : JsValue) (u : string)
    (other : string) (p : StoredPoll) :
  polls (contents m) !! other = Some p →
  users (contents (after (Vote pollId optionIndex u) m)) = users (contents m)
  ∧ ∃ p' : StoredPoll,
      polls (contents (after (Vote pollId optionIndex u) m)) !! other
      = Some p'
      ∧ id p' = id p ∧ question p' = question p
      ∧ options p' = options p ∧ creator p' = creator p
      ∧ ∀ voter index,
          votes p !! voter = Some index → votes p' !! voter = Some index.
Proof.
  intros Hp. simpl.
  destruct (vote_outcome m pollId optionIndex u)
    as [[e H]|(q & i & _ & Hq & _ & _ & Hnone & poll & _ & H)];
    rewrite H; simpl.
  - split; [done|]. by exists p.
  - split; [done|]. destruct (decide (other = pollId)) as [->|Hne].
    + rewrite lookup_insert_eq. eexists. split; [reflexivity|].
      assert (q = p) as -> by congruence. simpl. split_and!; try done.
      intros voter index Hv. rewrite lookup_insert_ne; [done|].
      intros <-. congruence.
    + rewrite lookup_insert_ne by done. by exists p.
Qed.

Lemma vote_keeps_polls_and_entries_witness :
  polls (contents (Stored Examples.doc)) !! "p1" = Some Examples.poll1
  ∧ ∃ p' : StoredPoll,
      polls (contents (after (Vote "p1" (JNum (Int 0)) "alice")
                         (Stored Examples.doc))) !! "p1" = Some p'
      ∧ options p' = options Examples.poll1
      ∧ ∀ voter index,
          votes Examples.poll1 !! voter = Some index →
          votes p' !! voter = Some index.
Proof.
  assert (polls (contents (Stored Examples.doc)) !! "p1"
          = Some Examples.poll1) as Hp by reflexivity.
  split; [exact Hp|].
  destruct (vote_keeps_polls_and_entries (Stored Examples.doc) "p1"
              (JNum (Int 0)) "alice" "p1" Examples.poll1 Hp)
    as (_ & p' & Hp' & _ & _ & Ho & _ & Hv).
  exists p'. split_and!; [exact Hp'|exact Ho|exact Hv].
Defined.

(** ** The invariant of the document *)

Lemma known_resolves (d : StoredDocument) (u : string) :
  known d u ↔ Object_get (users d) u ≠ Absent.
Proof. unfold known. by rewrite Object_get_resolves. Qed.

Lemma known_more_users (d d' : StoredDocument) (u : string) :
  (∀ k, is_Some (users d !! k) → is_Some (users d' !! k)) →
  known d u → known d' u.
Proof. intros Hmono [Hu|Hu]; [left; by apply Hmono|by right]. Qed.

Lemma well_formed_poll_more_users
    (d d' : StoredDocument) (pollId : string) (p : StoredPoll) :
  (∀ k, is_Some (users d !! k) → is_Some (users d' !! k)) →
  well_formed_poll d pollId p → well_formed_poll d' pollId p.
Proof.
  intros Hmono (H1 & H2 & H3 & H4 & H5 & H6 & H7).
  split_and!; try done. by eapply known_more_users.
Qed.

Lemma valid_ledger_more_users (d d' : StoredDocument) (p : StoredPoll) :
  (∀ k, is_Some (users d !! k) → is_Some (users d' !! k)) →
  valid_ledger d p → valid_ledger d' p.
Proof.
  intros Hmono Hl u i Hv. destruct (Hl u i Hv) as [Hu Hi].
  split; [by eapply known_more_users|done].
Qed.

Lemma trimmed_strings_well_formed (opts : list JsValue) :
  Forall nonblank_string opts →
  Forall (λ o, o ≠ "" ∧ trim o = o) (trim <$> strings opts).
Proof.
  induction 1 as [|v opts Hv _ IH]; [constructor|].
  destruct v as [| | | |s| |]; try done.
  change (strings (JStr s :: opts)) with (s :: strings opts).
  rewrite fmap_cons. constructor; [|done].
  split; [done|apply trim_idemp].
Qed.

(** One call keeps the invariant. *)
Lemma after_consistent (call : ServiceCall) (m : Medium) :
  generated call →
  consistent (contents m) → consistent (contents (after call m)).
Proof.
  intros Hgen (Husers & Hproto & Hpolls).
  destruct call as [name|q o c pollId|pollId idx u|pollId req]; simpl.
  - destruct (createUser_outcome m name) as [[e H]|(s & _ & Hs & Hnone & H)];
      rewrite H; simpl; [done|].
    assert (∀ k, is_Some (users (contents m) !! k) →
                 is_Some (<[trim s := {| username := trim s |}]>
                            (users (contents m)) !! k)) as Hmono.
    { intros k Hk. rewrite lookup_insert_is_Some.
      destruct (decide (trim s = k)); [by left|by right]. }
    split_and!; [|done|].
    + intros k usr. simpl. rewrite lookup_insert_Some.
      intros [[<- <-]|[_ Hk]]; [|by apply Husers].
      split_and!; [done|apply trim_idemp|done|].
      by apply Object_get_Absent in Hnone as [_ Hnone].
    + intros pollId p Hp. simpl in Hp.
      destruct (Hpolls pollId p Hp) as [Hw Hl]. split.
      * by eapply well_formed_poll_more_users.
      * by eapply valid_ledger_more_users.
  - destruct (createPoll_outcome m q o c pollId)
      as [[e H]|(q' & opts & c' & -> & -> & -> & Hvalid & Hcreator & H)];
      rewrite H; simpl; [done|].
    split_and!; [done| |].
    { simpl. by rewrite lookup_insert_ne. }
    intros other p. simpl. rewrite lookup_insert_Some.
    intros [[<- <-]|[_ Hp]].
    + destruct Hvalid as (Hq & (Hlen & Hall & Hnd) & Hc). split.
      * unfold well_formed_poll. simpl. split_and!; try done.
        -- apply trim_idemp.
        -- rewrite length_fmap.
           by rewrite (proj1 (strings_nonblank opts Hall)).
        -- by apply trimmed_strings_well_formed.
        -- by apply known_resolves.
      * intros v i. simpl. by rewrite lookup_empty.
    + destruct (Hpolls other p Hp) as [Hw Hl]. split; [|done].
      by eapply well_formed_poll_more_users.
  - destruct (vote_outcome m pollId idx u)
      as [[e H]|(p & i & -> & Hp & Husr & Hvalid & Hnone & poll & _ & H)];
      rewrite H; simpl; [done|].
    split_and!; [done| |].
    { simpl. rewrite lookup_insert_ne; [done|]. intros ->. congruence. }
    intros other p'. simpl. rewrite lookup_insert_Some.
    intros [[<- <-]|[_ Hp']].
    + destruct (Hpolls pollId p Hp) as [Hw Hl]. split; [done|].
      intros v j. simpl. rewrite lookup_insert_Some.
      intros [[<- <-]|[_ Hv]]; [|by apply Hl].
      split; [by apply known_resolves|done].
    + destruct (Hpolls other p' Hp') as [Hw Hl]. by split.
  - destruct (deletePoll_outcome m pollId req) as [[e H]|(p & _ & _ & H)];
      rewrite H; simpl; [done|].
    split_and!; [done| |].
    { simpl. apply lookup_delete_None. by right. }
    intros other p'. simpl. rewrite lookup_delete_Some.
    intros [_ Hp']. destruct (Hpolls other p' Hp') as [Hw Hl]. by split.
Qed.

(** The services keep the document consistent: starting from a
    consistent file, after any sequence of calls of [createUser],
    [createPoll] (with the ids [uuidv4] draws), [vote] and [deletePoll],
    with any other arguments and whether they return or throw, users are
    stored under their own trimmed, non-empty name, which is none of the
    names every object inherits; every poll is stored under its own id
    with a trimmed non-empty question and at least two trimmed,
    non-empty, pairwise distinct options; and the creator of every poll
    and the voter of every ledger entry is a name the user lookup
    resolves, that is a registered user or one of the inherited names
    ([constructor], [toString], ...), each entry being a vote for an
    option of the poll.  The creator and the voters need not be
    registered: [services_admit_inherited_names] below. *)
Theorem services_keep_document_consistent
    (calls : list ServiceCall) (m : Medium) :
  Forall generated calls →
  consistent (contents m) → consistent (contents (after_all calls m)).
Proof.
  intros Hgen. revert m.
  induction Hgen as [|call calls Hcall _ IH]; intros m Hm; [done|].
  simpl. apply IH. by apply after_consistent.
Qed.

Lemma services_keep_document_consistent_witness :
  Forall generated
    [CreateUser (JStr "alice"); CreateUser (JStr " bob ");
     CreatePoll (JStr "Pick one?") (JArr [JStr "X"; JStr "Y"])
       (JStr "alice") "p1";
     Vote "p1" (JNum (Int 1)) "bob";
     Vote "p1" (JNum (Int 0)) "bob"]
  ∧ consistent (contents Missing)
  ∧ consistent
      (contents
         (after_all
            [CreateUser (JStr "alice"); CreateUser (JStr " bob ");
             CreatePoll (JStr "Pick one?") (JArr [JStr "X"; JStr "Y"])
               (JStr "alice") "p1";
             Vote "p1" (JNum (Int 1)) "bob";
             Vote "p1" (JNum (Int 0)) "bob"]
            Missing)).
Proof.
  assert (Forall generated
            [CreateUser (JStr "alice"); CreateUser (JStr " bob ");
             CreatePoll (JStr "Pick one?") (JArr [JStr "X"; JStr "Y"])
               (JStr "alice") "p1";
             Vote "p1" (JNum (Int 1)) "bob";
             Vote "p1" (JNum (Int 0)) "bob"]) as Hgen
    by (repeat constructor; discriminate).
  assert (consistent (contents Missing)) as H0.
  { split_and!; simpl; [|done|]; intros k x; by rewrite lookup_empty. }
  split_and!; [exact Hgen|exact H0|].
  exact (services_keep_document_consistent _ Missing Hgen H0).
Defined.

(** A poll can be created by, and a vote recorded for, a name that no
    user registered: [valueOf] and [toString] are members every object
    inherits, so the user lookup resolves them. *)
Lemma services_admit_inherited_names :
  ∃ p : StoredPoll,
    polls (contents
             (after_all
                [CreatePoll (JStr "Pick one?") (JArr [JStr "X"; JStr "Y"])
                   (JStr "valueOf") "p1";
                 Vote "p1" (JNum (Int 1)) "toString"]
                Missing)) !! "p1" = Some p
    ∧ users (contents Missing) = ∅
    ∧ creator p = "valueOf"
    ∧ votes p !! "toString" = Some 1.
Proof. eexists. by split_and!. Qed.

(** ** The listings of the Poll Service *)

(** [getPollsByCreator] and [getPollsVotedInByUser] trim the username
    and throw the user-not-found error when the lookup of the trimmed
    name in the users finds nothing: the name is not registered and is
    none of the names every object inherits.  For a registered name,
    and for an inherited name such as [toString] as well, the first
    returns exactly the stored polls created by the trimmed name, the
    second exactly the stored polls whose ledger has the trimmed name as
    a key. *)
Theorem service_listings_need_registered_user
    (d : StoredDocument) (u : string) :
  match Object_get (users d) (trim u) with
  | Absent =>
      pollService.getPollsByCreator u (Stored d)
      = (Throw (BusinessLogicError (UserNotFound (trim u))), Stored d)
      ∧ pollService.getPollsVotedInByUser u (Stored d)
        = (Throw (BusinessLogicError (UserNotFound (trim u))), Stored d)
  | _ =>
      ∃ created voted : list Poll,
        pollService.getPollsByCreator u (Stored d) = (Ok created, Stored d)
        ∧ pollService.getPollsVotedInByUser u (Stored d)
          = (Ok voted, Stored d)
        ∧ ∀ poll : Poll,
            (poll ∈ created
             ↔ ∃ pollId p,
                 polls d !! pollId = Some p ∧ creator p = trim u
                 ∧ poll = memoryStorage.reviveVotes p)
            ∧ (poll ∈ voted
               ↔ ∃ pollId p,
                   polls d !! pollId = Some p ∧ is_Some (votes p !! trim u)
                   ∧ poll = memoryStorage.reviveVotes p)
  end.
Proof.
  unfold pollService.getPollsByCreator, pollService.getPollsVotedInByUser.
  rewrite !(M_bind_Ok _ _ _ _ _
              (findUser_readable (Stored d) ltac:(done) (trim u))).
  simpl.
  destruct (findPollsByCreator_listing d (trim u)) as (created & Hc & Hcm).
  destruct (findPollsVotedInByUser_listing d (trim u)) as (voted & Hv & Hvm).
  destruct (Object_get (users d) (trim u)) as [usr|name|]; [| |done];
    exists created, voted; split_and!; done.
Qed.

(** * Further properties of the [Poll] class *)

(** ** Sums of counters *)

Lemma Zsum_foldl (a : Z) (l : list Z) : foldl Z.add a l = a + Zsum l.
Proof.
  unfold Zsum. revert a.
  induction l as [|x l IH]; intros a; simpl; [lia|].
  rewrite IH. lia.
Qed.

Lemma Zsum_perm (l l' : list Z) : l ≡ₚ l' → Zsum l = Zsum l'.
Proof.
  unfold Zsum. induction 1; simpl; lia.
Qed.

Lemma total_delete (m : gmap string Z) (k : string) (n : Z) :
  m !! k = Some n →
  Zsum (map_to_list m).*2 = n + Zsum (map_to_list (delete k m)).*2.
Proof.
  intros Hk. rewrite <- (Zsum_perm ((k, n) :: map_to_list (delete k m)).*2).
  - done.
  - apply fmap_Permutation. by apply map_to_list_delete.
Qed.

Lemma total_insert (m : gmap string Z) (k : string) (n v : Z) :
  m !! k = Some n →
  Zsum (map_to_list (<[k := v]> m)).*2
  = Zsum (map_to_list m).*2 - n + v.
Proof.
  intros Hk.
  assert (Zsum (map_to_list (<[k := v]> m)).*2
          = v + Zsum (map_to_list (delete k m)).*2) as ->.
  { rewrite <- (insert_delete_eq m k v).
    change (v + Zsum (map_to_list (delete k m)).*2)
      with (Zsum ((k, v) :: map_to_list (delete k m)).*2).
    apply Zsum_perm, fmap_Permutation, map_to_list_insert, lookup_delete_eq. }
  rewrite (total_delete m k n Hk). lia.
Qed.

(** The sum of all counters is the sum of the counters of the options. *)
Lemma total_by_options (opts : list string) (m : gmap string Z) :
  NoDup opts →
  (∀ o, o ∈ opts ↔ is_Some (m !! o)) →
  Zsum (map_to_list m).*2 = Zsum ((λ o, default 0 (m !! o)) <$> opts).
Proof.
  revert m. induction opts as [|o opts IH]; intros m Hnd Hdom.
  - assert (m = ∅) as ->.
    { apply map_eq. intros k. rewrite lookup_empty.
      apply eq_None_not_Some. rewrite <- Hdom. apply not_elem_of_nil. }
    by rewrite map_to_list_empty.
  - apply NoDup_cons in Hnd as [Ho Hnd].
    destruct (proj1 (Hdom o) ltac:(by left)) as [n Hn].
    rewrite (total_delete m o n Hn), (IH (delete o m) Hnd).
    + rewrite fmap_cons, Hn. unfold Zsum at 2. simpl. f_equal.
      f_equal. apply list_fmap_ext. intros idx x Hx.
      rewrite lookup_delete_ne; [done|].
      intros Heq. subst x. apply Ho. by eapply list_elem_of_lookup_2.
    + intros x. rewrite lookup_delete_is_Some, <- Hdom, elem_of_cons.
      split; [intros Hx; split; [by intros <-|by right]|].
      intros [Hne [?|?]]; congruence.
Qed.

(** ** Construction *)

Lemma zeroed_lookup (opts : list string) (acc : gmap string Z) (k : string) :
  foldl Poll.zero acc opts !! k
  = if bool_decide (k ∈ opts ∧ k ≠ "__proto__") then Some 0 else acc !! k.
Proof.
  revert acc. induction opts as [|o opts IH]; intros acc; simpl; [done|].
  rewrite IH. clear IH. unfold Poll.zero.
  case_bool_decide as Hopts.
  { rewrite bool_decide_eq_true_2; [done|].
    destruct Hopts. split; [by right|done]. }
  destruct (decide (k = o)) as [->|Hne].
  - case_bool_decide as Ho.
    + rewrite bool_decide_eq_false_2; [done|]. by intros [_ ?].
    + rewrite lookup_insert_eq, bool_decide_eq_true_2; [done|].
      split; [by left|done].
  - rewrite (bool_decide_eq_false_2 (k ∈ o :: opts ∧ k ≠ "__proto__")).
    + case_bool_decide; [done|by rewrite lookup_insert_ne].
    + intros [[?|?]%elem_of_cons ?]; [done|]. by apply Hopts.
Qed.

Lemma Zsum_zero {A : Type} (f : A → Z) (l : list A) :
  (∀ x, x ∈ l → f x = 0) → Zsum (f <$> l) = 0.
Proof.
  induction l as [|x l IH]; intros Hl; [done|].
  rewrite fmap_cons. unfold Zsum in *. simpl.
  rewrite IH by (intros y Hy; apply Hl; by right).
  rewrite Hl by (by left). done.
Qed.

(** The options that have a counter. *)
Lemma counters_kept_filter (this : Poll.Instance) (o : string) :
  counters_kept this →
  o ∈ filter (λ o, o ≠ "__proto__") (Poll._options this)
  ↔ is_Some (Poll._votes this !! o).
Proof.
  intros [_ Hdom]. rewrite list_elem_of_filter, Hdom. tauto.
Qed.

(** [totalVotes] is the sum of the counters of the options that have
    one. *)
Lemma total_kept (this : Poll.Instance) :
  counters_kept this →
  Poll.totalVotes (Poll.getResults this)
  = Zsum ((λ o, default 0 (Poll._votes this !! o))
            <$> filter (λ o, o ≠ "__proto__") (Poll._options this)).
Proof.
  intros Hk. unfold Poll.getResults. simpl. rewrite Zsum_foldl, Z.add_0_l.
  apply total_by_options.
  - apply NoDup_filter, Hk.
  - intros o. by apply counters_kept_filter.
Qed.

(** The counts that [getResults] lists are the counters of the options
    that have one. *)
Lemma counts_of_results (this : Poll.Instance) :
  counters_kept this →
  omap count_of (Poll.results (Poll.getResults this)).*2
  = (λ o, default 0 (Poll._votes this !! o))
      <$> filter (λ o, o ≠ "__proto__") (Poll._options this).
Proof.
  intros [_ Hdom]. unfold Poll.getResults. simpl.
  rewrite <- list_fmap_compose.
  assert (∀ o, o ∈ Poll._options this →
               o ∈ Poll._options this) as Hsub by done.
  revert Hsub. generalize (Poll._options this) at 1 3 4.
  induction l as [|o l IH]; intros Hsub; [done|].
  rewrite fmap_cons. cbn [omap list_omap]. simpl.
  rewrite filter_cons.
  assert (∀ x, x ∈ l → x ∈ Poll._options this) as Hl
    by (intros x Hx; apply Hsub; by right).
  destruct (decide (o ≠ "__proto__")) as [Ho|Ho].
  - destruct (proj2 (Hdom o)) as [n Hn]; [split; [apply Hsub; by left|done]|].
    rewrite (Object_get_Some _ _ _ Hn), fmap_cons, Hn. simpl. f_equal.
    by apply IH.
  - apply dec_stable in Ho as ->.
    assert (Poll._votes this !! "__proto__" = None) as Hnone.
    { apply eq_None_not_Some. rewrite Hdom. by intros [_ ?]. }
    unfold Object_get. rewrite Hnone. simpl. by apply IH.
Qed.

(** An instance without the option [__proto__] has a counter for every
    option. *)
Lemma counters_kept_match (this : Poll.Instance) :
  counters_kept this →
  "__proto__" ∉ Poll._options this →
  counters_match this.
Proof.
  intros [Hnd Hdom] Hproto. split; [done|]. intros o. rewrite Hdom.
  split; [|by intros [? _]]. intros Ho. split; [done|]. by intros ->.
Qed.

Lemma strings_of_strings (opts : list JsValue) :
  forallb is_string opts = true → JStr <$> strings opts = opts.
Proof.
  induction opts as [|v opts IH]; [done|]. cbn [forallb].
  intros [Hv Hopts]%andb_true_iff. destruct v as [| | | |s| |]; try done.
  change (strings (JStr s :: opts)) with (s :: strings opts).
  rewrite fmap_cons. by rewrite IH.
Qed.

(** What the constructor builds once the validation has passed. *)
Lemma constructor_valid
    (policy : Poll.Policy) (id question options : JsValue) :
  Poll.validateInputs policy question options = Ok () →
  ∃ (q : string) (opts : list string),
    question = JStr q ∧ options = JArr (JStr <$> opts)
    ∧ trim q ≠ ""
    ∧ (2 ≤ length opts)%nat
    ∧ NoDup (Poll.normalize policy <$> opts)
    ∧ Forall (λ o, o ≠ "") (Poll.normalize policy <$> opts)
    ∧ Poll.constructor policy id question options
      = Ok {| Poll._id := id;
              Poll._question := Poll.normalize policy q;
              Poll._options := Poll.normalize policy <$> opts;
              Poll._votes := foldl Poll.zero ∅
                               (Poll.normalize policy <$> opts) |}.
Proof.
  intros Hv. unfold Poll.constructor. rewrite Hv. simpl.
  unfold Poll.validateInputs in Hv.
  destruct question as [| | | |q| |]; try discriminate.
  destruct (is_empty (trim q)) eqn:Hq; try discriminate. simpl in Hv.
  destruct options as [| | | | |opts|]; try discriminate.
  destruct (length opts <? 2)%nat eqn:Hlen; try discriminate.
  destruct (forallb is_string opts) eqn:Hstr; try discriminate.
  simpl in Hv. rewrite (normalizeAll_strings _ _ Hstr) in *. simpl in *.
  rewrite Set_size_test in Hv.
  destruct (decide (NoDup (Poll.normalize policy <$> strings opts)))
    as [Hnd|Hnd]; [|by rewrite bool_decide_eq_false_2 in Hv].
  rewrite bool_decide_eq_true_2 in Hv by done. simpl in Hv.
  destruct (existsb is_empty (Poll.normalize policy <$> strings opts))
    eqn:Hempty; try discriminate.
  exists q, (strings opts). split_and!; try done.
  - by rewrite strings_of_strings.
  - by apply is_empty_false.
  - apply Nat.ltb_ge in Hlen.
    rewrite <- (length_fmap JStr), strings_of_strings; done.
  - apply Forall_forall. intros o Ho. apply is_empty_false.
    apply not_true_iff_false. intros Ht.
    assert (existsb is_empty (Poll.normalize policy <$> strings opts) = true)
      as Hex; [|congruence].
    apply existsb_exists. exists o. split; [|done].
    by apply list_elem_of_In.
Qed.

(** The counters of a constructed instance. *)
Lemma constructor_counters
    (policy : Poll.Policy) (id : JsValue) (q : string) (opts : list string) :
  NoDup (Poll.normalize policy <$> opts) →
  let this := {| Poll._id := id; Poll._question := Poll.normalize policy q;
                 Poll._options := Poll.normalize policy <$> opts;
                 Poll._votes := foldl Poll.zero ∅
                                  (Poll.normalize policy <$> opts) |} in
  (∀ o, Poll._votes this !! o
        = if bool_decide (o ∈ Poll._options this ∧ o ≠ "__proto__")
          then Some 0 else None)
  ∧ counters_kept this
  ∧ Poll.totalVotes (Poll.getResults this) = 0.
Proof.
  intros Hnd this.
  assert (∀ o, Poll._votes this !! o
               = if bool_decide (o ∈ Poll._options this ∧ o ≠ "__proto__")
                 then Some 0 else None) as Hlookup.
  { intros o. unfold this. simpl. by rewrite zeroed_lookup, lookup_empty. }
  assert (counters_kept this) as Hkept.
  { split; [done|]. intros o. rewrite Hlookup.
    case_bool_decide; split; try done; try (by eexists); by intros [? ?]. }
  split_and!; try done.
  rewrite (total_kept _ Hkept). apply Zsum_zero. intros o Ho.
  apply list_elem_of_filter in Ho as [Ho Hin].
  by rewrite Hlookup, bool_decide_eq_true_2.
Qed.

(** Once the validation has passed, the constructor returns an instance
    with the given id, the normalised question, and the normalised
    options in their order, as many as were given, pairwise distinct and
    none empty.  Every option other than [__proto__] has a counter at
    zero and nothing else has a counter: the assignment
    [this.#votes[option] = 0] stores nothing under [__proto__].  The
    total is zero, and the results list the options in their order, each
    with the count zero, except that the entry of an option [__proto__]
    holds the inherited object instead of a count. *)
Theorem constructor_builds_zeroed_poll
    (policy : Poll.Policy) (id question options : JsValue) :
  Poll.validateInputs policy question options = Ok () →
  ∃ (this : Poll.Instance) (q : string) (opts : list string),
    Poll.constructor policy id question options = Ok this
    ∧ question = JStr q ∧ options = JArr (JStr <$> opts)
    ∧ Poll._id this = id
    ∧ Poll._question this = Poll.normalize policy q
    ∧ Poll._options this = Poll.normalize policy <$> opts
    ∧ length (Poll._options this) = length (elements_of options)
    ∧ counters_kept this
    ∧ Forall (λ o, o ≠ "") (Poll._options this)
    ∧ (∀ o, Poll._votes this !! o
            = if bool_decide (o ∈ Poll._options this ∧ o ≠ "__proto__")
              then Some 0 else None)
    ∧ Poll.totalVotes (Poll.getResults this) = 0
    ∧ Poll.results (Poll.getResults this)
      = (λ o, (o, if bool_decide (o = "__proto__")
                  then Inherited "__proto__" else Own 0))
          <$> Poll._options this.
Proof.
  intros Hv.
  destruct (constructor_valid policy id question options Hv)
    as (q & opts & -> & -> & Hq & Hlen & Hnd & Hne & Hc).
  destruct (constructor_counters policy id q opts Hnd)
    as (Hlookup & Hkept & Hzero).
  eexists _, q, opts. split; [exact Hc|].
  split_and!; try done.
  - simpl. by rewrite !length_fmap.
  - unfold Poll.getResults. cbn [Poll.results Poll._options].
    apply list_fmap_ext. intros idx o Ho. f_equal.
    unfold Object_get. rewrite Hlookup.
    cbn [Poll._options]. destruct (decide (o = "__proto__")) as [->|Hp].
    + by rewrite bool_decide_eq_false_2 by (by intros [_ ?]).
    + rewrite bool_decide_eq_true_2
        by (split; [by eapply list_elem_of_lookup_2|done]).
      by rewrite (bool_decide_eq_false_2 (o = "__proto__")).
Qed.

Lemma constructor_builds_zeroed_poll_witness :
  Poll.validateInputs Poll.CaseInsensitive (JStr " Tea or Coffee? ")
    (JArr [JStr " Tea"; JStr "COFFEE "]) = Ok ()
  ∧ ∃ this : Poll.Instance,
      Poll.constructor Poll.CaseInsensitive (JNum (Int 1))
        (JStr " Tea or Coffee? ") (JArr [JStr " Tea"; JStr "COFFEE "])
      = Ok this
      ∧ Poll._options this = ["tea"; "coffee"]
      ∧ Poll.totalVotes (Poll.getResults this) = 0.
Proof.
  assert (Poll.validateInputs Poll.CaseInsensitive (JStr " Tea or Coffee? ")
            (JArr [JStr " Tea"; JStr "COFFEE "]) = Ok ()) as Hv
    by reflexivity.
  split; [exact Hv|].
  destruct (constructor_builds_zeroed_poll Poll.CaseInsensitive
              (JNum (Int 1)) _ _ Hv)
    as (this & q & opts & Hc & _ & Ho & _ & _ & Hopts & _ & _ & _ & _ & Ht & _).
  exists this. split; [exact Hc|]. split; [|exact Ht].
  injection Ho as Ho. rewrite Hopts.
  assert (opts = [" Tea"; "COFFEE "]) as ->.
  { destruct opts as [|a [|b [|c l]]]; try discriminate.
    by injection Ho as -> ->. }
  reflexivity.
Defined.

(** What the later proofs need of a constructed instance. *)
Lemma constructor_builds_zeroed_poll_aux
    (policy : Poll.Policy) (id question options : JsValue) :
  Poll.validateInputs policy question options = Ok () →
  ∃ this : Poll.Instance,
    Poll.constructor policy id question options = Ok this
    ∧ counters_kept this
    ∧ Poll.totalVotes (Poll.getResults this) = 0.
Proof.
  intros Hv.
  destruct (constructor_valid policy id question options Hv)
    as (q & opts & -> & -> & Hq & Hlen & Hnd & Hne & Hc).
  destruct (constructor_counters policy id q opts Hnd)
    as (Hlookup & Hkept & Hzero).
  eexists. by split; [exact Hc|].
Qed.

(** ** Voting on an instance *)

Lemma vote_by_key (policy : Poll.Policy) (this : Poll.Instance)
    (ballot : JsValue) :
  Poll.vote policy this ballot
  = match ballot_key policy ballot with
    | Some key =>
        if bool_decide (key ∈ Poll._options this)
        then Poll.increment this key
        else Poll.InvalidPollOption ballot
    | None =>
        match policy with
        | Poll.CaseSensitive => Poll.InvalidPollOption ballot
        | Poll.CaseInsensitive => Poll.VoteTypeError
        end
    end.
Proof. by destruct policy, ballot. Qed.

(** A call of [vote] that returns a count raised one counter of an
    option by one and returns that counter; the sum of the counters grew
    by one. *)
Lemma vote_counted (policy : Poll.Policy) (this this' : Poll.Instance)
    (ballot : JsValue) (count : Z) :
  Poll.vote policy this ballot = Poll.Counted count this' →
  ∃ key n,
    ballot_key policy ballot = Some key
    ∧ key ∈ Poll._options this
    ∧ Poll._votes this !! key = Some n
    ∧ count = n + 1
    ∧ this' = {| Poll._id := Poll._id this;
                 Poll._question := Poll._question this;
                 Poll._options := Poll._options this;
                 Poll._votes := <[key := n + 1]> (Poll._votes this) |}
    ∧ Poll.totalVotes (Poll.getResults this')
      = Poll.totalVotes (Poll.getResults this) + 1.
Proof.
  rewrite vote_by_key.
  destruct (ballot_key policy ballot) as [key|]; [|by destruct policy].
  case_bool_decide as Hin; [|done]. unfold Poll.increment.
  destruct (Poll._votes this !! key) as [n|] eqn:Hn; [|done].
  intros [= <- <-]. exists key, n. split_and!; try done.
  unfold Poll.getResults. simpl. rewrite !Zsum_foldl.
  rewrite (total_insert _ _ n) by done. lia.
Qed.

(** Raising a counter that exists keeps both invariants. *)
Lemma raised_counters_match (this : Poll.Instance) (key : string) (n v : Z) :
  Poll._votes this !! key = Some n →
  counters_match this →
  counters_match {| Poll._id := Poll._id this;
                    Poll._question := Poll._question this;
                    Poll._options := Poll._options this;
                    Poll._votes := <[key := v]> (Poll._votes this) |}.
Proof.
  intros Hn [Hnd Hdom]. split; [done|]. intros o. simpl.
  rewrite lookup_insert_is_Some, <- Hdom.
  split; [intros Ho; destruct (decide (key = o)); [by left|by right]|].
  intros [<-|[_ Ho]]; [|done]. apply Hdom. by eexists.
Qed.

Lemma raised_counters_kept (this : Poll.Instance) (key : string) (n v : Z) :
  Poll._votes this !! key = Some n →
  counters_kept this →
  counters_kept {| Poll._id := Poll._id this;
                   Poll._question := Poll._question this;
                   Poll._options := Poll._options this;
                   Poll._votes := <[key := v]> (Poll._votes this) |}.
Proof.
  intros Hn [Hnd Hdom]. split; [done|]. intros o. simpl.
  rewrite lookup_insert_is_Some, Hdom.
  split; [|intros Ho; destruct (decide (key = o)); [by left|by right]].
  intros [<-|[_ Ho]]; [|done]. apply Hdom. by eexists.
Qed.

(** A call of [vote] returns NaN only for the option [__proto__], and
    then the instance is as it was. *)
Lemma vote_NaN (policy : Poll.Policy) (this : Poll.Instance)
    (ballot : JsValue) :
  counters_kept this →
  Poll.vote policy this ballot = Poll.CountedNaN →
  ballot_key policy ballot = Some "__proto__"
  ∧ "__proto__" ∈ Poll._options this.
Proof.
  intros [_ Hdom]. rewrite vote_by_key.
  destruct (ballot_key policy ballot) as [key|]; [|by destruct policy].
  case_bool_decide as Hin; [|done]. unfold Poll.increment.
  destruct (Poll._votes this !! key) as [n|] eqn:Hn; [done|]. intros _.
  destruct (decide (key = "__proto__")) as [->|Hne]; [done|].
  assert (is_Some (Poll._votes this !! key)) as [n Hn']
    by (by apply Hdom).
  congruence.
Qed.

(** On an instance whose counters are those of its options, [vote]
    returns exactly when the ballot is a string whose lookup text (the
    string itself in [src/poll.js], its trimmed lower-case form in the
    sibling) is one of the options: the counter of that option and the
    total grow by one, the new counter is returned, and nothing else
    changes.  Otherwise [vote] throws and there is no new state. *)
Theorem Poll_vote_counts_one
    (policy : Poll.Policy) (this : Poll.Instance) (ballot : JsValue) :
  counters_match this →
  match ballot_key policy ballot with
  | Some key =>
      if decide (key ∈ Poll._options this)
      then ∃ (n : Z) (this' : Poll.Instance),
             Poll._votes this !! key = Some n
             ∧ Poll.vote policy this ballot = Poll.Counted (n + 1) this'
             ∧ Poll._votes this' = <[key := n + 1]> (Poll._votes this)
             ∧ Poll._options this' = Poll._options this
             ∧ Poll._question this' = Poll._question this
             ∧ Poll._id this' = Poll._id this
             ∧ counters_match this'
             ∧ Poll.totalVotes (Poll.getResults this')
               = Poll.totalVotes (Poll.getResults this) + 1
      else Poll.vote policy this ballot = Poll.InvalidPollOption ballot
  | None =>
      Poll.vote policy this ballot
      = match policy with
        | Poll.CaseSensitive => Poll.InvalidPollOption ballot
        | Poll.CaseInsensitive => Poll.VoteTypeError
        end
  end.
Proof.
  intros Hmatch. pose proof Hmatch as [Hnd Hdom]. rewrite vote_by_key.
  destruct (ballot_key policy ballot) as [key|] eqn:Hkey; [|done].
  destruct (decide (key ∈ Poll._options this)) as [Hin|Hin].
  - rewrite bool_decide_eq_true_2 by done.
    destruct (proj1 (Hdom key) Hin) as [n Hn].
    assert (Poll.vote policy this ballot
            = Poll.Counted (n + 1)
                {| Poll._id := Poll._id this;
                   Poll._question := Poll._question this;
                   Poll._options := Poll._options this;
                   Poll._votes := <[key := n + 1]> (Poll._votes this) |})
      as Hvote.
    { rewrite vote_by_key, Hkey, bool_decide_eq_true_2 by done.
      unfold Poll.increment. by rewrite Hn. }
    destruct (vote_counted policy this _ ballot _ Hvote)
      as (key' & n' & _ & _ & _ & _ & _ & Htotal).
    exists n, {| Poll._id := Poll._id this;
                 Poll._question := Poll._question this;
                 Poll._options := Poll._options this;
                 Poll._votes := <[key := n + 1]> (Poll._votes this) |}.
    split_and!; try done.
    + unfold Poll.increment. by rewrite Hn.
    + by eapply raised_counters_match.
  - by rewrite bool_decide_eq_false_2.
Qed.

Lemma Poll_vote_counts_one_witness :
  ∃ this : Poll.Instance,
    Poll.constructor Poll.CaseInsensitive (JNum (Int 1)) (JStr "Q?")
      (JArr [JStr "Yes"; JStr "No"]) = Ok this
    ∧ counters_match this
    ∧ ∃ this' : Poll.Instance,
        Poll.vote Poll.CaseInsensitive this (JStr " YES ")
        = Poll.Counted 1 this'
        ∧ Poll.totalVotes (Poll.getResults this')
          = Poll.totalVotes (Poll.getResults this) + 1.
Proof.
  destruct (constructor_builds_zeroed_poll_aux Poll.CaseInsensitive
              (JNum (Int 1)) (JStr "Q?") (JArr [JStr "Yes"; JStr "No"])
              eq_refl) as (this & Hc & Hk & _).
  exists this. split; [exact Hc|].
  assert (counters_match this) as Hm.
  { apply counters_kept_match; [exact Hk|]. injection Hc as <-.
    simpl. by intros [[=]|[[=]|?%elem_of_nil]%elem_of_cons]%elem_of_cons. }
  split; [exact Hm|].
  pose proof (Poll_vote_counts_one Poll.CaseInsensitive this (JStr " YES ")
                Hm) as H.
  injection Hc as <-.
  destruct H as (n & this' & Hn & Hv & _ & _ & _ & _ & _ & Ht).
  exists this'. injection Hn as <-. split; [exact Hv|exact Ht].
Defined.

(** ** Results after any sequence of ballots *)

Lemma tally_invariant (policy : Poll.Policy) (this : Poll.Instance)
    (ballots : list JsValue) :
  counters_kept this →
  counters_kept (tally policy this ballots).2
  ∧ Poll._options (tally policy this ballots).2 = Poll._options this
  ∧ Poll._question (tally policy this ballots).2 = Poll._question this
  ∧ Poll.totalVotes (Poll.getResults (tally policy this ballots).2)
    = Poll.totalVotes (Poll.getResults this)
      + Z.of_nat (tally policy this ballots).1.
Proof.
  revert this. induction ballots as [|ballot ballots IH]; intros this Hm.
  { simpl. split_and!; try done. lia. }
  simpl. destruct (Poll.vote policy this ballot) as [c this'| | |] eqn:Hv;
    try (by apply IH).
  destruct (vote_counted policy this this' ballot c Hv)
    as (key & n & _ & _ & Hn & _ & -> & Ht).
  pose proof (raised_counters_kept this key n (n + 1) Hn Hm) as Hm'.
  destruct (IH _ Hm') as (H1 & H2 & H3 & H4).
  destruct (tally policy _ ballots) as [k final]. simpl in *.
  split_and!; try done. lia.
Qed.

(** For a poll built by the constructor and any sequence of calls of
    [vote], failed ones included: [getResults] lists the options in
    their order, each with its counter, except that the entry of an
    option [__proto__], which has no counter, holds the inherited
    object; [totalVotes] is the number of calls that returned a count
    (a vote for [__proto__] returns NaN and counts nothing), and it is
    the sum of the listed counts. *)
Theorem getResults_adds_up
    (policy : Poll.Policy) (id question options : JsValue)
    (this : Poll.Instance) (ballots : list JsValue) :
  Poll.constructor policy id question options = Ok this →
  let final := (tally policy this ballots).2 in
  (Poll.results (Poll.getResults final)).*1 = Poll._options this
  ∧ Forall (λ entry,
              if decide (entry.1 = "__proto__")
              then entry.2 = Inherited "__proto__"
              else ∃ n : Z, entry.2 = Own n
                            ∧ Poll._votes final !! entry.1 = Some n)
      (Poll.results (Poll.getResults final))
  ∧ Poll.results_question (Poll.getResults final) = Poll._question this
  ∧ Poll.totalVotes (Poll.getResults final)
    = Z.of_nat (tally policy this ballots).1
  ∧ Zsum (omap count_of (Poll.results (Poll.getResults final)).*2)
    = Poll.totalVotes (Poll.getResults final).
Proof.
  intros Hc.
  assert (Poll.validateInputs policy question options = Ok ()) as Hv.
  { unfold Poll.constructor in Hc.
    destruct (Poll.validateInputs policy question options) as [[]|e];
      [done|discriminate]. }
  destruct (constructor_builds_zeroed_poll_aux policy id question options Hv)
    as (this0 & Hc0 & Hm & Hzero).
  rewrite Hc0 in Hc. injection Hc as ->.
  destruct (tally_invariant policy this ballots Hm) as (Hm' & Ho & Hq & Ht).
  set (final := (tally policy this ballots).2) in *.
  cbv zeta. split_and!.
  - rewrite <- Ho. unfold Poll.getResults. simpl.
    rewrite <- list_fmap_compose. apply list_fmap_id.
  - unfold Poll.getResults. simpl. apply Forall_fmap, Forall_forall.
    intros o Hin. simpl. destruct Hm' as [_ Hdom].
    destruct (decide (o = "__proto__")) as [->|Hne].
    + assert (Poll._votes final !! "__proto__" = None) as Hnone.
      { apply eq_None_not_Some. rewrite Hdom. by intros [_ ?]. }
      unfold Object_get. by rewrite Hnone.
    + destruct (proj2 (Hdom o) (conj Hin Hne)) as [n Hn].
      exists n. by rewrite (Object_get_Some _ _ _ Hn).
  - done.
  - rewrite Ht, Hzero. lia.
  - by rewrite (counts_of_results _ Hm'), (total_kept _ Hm').
Qed.

Lemma getResults_adds_up_witness :
  ∃ this : Poll.Instance,
    Poll.constructor Poll.CaseSensitive (JNum (Int 1)) (JStr "Q?")
      (JArr [JStr "Yes"; JStr "__proto__"]) = Ok this
    ∧ let final :=
        (tally Poll.CaseSensitive this
           [JStr "Yes"; JStr " Yes"; JStr "__proto__"; JNull; JStr "Yes"]).2 in
      (Poll.results (Poll.getResults final)).*1 = ["Yes"; "__proto__"]
      ∧ Poll.totalVotes (Poll.getResults final) = 2
      ∧ Zsum (omap count_of (Poll.results (Poll.getResults final)).*2)
        = Poll.totalVotes (Poll.getResults final).
Proof.
  eexists. split; [reflexivity|].
  match goal with |- let final := (tally _ ?t ?b).2 in _ =>
    pose proof (getResults_adds_up Poll.CaseSensitive (JNum (Int 1))
                  (JStr "Q?") (JArr [JStr "Yes"; JStr "__proto__"]) t b
                  eq_refl) as H
  end.
  cbv zeta in H. destruct H as (H1 & _ & _ & H4 & H5). cbv zeta.
  split; [exact H1|]. split; [exact H4|exact H5].
Defined.

(** * Properties of the poll manager *)

Lemma constructor_Ok_inv
    (policy : Poll.Policy) (id question options : JsValue)
    (this : Poll.Instance) :
  Poll.constructor policy id question options = Ok this →
  Poll._id this = id
  ∧ counters_kept this
  ∧ Poll.totalVotes (Poll.getResults this) = 0
  ∧ ∃ s, question = JStr s ∧ Poll._question this = Poll.normalize policy s.
Proof.
  intros Hc.
  assert (Poll.validateInputs policy question options = Ok ()) as Hv.
  { unfold Poll.constructor in Hc.
    destruct (Poll.validateInputs policy question options) as [[]|e];
      [done|discriminate]. }
  destruct (constructor_builds_zeroed_poll_aux policy id question options Hv)
    as (this0 & Hc0 & Hm & Hzero).
  destruct (constructor_valid policy id question options Hv)
    as (q & opts & -> & _ & _ & _ & _ & _ & Hc1).
  rewrite Hc0 in Hc. injection Hc as ->. rewrite Hc1 in Hc0.
  injection Hc0 as <-. split_and!; try done. by exists q.
Qed.

Lemma hasDuplicateQuestion_string
    (policy : Poll.Policy) (this : PollManager.Manager) (s : string) :
  ∃ b : bool,
    PollManager.hasDuplicateQuestion policy this (JStr s) = inr b
    ∧ (b = true
       ↔ ∃ n p, PollManager._polls this !! n = Some p
                ∧ PollManager.question_of policy p
                  = Some (toLowerCase (trim s))).
Proof.
  unfold PollManager.hasDuplicateQuestion.
  destruct (map_to_list (PollManager._polls this)).*2 as [|p0 l] eqn:Hl.
  - exists false. split; [done|]. split; [done|].
    intros (n & p & Hp & _). apply elem_of_map_to_list in Hp.
    assert (p ∈ (map_to_list (PollManager._polls this)).*2) as Hin.
    { apply list_elem_of_fmap. by exists (n, p). }
    rewrite Hl in Hin. by apply elem_of_nil in Hin.
  - eexists. split; [reflexivity|]. rewrite <- Hl.
    rewrite existsb_exists. split.
    + intros (p & Hin & Hq). apply list_elem_of_In in Hin.
      apply list_elem_of_fmap in Hin as ([n p'] & -> & Hin).
      apply elem_of_map_to_list in Hin. exists n, p'. split; [done|].
      by apply bool_decide_eq_true in Hq.
    + intros (n & p & Hp & Hq). exists p. split.
      * apply list_elem_of_In, list_elem_of_fmap. exists (n, p).
        split; [done|]. by apply elem_of_map_to_list.
      * by apply bool_decide_eq_true.
Qed.

(** The four ways in which [createPoll] can end. *)
Lemma manager_createPoll_cases
    (policy : Poll.Policy) (this : PollManager.Manager)
    (question options : JsValue) :
  PollManager.createPoll policy this question options
    = (inl PollManager.ManagerTypeError, this)
  ∨ (∃ s n p,
       question = JStr s
       ∧ PollManager._polls this !! n = Some p
       ∧ PollManager.question_of policy p = Some (toLowerCase (trim s))
       ∧ PollManager.createPoll policy this question options
         = (inl PollManager.DuplicateQuestion, this))
  ∨ (∃ e,
       Poll.constructor policy (JNum (Int (PollManager._counter this)))
         question options = Throw e
       ∧ PollManager.createPoll policy this question options
         = (inl (PollManager.Construction e),
            {| PollManager._polls := PollManager._polls this;
               PollManager._counter := PollManager._counter this + 1 |}))
  ∨ (∃ poll s,
       Poll.constructor policy (JNum (Int (PollManager._counter this)))
         question options = Ok poll
       ∧ question = JStr s
       ∧ (∀ n p, PollManager._polls this !! n = Some p →
                 PollManager.question_of policy p
                 ≠ Some (toLowerCase (trim s)))
       ∧ PollManager.createPoll policy this question options
         = (inr (PollManager._counter this),
            {| PollManager._polls :=
                 <[PollManager._counter this := poll]>
                   (PollManager._polls this);
               PollManager._counter := PollManager._counter this + 1 |})).
Proof.
  unfold PollManager.createPoll.
  destruct (PollManager.hasDuplicateQuestion policy this question)
    as [e|b] eqn:Hdup.
  { left. unfold PollManager.hasDuplicateQuestion in Hdup.
    destruct (map_to_list (PollManager._polls this)).*2; [discriminate|].
    destruct question; try discriminate; by injection Hdup as <-. }
  destruct b.
  { right. left. unfold PollManager.hasDuplicateQuestion in Hdup.
    destruct question as [| | | |s| |];
      try (destruct (map_to_list (PollManager._polls this)).*2;
           discriminate).
    destruct (hasDuplicateQuestion_string policy this s) as (b & Hb & Hiff).
    unfold PollManager.hasDuplicateQuestion in Hb. rewrite Hdup in Hb.
    injection Hb as <-. destruct (proj1 Hiff eq_refl) as (n & p & Hp & Hq).
    by exists s, n, p. }
  right. right. simpl.
  destruct (Poll.constructor policy (JNum (Int (PollManager._counter this)))
              question options) as [poll|e] eqn:Hc.
  - right. destruct (constructor_Ok_inv _ _ _ _ _ Hc)
      as (_ & _ & _ & s & -> & _).
    exists poll, s. split_and!; try done.
    intros n p Hp Hq.
    destruct (hasDuplicateQuestion_string policy this s) as (b & Hb & Hiff).
    rewrite Hdup in Hb. injection Hb as <-.
    assert (false = true); [|done]. apply Hiff. by exists n, p.
  - left. by exists e.
Qed.

(** The three ways in which [vote] can end. *)
Lemma manager_vote_cases
    (policy : Poll.Policy) (this : PollManager.Manager)
    (pollId ballot : JsValue) :
  (∃ e, PollManager.vote policy this pollId ballot = (inl e, this))
  ∨ (∃ n p,
       pollId = JNum (Int n)
       ∧ PollManager._polls this !! n = Some p
       ∧ Poll.vote policy p ballot = Poll.CountedNaN
       ∧ PollManager.vote policy this pollId ballot = (inr true, this))
  ∨ (∃ n p c p',
       pollId = JNum (Int n)
       ∧ PollManager._polls this !! n = Some p
       ∧ Poll.vote policy p ballot = Poll.Counted c p'
       ∧ PollManager.vote policy this pollId ballot
         = (inr true,
            {| PollManager._polls := <[n := p']> (PollManager._polls this);
               PollManager._counter := PollManager._counter this |})).
Proof.
  unfold PollManager.vote, PollManager.getPoll, PollManager.lookup_poll.
  destruct pollId as [| | |[n| | |]| | |]; try (left; by eexists).
  destruct (PollManager._polls this !! n) as [p|] eqn:Hp;
    [|left; by eexists].
  destruct (Poll.vote policy p ballot) as [c p'| | |] eqn:Hv;
    try (left; by eexists).
  - right. right. by exists n, p, c, p'.
  - right. left. by exists n, p.
Qed.

Lemma manager_after_ok (policy : Poll.Policy) (this : PollManager.Manager)
    (call : ManagerCall) :
  manager_ok this → manager_ok (manager_after policy this call).
Proof.
  intros [Hc Hok]. destruct call as [q o|pollId ballot]; simpl.
  - destruct (manager_createPoll_cases policy this q o)
      as [H|[(s & n & p & _ & _ & _ & H)|[(e & _ & H)
         |(poll & s & Hcons & _ & _ & H)]]]; rewrite H; simpl.
    + by split.
    + by split.
    + split; simpl; [lia|]. intros n p Hp.
      destruct (Hok n p Hp) as (? & ? & ?). split_and!; try done; lia.
    + split; simpl; [lia|]. intros n p. rewrite lookup_insert_Some.
      intros [[<- <-]|[_ Hp]].
      * destruct (constructor_Ok_inv _ _ _ _ _ Hcons) as (Hid & Hm & _).
        split_and!; try done; lia.
      * destruct (Hok n p Hp) as (? & ? & ?). split_and!; try done; lia.
  - destruct (manager_vote_cases policy this pollId ballot)
      as [[e H]|[(n & p & _ & _ & _ & H)
                |(n & p & c & p' & _ & Hp & Hv & H)]]; rewrite H; simpl.
    + by split.
    + by split.
    + split; [done|]. intros k x. simpl. rewrite lookup_insert_Some.
      intros [[<- <-]|[_ Hx]]; [|by apply Hok].
      destruct (Hok n p Hp) as (Hn & Hid & Hm).
      destruct (vote_counted policy p p' ballot c Hv)
        as (key & cnt & _ & _ & Hcnt & _ & -> & _).
      split_and!; simpl; try done; try lia.
      by eapply raised_counters_kept.
Qed.

Lemma manager_after_distinct (this : PollManager.Manager)
    (call : ManagerCall) :
  manager_ok this →
  distinct_questions this →
  distinct_questions (manager_after Poll.CaseInsensitive this call).
Proof.
  intros [Hc Hok] Hd. destruct call as [q o|pollId ballot]; simpl.
  - destruct (manager_createPoll_cases Poll.CaseInsensitive this q o)
      as [H|[(s & n & p & _ & _ & _ & H)|[(e & _ & H)
         |(poll & s & Hcons & Hq & Hfresh & H)]]]; rewrite H; simpl;
      try done.
    destruct (constructor_Ok_inv _ _ _ _ _ Hcons)
      as (_ & _ & _ & s' & Hs & Hquestion).
    rewrite Hq in Hs. injection Hs as <-.
    intros n n' p p'. simpl. rewrite !lookup_insert_Some.
    intros [[<- <-]|[Hn Hp]] [[<- <-]|[Hn' Hp']] Heq; try done.
    + exfalso. apply (Hfresh n' p' Hp'). simpl.
      by rewrite <- Heq, Hquestion.
    + exfalso. apply (Hfresh n p Hp). simpl. by rewrite Heq, Hquestion.
    + by eapply Hd.
  - destruct (manager_vote_cases Poll.CaseInsensitive this pollId ballot)
      as [[e H]|[(k & x & _ & _ & _ & H)
                |(k & x & c & x' & _ & Hx & Hv & H)]]; rewrite H; simpl;
      [done..|].
    destruct (vote_counted _ x x' ballot c Hv)
      as (key & cnt & _ & _ & _ & _ & -> & _).
    intros n n' p p'. simpl. rewrite !lookup_insert_Some.
    intros [[<- <-]|[Hn Hp]] [[<- <-]|[Hn' Hp']] Heq; try done; simpl in *.
    + by eapply Hd.
    + by eapply Hd.
    + by eapply Hd.
Qed.

Lemma manager_reachable_ok (policy : Poll.Policy) (calls : list ManagerCall) :
  manager_ok (manager_after_all policy calls)
  ∧ (policy = Poll.CaseInsensitive →
     distinct_questions (manager_after_all policy calls)).
Proof.
  unfold manager_after_all.
  induction calls as [|call calls IH] using rev_ind.
  - split; [split; [simpl; lia|]|].
    + intros n p. cbn [foldl PollManager.constructor PollManager._polls].
      by rewrite lookup_empty.
    + intros _ n n' p p'.
      cbn [foldl PollManager.constructor PollManager._polls].
      by rewrite lookup_empty.
  - rewrite foldl_snoc. destruct IH as [Hok Hd]. split.
    + by apply manager_after_ok.
    + intros ->. apply manager_after_distinct; [done|by apply Hd].
Qed.

(** After any sequence of calls of [createPoll] and [vote] on a new
    manager, with any arguments and whether they return or throw: every
    poll is stored under its own id, all ids are at least 1 and below the
    counter, the options of every poll are pairwise distinct, and every
    poll has exactly the counters of its options other than [__proto__]
    (an option of that name never has a counter).  With the [Poll] class
    of the sibling file, no two polls have the same question. *)
Theorem manager_keeps_invariants
    (policy : Poll.Policy) (calls : list ManagerCall) :
  manager_ok (manager_after_all policy calls)
  ∧ (policy = Poll.CaseInsensitive →
     distinct_questions (manager_after_all policy calls)).
Proof. apply manager_reachable_ok. Qed.

(** In a manager reached from a new one by any calls, [createPoll] ends
    in one of three ways.  It returns the value of the counter, which
    keyed no poll before: the new poll is then found under that id with
    no votes, every other poll is untouched, and the list of polls is
    one longer.  Or the constructor of [Poll] throws: no poll is stored,
    but the counter has advanced, so that the id is never handed out.
    Or the duplicate check throws and the manager is unchanged. *)
Theorem manager_createPoll_ids_are_fresh
    (policy : Poll.Policy) (calls : list ManagerCall)
    (question options : JsValue) :
  let this := manager_after_all policy calls in
  match PollManager.createPoll policy this question options with
  | (inr id, this') =>
      id = PollManager._counter this
      ∧ PollManager._counter this' = id + 1
      ∧ PollManager._polls this !! id = None
      ∧ (∃ poll,
           PollManager.getPoll this' (JNum (Int id)) = inr poll
           ∧ Poll._id poll = JNum (Int id)
           ∧ Poll.totalVotes (Poll.getResults poll) = 0)
      ∧ (∀ n, n ≠ id →
              PollManager._polls this' !! n = PollManager._polls this !! n)
      ∧ length (PollManager.getAllPolls this')
        = S (length (PollManager.getAllPolls this))
  | (inl (PollManager.Construction e), this') =>
      PollManager._polls this' = PollManager._polls this
      ∧ PollManager._counter this' = PollManager._counter this + 1
  | (inl _, this') => this' = this
  end.
Proof.
  intros this.
  destruct (manager_reachable_ok policy calls) as [[Hc Hok] _].
  fold this in Hc, Hok.
  assert (PollManager._polls this !! PollManager._counter this = None)
    as Hfresh.
  { apply eq_None_not_Some. intros [p Hp].
    destruct (Hok _ p Hp) as (Hlt & _). lia. }
  destruct (manager_createPoll_cases policy this question options)
    as [H|[(s & n & p & _ & _ & _ & H)|[(e & _ & H)
       |(poll & s & Hcons & _ & _ & H)]]]; rewrite H; try done.
  destruct (constructor_Ok_inv _ _ _ _ _ Hcons) as (Hid & _ & Hzero & _).
  split_and!; try done.
  - exists poll. unfold PollManager.getPoll. simpl.
    rewrite lookup_insert_eq. by split_and!.
  - intros n Hn. simpl. by rewrite lookup_insert_ne.
  - unfold PollManager.getAllPolls. simpl.
    rewrite !length_fmap, !length_map_to_list.
    by rewrite map_size_insert_None.
Qed.

(** With the [Poll] class of the sibling file, [createPoll] refuses a
    question that, trimmed and lower-cased, is the question of a poll of
    the manager: it throws the duplicate-question error before an id is
    drawn and leaves the manager unchanged. *)
Theorem manager_rejects_duplicate_question
    (this : PollManager.Manager) (n : Z) (poll : Poll.Instance)
    (q : string) (options : JsValue) :
  PollManager._polls this !! n = Some poll →
  Poll._question poll = toLowerCase (trim q) →
  PollManager.createPoll Poll.CaseInsensitive this (JStr q) options
  = (inl PollManager.DuplicateQuestion, this).
Proof.
  intros Hp Hq. unfold PollManager.createPoll.
  destruct (hasDuplicateQuestion_string Poll.CaseInsensitive this q)
    as (b & -> & Hiff).
  assert (b = true) as ->; [|done].
  apply Hiff. exists n, poll. split; [done|]. simpl. by rewrite Hq.
Qed.

Lemma manager_rejects_duplicate_question_witness :
  ∃ (this : PollManager.Manager) (poll : Poll.Instance),
    PollManager.createPoll Poll.CaseInsensitive PollManager.constructor
      (JStr "Tea or coffee?") (JArr [JStr "Tea"; JStr "Coffee"])
    = (inr 1, this)
    ∧ PollManager._polls this !! 1 = Some poll
    ∧ Poll._question poll = toLowerCase (trim "  TEA or Coffee? ")
    ∧ PollManager.createPoll Poll.CaseInsensitive this
        (JStr "  TEA or Coffee? ") (JArr [JStr "Yes"; JStr "No"])
      = (inl PollManager.DuplicateQuestion, this).
Proof.
  eexists _, _. split; [reflexivity|].
  match goal with |- ?A ∧ ?B ∧ _ =>
    assert A as H1 by reflexivity; assert B as H2 by reflexivity
  end.
  split; [exact H1|]. split; [exact H2|].
  exact (manager_rejects_duplicate_question _ 1 _ "  TEA or Coffee? "
           (JArr [JStr "Yes"; JStr "No"]) H1 H2).
Defined.

(** With the [Poll] class of [src/poll.js], which has no [question]
    getter, the duplicate check of [createPoll] compares against
    [undefined] and never fires: [createPoll] never throws the
    duplicate-question error. *)
Theorem manager_never_detects_duplicates_without_getter
    (this : PollManager.Manager) (question options : JsValue) :
  (PollManager.createPoll Poll.CaseSensitive this question options).1
  ≠ inl PollManager.DuplicateQuestion.
Proof.
  destruct (manager_createPoll_cases Poll.CaseSensitive this question options)
    as [H|[(s & n & p & _ & _ & Hq & H)|[(e & _ & H)
       |(poll & s & _ & _ & _ & H)]]]; rewrite H; try done.
Qed.

(** In a manager reached from a new one by any calls, [vote] on an id
    that keys no poll throws the not-found error and changes nothing.
    When [vote] returns, it returns true and the results of every other
    poll are what they were; the total of the poll voted in has grown by
    one, unless the vote was for the option [__proto__] of a poll that
    has that option: then [vote] returns true all the same, and the
    manager is unchanged.  When [vote] throws, the manager is
    unchanged. *)
Theorem manager_vote_is_local
    (policy : Poll.Policy) (calls : list ManagerCall)
    (pollId ballot : JsValue) :
  let this := manager_after_all policy calls in
  match PollManager.vote policy this pollId ballot with
  | (inr result, this') =>
      result = true
      ∧ (∃ before after,
           PollManager.getResults this pollId = inr before
           ∧ PollManager.getResults this' pollId = inr after
           ∧ (Poll.results after).*1 = (Poll.results before).*1
           ∧ if decide (ballot_key policy ballot = Some "__proto__")
             then this' = this ∧ "__proto__" ∈ (Poll.results before).*1
             else Poll.totalVotes after = Poll.totalVotes before + 1)
      ∧ ∀ n, JNum (Int n) ≠ pollId →
             PollManager.getResults this' (JNum (Int n))
             = PollManager.getResults this (JNum (Int n))
  | (inl e, this') =>
      this' = this
      ∧ (PollManager.lookup_poll this pollId = None →
         e = PollManager.PollNotFoundWithId pollId)
  end.
Proof.
  intros this.
  destruct (manager_reachable_ok policy calls) as [[Hc Hok] _].
  fold this in Hc, Hok.
  assert (∀ p : Poll.Instance,
            (Poll.results (Poll.getResults p)).*1 = Poll._options p)
    as Hoptions.
  { intros p. unfold Poll.getResults. simpl.
    rewrite <- list_fmap_compose. apply list_fmap_id. }
  destruct (manager_vote_cases policy this pollId ballot)
    as [[e H]|[(n & p & -> & Hp & Hv & H)
              |(n & p & c & p' & -> & Hp & Hv & H)]]; rewrite H.
  - split; [done|]. intros Hnone.
    unfold PollManager.vote, PollManager.getPoll in H. rewrite Hnone in H.
    by injection H as <-.
  - destruct (Hok n p Hp) as (_ & _ & Hm).
    destruct (vote_NaN policy p ballot Hm Hv) as [Hkey Hin].
    split; [done|]. split; [|done].
    exists (Poll.getResults p), (Poll.getResults p).
    unfold PollManager.getResults, PollManager.getPoll,
      PollManager.lookup_poll.
    rewrite Hp. split_and!; try done.
    rewrite decide_True by done. by rewrite Hoptions.
  - destruct (Hok n p Hp) as (_ & _ & Hm).
    destruct (vote_counted policy p p' ballot c Hv)
      as (key & cnt & Hkey & _ & Hcnt & _ & -> & Ht).
    split; [done|]. split.
    + eexists _, _.
      unfold PollManager.getResults, PollManager.getPoll,
        PollManager.lookup_poll. cbn [PollManager._polls].
      rewrite Hp, lookup_insert_eq. split; [reflexivity|].
      split; [reflexivity|]. split; [by rewrite !Hoptions|].
      rewrite decide_False; [exact Ht|]. rewrite Hkey. intros [= ->].
      destruct Hm as [_ Hdom].
      by destruct (proj1 (Hdom "__proto__") ltac:(by eexists)).
    + intros k Hk.
      unfold PollManager.getResults, PollManager.getPoll. simpl.
      rewrite lookup_insert_ne; [done|]. intros <-. by apply Hk.
Qed.

(** * Properties of the HTTP layer *)

(** ** Substrings *)

Lemma includes_app_r (a b p : string) :
  app.includes b p = true → app.includes (a +:+ b) p = true.
Proof.
  intros Hb. induction a as [|x a IH]; simpl; [done|].
  rewrite IH. apply orb_true_r.
Qed.

Lemma startsWith_before (c : ascii) (a b p : string) :
  has_char c p = false →
  app.startsWith (a +:+ String c b) p = app.startsWith a p.
Proof.
  revert p. induction a as [|x a IH]; intros p Hp.
  - destruct p as [|y p]; [done|]. simpl in *.
    apply orb_false_iff in Hp as [Hy _].
    apply bool_decide_eq_false in Hy.
    by rewrite bool_decide_eq_false_2.
  - destruct p as [|y p]; [done|]. simpl in *.
    apply orb_false_iff in Hp as [_ Hp]. by rewrite IH.
Qed.

(** A phrase without the character [c] occurs in [a c b] exactly when
    it occurs in [a] or in [b]. *)
Lemma includes_around (c : ascii) (a b p : string) :
  has_char c p = false →
  app.includes (a +:+ String c b) p = app.includes a p || app.includes b p.
Proof.
  intros Hp. induction a as [|x a IH].
  - change (app.includes ("" +:+ String c b) p)
      with (app.startsWith ("" +:+ String c b) p || app.includes b p).
    rewrite (startsWith_before c "" b p Hp).
    destruct p; simpl; by rewrite ?orb_false_r.
  - change (app.includes (String x a +:+ String c b) p)
      with (app.startsWith (String x a +:+ String c b) p
            || app.includes (a +:+ String c b) p).
    rewrite (startsWith_before c (String x a) b p Hp), IH.
    change (app.includes (String x a) p)
      with (app.startsWith (String x a) p || app.includes a p).
    by rewrite !orb_assoc.
Qed.

(** A phrase without a double quote occurs in a text that quotes a name
    exactly when it occurs before the quotes, in the name, or after. *)
Lemma includes_quoted (pre name post p : string) :
  has_char "034" p = false →
  app.includes (pre +:+ app.dq +:+ name +:+ app.dq +:+ post) p
  = app.includes pre p || app.includes name p || app.includes post p.
Proof.
  intros Hp. unfold app.dq.
  change (pre +:+ String "034" "" +:+ name +:+ String "034" "" +:+ post)
    with (pre +:+ String "034" (name +:+ String "034" post)).
  by rewrite !includes_around, orb_assoc.
Qed.

Lemma includes_two_quoted (pre a mid b post p : string) :
  has_char "034" p = false →
  app.includes (pre +:+ app.dq +:+ a +:+ app.dq +:+ mid
                +:+ app.dq +:+ b +:+ app.dq +:+ post) p
  = app.includes pre p || app.includes a p || app.includes mid p
    || app.includes b p || app.includes post p.
Proof.
  intros Hp.
  rewrite (includes_quoted pre a
             (mid +:+ app.dq +:+ b +:+ app.dq +:+ post) p Hp).
  rewrite (includes_quoted mid b post p Hp). by rewrite !orb_assoc.
Qed.

(** ** The status of an error *)

Lemma errorHandler_business (show : JsValue → string) (msg : Message) :
  app.errorHandler show (BusinessLogicError msg)
  = {| app.status :=
         if app.includes (app.message show msg) "not found"
            || app.includes (app.message show msg) "does not exist"
         then 404%nat
         else if app.includes (app.message show msg) "not authorized"
         then 403%nat else 400%nat;
       app.body := app.ErrorBody (app.message show msg) |}.
Proof. unfold app.errorHandler. cbv zeta. by repeat case_match. Qed.

Lemma text_PollNotFound (show : JsValue → string) (pollId p : string) :
  has_char "034" p = false →
  app.includes (app.message show (PollNotFound pollId)) p
  = app.includes "Poll with ID " p || app.includes pollId p
    || app.includes " not found." p.
Proof. intros Hp. unfold app.message. by rewrite includes_quoted. Qed.

Lemma text_UserNotFound (show : JsValue → string) (u p : string) :
  has_char "034" p = false →
  app.includes (app.message show (UserNotFound u)) p
  = app.includes "User " p || app.includes u p
    || app.includes " not found." p.
Proof. intros Hp. unfold app.message. by rewrite includes_quoted. Qed.

Lemma text_CreatorDoesNotExist (show : JsValue → string) (u p : string) :
  has_char "034" p = false →
  app.includes (app.message show (CreatorDoesNotExist u)) p
  = app.includes "User " p || app.includes u p
    || app.includes " does not exist and cannot create a poll." p.
Proof. intros Hp. unfold app.message. by rewrite includes_quoted. Qed.

Lemma text_UsernameTaken (show : JsValue → string) (u p : string) :
  has_char "034" p = false →
  app.includes (app.message show (UsernameTaken u)) p
  = app.includes "Username " p || app.includes u p
    || app.includes " is already taken." p.
Proof. intros Hp. unfold app.message. by rewrite includes_quoted. Qed.

Lemma text_NotAuthorized (show : JsValue → string) (u pollId p : string) :
  has_char "034" p = false →
  app.includes (app.message show (NotAuthorized u pollId)) p
  = app.includes "User " p || app.includes u p
    || app.includes " is not authorized to delete poll " p
    || app.includes pollId p || app.includes "." p.
Proof. intros Hp. unfold app.message. by rewrite includes_two_quoted. Qed.

Lemma text_AlreadyVoted (show : JsValue → string) (u pollId p : string) :
  has_char "034" p = false →
  app.includes (app.message show (AlreadyVoted u pollId)) p
  = app.includes "User " p || app.includes u p
    || app.includes " has already voted in poll " p
    || app.includes pollId p || app.includes "." p.
Proof. intros Hp. unfold app.message. by rewrite includes_two_quoted. Qed.

Lemma text_InvalidOptionIndex
    (show : JsValue → string) (optionIndex : JsValue) (pollId p : string) :
  has_char "034" p = false →
  app.includes (app.message show (InvalidOptionIndex optionIndex pollId)) p
  = app.includes "Invalid option index " p
    || app.includes (show optionIndex) p
    || app.includes " for poll " p
    || app.includes pollId p || app.includes "." p.
Proof. intros Hp. unfold app.message. by rewrite includes_two_quoted. Qed.

(** Rewrites the status of a business error down to the occurrences of
    the phrases in the names that the message quotes. *)
Ltac classify :=
  rewrite ?errorHandler_business;
  rewrite ?text_PollNotFound, ?text_UserNotFound, ?text_CreatorDoesNotExist,
    ?text_UsernameTaken, ?text_NotAuthorized, ?text_AlreadyVoted,
    ?text_InvalidOptionIndex by done.

(** Whatever the poll id or the username, the errors for a poll, a user
    or a creator that does not exist are answered with status 404 and
    the message of the error; an error that is not a business error is
    answered with status 500 and a fixed text. *)
Theorem missing_things_are_404
    (show : JsValue → string) (pollId u : string) :
  app.errorHandler show (BusinessLogicError (PollNotFound pollId))
  = {| app.status := 404;
       app.body := app.ErrorBody (app.message show (PollNotFound pollId)) |}
  ∧ app.errorHandler show (BusinessLogicError (UserNotFound u))
    = {| app.status := 404;
         app.body := app.ErrorBody (app.message show (UserNotFound u)) |}
  ∧ app.errorHandler show (BusinessLogicError (CreatorDoesNotExist u))
    = {| app.status := 404;
         app.body :=
           app.ErrorBody (app.message show (CreatorDoesNotExist u)) |}
  ∧ ∀ e : Error,
      (∀ msg, e ≠ BusinessLogicError msg) →
      app.errorHandler show e
      = {| app.status := 500;
           app.body := app.ErrorBody "Internal Server Error" |}.
Proof.
  split_and!.
  - classify. f_equal. by rewrite !orb_true_r.
  - classify. f_equal. by rewrite !orb_true_r.
  - classify. f_equal. by rewrite !orb_true_r.
  - intros e He. destruct e; try done. by destruct (He msg).
Qed.

(** For a username and a poll id that contain none of the phrases "not
    found", "does not exist" and "not authorized": the not-authorized
    error is answered with status 403, and the already-voted and
    already-taken errors with status 400, each with its message. *)
Theorem refusals_are_403_and_400
    (show : JsValue → string) (u pollId : string) :
  neutral u → neutral pollId →
  app.errorHandler show (BusinessLogicError (NotAuthorized u pollId))
  = {| app.status := 403;
       app.body :=
         app.ErrorBody (app.message show (NotAuthorized u pollId)) |}
  ∧ app.errorHandler show (BusinessLogicError (AlreadyVoted u pollId))
    = {| app.status := 400;
         app.body :=
           app.ErrorBody (app.message show (AlreadyVoted u pollId)) |}
  ∧ app.errorHandler show (BusinessLogicError (UsernameTaken u))
    = {| app.status := 400;
         app.body := app.ErrorBody (app.message show (UsernameTaken u)) |}.
Proof.
  intros (Hu1 & Hu2 & Hu3) (Hp1 & Hp2 & Hp3).
  split_and!; classify; by rewrite ?Hu1, ?Hu2, ?Hu3, ?Hp1, ?Hp2, ?Hp3.
Qed.

Lemma refusals_are_403_and_400_witness :
  neutral "bob" ∧ neutral "p1"
  ∧ app.errorHandler (λ _, "") (BusinessLogicError (NotAuthorized "bob" "p1"))
    = {| app.status := 403;
         app.body :=
           app.ErrorBody
             (app.message (λ _, "") (NotAuthorized "bob" "p1")) |}.
Proof.
  assert (neutral "bob") as H1 by (by split_and!).
  assert (neutral "p1") as H2 by (by split_and!).
  split; [exact H1|]. split; [exact H2|].
  exact (proj1 (refusals_are_403_and_400 (λ _, "") "bob" "p1" H1 H2)).
Defined.

(** The status is read off the text of the message, names included: when
    the username contains "not found" or "does not exist", the
    not-authorized, already-voted and already-taken errors about that
    user are all answered with status 404. *)
Theorem name_with_phrase_is_404
    (show : JsValue → string) (u pollId : string) :
  app.includes u "not found" = true
  ∨ app.includes u "does not exist" = true →
  app.status (app.errorHandler show
                (BusinessLogicError (NotAuthorized u pollId))) = 404%nat
  ∧ app.status (app.errorHandler show
                  (BusinessLogicError (AlreadyVoted u pollId))) = 404%nat
  ∧ app.status (app.errorHandler show
                  (BusinessLogicError (UsernameTaken u))) = 404%nat.
Proof.
  intros [Hu|Hu]; split_and!; classify; rewrite Hu; simpl;
    by rewrite ?orb_true_r.
Qed.

Lemma name_with_phrase_is_404_witness :
  (app.includes "mr not found" "not found" = true
   ∨ app.includes "mr not found" "does not exist" = true)
  ∧ app.status (app.errorHandler (λ _, "")
                  (BusinessLogicError (UsernameTaken "mr not found")))
    = 404%nat.
Proof.
  assert (app.includes "mr not found" "not found" = true
          ∨ app.includes "mr not found" "does not exist" = true) as H
    by (by left).
  split; [exact H|].
  exact (proj2 (proj2 (name_with_phrase_is_404 (λ _, "") "mr not found" ""
                         H))).
Defined.

(** ** The routes *)

Lemma serializePollVotes_revive (p : StoredPoll) :
  routes.serializePollVotes (memoryStorage.reviveVotes p) = p.
Proof.
  destruct p. unfold routes.serializePollVotes, memoryStorage.reviveVotes,
    with_votes. simpl. by rewrite Object_fromEntries_revive.
Qed.

Lemma deletePoll_stored
    (d : StoredDocument) (pollId s : string) (p : StoredPoll) :
  pollId ≠ "" → s ≠ "" → polls d !! pollId = Some p →
  pollService.deletePoll pollId s (Stored d)
  = if decide (creator p = trim s)
    then (Ok true,
          Stored {| users := users d; polls := delete pollId (polls d) |})
    else (Throw (BusinessLogicError (NotAuthorized s pollId)), Stored d).
Proof.
  intros Hid Hs Hp. unfold pollService.deletePoll.
  apply is_empty_false in Hid, Hs. rewrite Hid, Hs. simpl.
  rewrite (M_bind_Ok _ _ _ _ _
             (findPollById_readable (Stored d) ltac:(done) pollId)).
  simpl. rewrite (Object_get_Some _ _ _ Hp). simpl.
  destruct (decide (creator p = trim s)) as [Hc|Hc].
  - rewrite bool_decide_eq_false_2 by (by intros ?).
    rewrite deletePoll_readable by done. simpl.
    by rewrite (Object_get_Some _ _ _ Hp).
  - by rewrite bool_decide_eq_true_2.
Qed.

(** [GET /polls/:id] answers a stored poll with status 200 and that
    poll, votes as the file has them; a storage file that cannot be read
    with status 500.  An id that is not stored is answered with status
    404 and the not-found message, unless it is one of the names every
    object inherits ([constructor], [toString], ...): the lookup then
    finds the inherited member, and the answer is status 200 with what
    JSON makes of that member, which is no poll.  The route never
    changes the file. *)
Theorem route_getPoll_answers
    (show : JsValue → string) (id : string) (m : Medium) :
  routes.getPoll show id m
  = (match m with
     | Unreadable =>
         {| app.status := 500;
            app.body := app.ErrorBody "Internal Server Error" |}
     | _ =>
         match Object_get (polls (contents m)) id with
         | Own p => {| app.status := 200; app.body := app.PollBody p |}
         | Inherited name =>
             {| app.status := 200; app.body := app.MemberBody name |}
         | Absent =>
             {| app.status := 404;
                app.body :=
                  app.ErrorBody (app.message show (PollNotFound id)) |}
         end
     end, m).
Proof.
  unfold routes.getPoll, routes.respond, pollService.getPollById.
  destruct (not_Unreadable_cases m) as [->|Hm]; [done|].
  rewrite findPollById_readable by done.
  destruct (Object_get (polls (contents m)) id) as [p|name|]; simpl.
  - rewrite serializePollVotes_revive. by destruct m.
  - by destruct m.
  - by destruct m.
Qed.

(** [DELETE /polls/:id] for a poll stored under a non-empty id.
    Without a username in the body the answer is 400 and the service is
    not called.  A username
    that trims to the creator gets 200 and the poll is removed from the
    file.  Any other non-empty string gets the not-authorized error,
    which is 403 when neither the name nor the id contains one of the
    phrases of the middleware, and the poll stays.  A truthy username
    that is not a string gets 500, and the poll stays. *)
Theorem route_deletePoll_statuses
    (show : JsValue → string) (d : StoredDocument) (id : string)
    (p : StoredPoll) :
  id ≠ "" → polls d !! id = Some p →
  (∀ username m, truthy username = false →
     routes.deletePoll show id username m
     = ({| app.status := 400;
           app.body :=
             app.ErrorBody
               "Username is required in the request body to delete a poll."
        |}, m))
  ∧ (∀ s, s ≠ "" → trim s = creator p →
       routes.deletePoll show id (JStr s) (Stored d)
       = ({| app.status := 200;
             app.body :=
               app.MessageBody ("Poll " +:+ app.dq +:+ id +:+ app.dq
                                +:+ " deleted successfully.") |},
          Stored {| users := users d; polls := delete id (polls d) |}))
  ∧ (∀ s, s ≠ "" → trim s ≠ creator p → neutral s → neutral id →
       routes.deletePoll show id (JStr s) (Stored d)
       = ({| app.status := 403;
             app.body :=
               app.ErrorBody (app.message show (NotAuthorized s id)) |},
          Stored d))
  ∧ (∀ username, truthy username = true → is_string username = false →
       routes.deletePoll show id username (Stored d)
       = ({| app.status := 500;
             app.body := app.ErrorBody "Internal Server Error" |},
          Stored d)).
Proof.
  intros Hid Hp. split_and!.
  - intros username m Hu. unfold routes.deletePoll. by rewrite Hu.
  - intros s Hs Hc. unfold routes.deletePoll, routes.respond,
      routes.deletePoll_call.
    assert (truthy (JStr s) = true) as ->
      by (simpl; by apply is_empty_false in Hs as ->).
    simpl. rewrite (deletePoll_stored d id s p) by done.
    by rewrite decide_True.
  - intros s Hs Hc (Hs1 & Hs2 & Hs3) (Hi1 & Hi2 & Hi3).
    unfold routes.deletePoll, routes.respond, routes.deletePoll_call.
    assert (truthy (JStr s) = true) as ->
      by (simpl; by apply is_empty_false in Hs as ->).
    simpl. rewrite (deletePoll_stored d id s p) by done.
    rewrite decide_False by done. f_equal.
    classify. by rewrite Hs1, Hs2, Hs3, Hi1, Hi2, Hi3.
  - intros username Ht Hstr.
    unfold routes.deletePoll, routes.respond, routes.deletePoll_call.
    rewrite Ht. apply is_empty_false in Hid.
    destruct username; try done; simpl; rewrite Hid; simpl;
      rewrite ?Ht; simpl;
      rewrite (M_bind_Ok _ _ _ _ _
                 (findPollById_readable (Stored d) ltac:(done) id));
      simpl; by rewrite (Object_get_Some _ _ _ Hp).
Qed.

Lemma route_deletePoll_statuses_witness :
  "p1" ≠ "" ∧ polls Examples.doc !! "p1" = Some Examples.poll1
  ∧ routes.deletePoll (λ _, "") "p1" (JStr " alice ") (Stored Examples.doc)
    = ({| app.status := 200;
          app.body :=
            app.MessageBody ("Poll " +:+ app.dq +:+ "p1" +:+ app.dq
                             +:+ " deleted successfully.") |},
       Stored {| users := users Examples.doc;
                 polls := delete "p1" (polls Examples.doc) |}).
Proof.
  assert ("p1" ≠ "") as H1 by discriminate.
  assert (polls Examples.doc !! "p1" = Some Examples.poll1) as H2
    by reflexivity.
  split; [exact H1|]. split; [exact H2|].
  apply (proj1 (proj2 (route_deletePoll_statuses (λ _, "") Examples.doc "p1"
                         Examples.poll1 H1 H2))); [discriminate|reflexivity].
Defined.

(** What [vote] does before it tests the index. *)
Lemma vote_before_index
    (d : StoredDocument) (pollId u : string) (optionIndex : JsValue) :
  pollId ≠ "" → u ≠ "" → optionIndex ≠ JUndefined →
  pollService.vote pollId optionIndex u (Stored d)
  = match Object_get (polls d) pollId with
    | Absent => (Throw (BusinessLogicError (PollNotFound pollId)), Stored d)
    | Own _ =>
        match Object_get (users d) (trim u) with
        | Absent =>
            (Throw (BusinessLogicError (UserNotFound (trim u))), Stored d)
        | _ => pollService.vote pollId optionIndex u (Stored d)
        end
    | Inherited _ =>
        match Object_get (users d) (trim u) with
        | Absent =>
            (Throw (BusinessLogicError (UserNotFound (trim u))), Stored d)
        | _ =>
            match optionIndex with
            | JNum (Int i) =>
                if i <? 0
                then (Throw (BusinessLogicError
                               (InvalidOptionIndex optionIndex pollId)),
                      Stored d)
                else (Throw TypeError, Stored d)
            | _ => (Throw (BusinessLogicError
                             (InvalidOptionIndex optionIndex pollId)),
                    Stored d)
            end
        end
    end.
Proof.
  intros Hid Hu Hundef.
  destruct (Object_get (polls d) pollId) as [p|name|] eqn:Hp;
    [destruct (Object_get (users d) (trim u)) as [usr|uname|] eqn:Husr;
       [done|done|]| |];
    unfold pollService.vote;
    apply is_empty_false in Hid, Hu; rewrite Hid, Hu;
    replace (match optionIndex with JUndefined => true | _ => false end)
      with false by (by destruct optionIndex);
    simpl;
    rewrite (M_bind_Ok _ _ _ _ _
               (findPollById_readable (Stored d) ltac:(done) pollId));
    simpl; rewrite Hp; simpl; [| |done];
    rewrite (M_bind_Ok _ _ _ _ _
               (findUser_readable (Stored d) ltac:(done) (trim u)));
    simpl.
  - by rewrite Husr.
  - destruct (Object_get (users d) (trim u)) as [usr|uname|]; [| |done];
      destruct optionIndex as [| | |[i| | |]| | |]; try done;
      by destruct (i <? 0).
Qed.

(** [POST /polls/:id/vote] with a non-empty id, a non-empty string as
    username and a number as option index, when the id, the trimmed
    username and the text of the index contain none of the phrases of
    the middleware.  Both lookups resolve the names every object
    inherits ([constructor], [toString], ...) as well as what is stored.
    The answer is decided in this order: 404 when the lookup of the poll
    finds nothing; 404 when the lookup of the trimmed username finds
    nothing; 400 when the index is not an integer within the options;
    400 when the username is already in the ledger; otherwise 200, and
    the body is the poll with the new ledger entry, exactly as it is now
    stored; a username that is only an inherited name votes like a
    registered one.  When the id is not stored and only names an
    inherited member, that member has no options: an index that is not
    an integer or is negative gets 400, any other 500.  Every answer but
    the 200 leaves the file as it was. *)
Theorem route_postVote_statuses
    (show : JsValue → string) (d : StoredDocument) (id u : string)
    (n : JsNum) :
  id ≠ "" → u ≠ "" →
  neutral id → neutral (trim u) → neutral (show (JNum n)) →
  let not_found (what : Message) : app.Response * Medium :=
    ({| app.status := 404;
        app.body := app.ErrorBody (app.message show what) |}, Stored d) in
  let refused (what : Message) : app.Response * Medium :=
    ({| app.status := 400;
        app.body := app.ErrorBody (app.message show what) |}, Stored d) in
  routes.postVote show id (JStr u) (JNum n) (Stored d)
  = match Object_get (polls d) id with
    | Absent => not_found (PollNotFound id)
    | Inherited _ =>
        match Object_get (users d) (trim u) with
        | Absent => not_found (UserNotFound (trim u))
        | _ =>
            match n with
            | Int i =>
                if i <? 0
                then refused (InvalidOptionIndex (JNum n) id)
                else ({| app.status := 500;
                         app.body := app.ErrorBody "Internal Server Error" |},
                      Stored d)
            | _ => refused (InvalidOptionIndex (JNum n) id)
            end
        end
    | Own p =>
        match Object_get (users d) (trim u) with
        | Absent => not_found (UserNotFound (trim u))
        | _ =>
            match n with
            | Int i =>
                if (i <? 0) || (Z.of_nat (length (options p)) <=? i)
                then refused (InvalidOptionIndex (JNum n) id)
                else
                  match votes p !! trim u with
                  | Some _ => refused (AlreadyVoted (trim u) id)
                  | None =>
                      let p' := with_votes p (<[trim u := i]> (votes p)) in
                      ({| app.status := 200; app.body := app.PollBody p' |},
                       Stored {| users := users d;
                                 polls := <[id := p']> (polls d) |})
                  end
            | _ => refused (InvalidOptionIndex (JNum n) id)
            end
        end
    end.
Proof.
  intros Hid Hu (Hi1 & Hi2 & Hi3) (Hu1 & Hu2 & Hu3) (Hn1 & Hn2 & Hn3).
  cbv zeta.
  unfold routes.postVote, routes.respond, routes.vote_call.
  assert (truthy (JStr u) = true) as ->
    by (simpl; by apply is_empty_false in Hu as ->).
  cbn [negb orb].
  assert (app.errorHandler show
            (BusinessLogicError (InvalidOptionIndex (JNum n) id))
          = {| app.status := 400;
               app.body :=
                 app.ErrorBody
                   (app.message show (InvalidOptionIndex (JNum n) id)) |})
    as Hinvalid.
  { classify. by rewrite Hi1, Hi2, Hi3, Hn1, Hn2, Hn3. }
  assert (app.errorHandler show
            (BusinessLogicError (UserNotFound (trim u)))
          = {| app.status := 404;
               app.body :=
                 app.ErrorBody (app.message show (UserNotFound (trim u))) |})
    as Hnouser.
  { classify. f_equal. by rewrite !orb_true_r. }
  rewrite (vote_before_index d id u (JNum n)) by done.
  destruct (Object_get (polls d) id) as [p|name|] eqn:Hp.
  3:{ f_equal. classify. f_equal. by rewrite !orb_true_r. }
  2:{ destruct (Object_get (users d) (trim u)) as [usr|uname|];
        [| |by rewrite Hnouser];
        (destruct n as [i| | |]; try by rewrite Hinvalid);
        destruct (i <? 0); by rewrite ?Hinvalid. }
  apply Object_get_Own in Hp.
  destruct (Object_get_cases (users d) (trim u)) as [Husr|Husr].
  { rewrite Husr. by rewrite Hnouser. }
  assert (∀ r : app.Response * Medium,
            match Object_get (users d) (trim u) with
            | Absent =>
                ({| app.status := 404;
                    app.body :=
                      app.ErrorBody
                        (app.message show (UserNotFound (trim u))) |},
                 Stored d)
            | _ => r
            end = r) as Hsame
    by (intros r; by destruct (Object_get (users d) (trim u))).
  rewrite Hsame.
  assert (match Object_get (users d) (trim u) with
          | Absent =>
              (Throw (BusinessLogicError (UserNotFound (trim u))), Stored d)
          | _ => pollService.vote id (JNum n) u (Stored d)
          end = pollService.vote id (JNum n) u (Stored d)) as ->
    by (by destruct (Object_get (users d) (trim u))).
  rewrite (vote_reaches_index_test d id u p (JNum n)) by done.
  destruct n as [i| | |]; try by rewrite Hinvalid.
  unfold pollService.invalidIndex.
  destruct ((i <? 0) || (Z.of_nat (length (options p)) <=? i));
    [by rewrite Hinvalid|].
  destruct (votes p !! trim u) as [j|] eqn:Hv.
  - assert (Map_has (Map_new (Object_entries (votes p))) (trim u) = true)
      as -> by (rewrite Map_has_get, Map_get_revive, Hv; by eexists).
    f_equal. classify. by rewrite Hi1, Hi2, Hi3, Hu1, Hu2, Hu3.
  - assert (Map_has (Map_new (Object_entries (votes p))) (trim u) = false)
      as Hhas.
    { apply not_true_is_false. rewrite Map_has_get, Map_get_revive, Hv.
      by intros [? ?]. }
    assert (trim u ∉ (Map_new (Object_entries (votes p))).*1) as Hfresh.
    { unfold Map_has in Hhas. by apply bool_decide_eq_false in Hhas. }
    rewrite Hhas. rewrite updatePoll_readable by done. simpl. rewrite Hp.
    cbv zeta.
    assert (memoryStorage.serializeVotes
              (memoryStorage.mergePoll (memoryStorage.reviveVotes p)
                 (memoryStorage.votesPatch
                    (Map_set (Map_new (Object_entries (votes p)))
                       (trim u) i)))
            = with_votes p (<[trim u := i]> (votes p))) as Hs.
    { unfold memoryStorage.serializeVotes, memoryStorage.mergePoll,
        with_votes. simpl. f_equal.
      by rewrite Object_fromEntries_set_fresh, Object_fromEntries_revive. }
    by rewrite <- Hs.
Qed.

Lemma route_postVote_statuses_witness :
  "p1" ≠ "" ∧ " alice " ≠ ""
  ∧ neutral "p1" ∧ neutral (trim " alice ") ∧ neutral "0"
  ∧ routes.postVote (λ _, "0") "p1" (JStr " alice ") (JNum (Int 0))
      (Stored Examples.doc)
    = (let p' := with_votes Examples.poll1
                   (<["alice" := 0]> (votes Examples.poll1)) in
       ({| app.status := 200; app.body := app.PollBody p' |},
        Stored {| users := users Examples.doc;
                  polls := <["p1" := p']> (polls Examples.doc) |})).
Proof.
  assert ("p1" ≠ "") as H1 by discriminate.
  assert (" alice " ≠ "") as H2 by discriminate.
  assert (neutral "p1") as H3 by (by split_and!).
  assert (neutral (trim " alice ")) as H4 by (by split_and!).
  assert (neutral "0") as H5 by (by split_and!).
  split_and!; try assumption.
  exact (route_postVote_statuses (λ _, "0") Examples.doc "p1" " alice "
           (Int 0) H1 H2 H3 H4 H5).
Defined.

(** [POST /users] with a truthy username, over a storage file that can
    be read.  A value that is not a string, or a string of white space
    only, gets 400 and the file stays as it was.  A string whose
    trimmed form the lookup in the users resolves, because it is
    registered or because it is one of the names every object inherits
    ([constructor], [toString], ...), is answered as the middleware
    answers the already-taken error about the trimmed name, and the file
    stays as it was.  Otherwise the answer is 201 with the trimmed
    username, which is now registered. *)
Theorem route_postUser_statuses
    (show : JsValue → string) (m : Medium) (username : JsValue) :
  m ≠ Unreadable → truthy username = true →
  routes.postUser show username m
  = match username with
    | JStr s =>
        if decide (trim s = "")
        then ({| app.status := 400;
                 app.body := app.ErrorBody "Username cannot be empty." |}, m)
        else
          match Object_get (users (contents m)) (trim s) with
          | Absent =>
              ({| app.status := 201;
                  app.body := app.UserBody {| username := trim s |} |},
               Stored {| users := <[trim s := {| username := trim s |}]>
                                    (users (contents m));
                         polls := polls (contents m) |})
          | _ =>
              (app.errorHandler show
                 (BusinessLogicError (UsernameTaken (trim s))), m)
          end
    | _ => ({| app.status := 400;
               app.body := app.ErrorBody "Username cannot be empty." |}, m)
    end.
Proof.
  intros Hm Ht. unfold routes.postUser, routes.respond. rewrite Ht.
  cbn [negb].
  destruct username as [| |b|n|s|l|]; try done.
  rewrite createUser_string by done.
  destruct (decide (trim s = "")); [done|].
  by destruct (Object_get (users (contents m)) (trim s)).
Qed.

Lemma route_postUser_statuses_witness :
  Missing ≠ Unreadable ∧ truthy (JStr " carol ") = true
  ∧ routes.postUser (λ _, "") (JStr " carol ") Missing
    = ({| app.status := 201;
          app.body := app.UserBody {| username := "carol" |} |},
       Stored {| users := {[ "carol" := {| username := "carol" |} ]};
                 polls := ∅ |}).
Proof.
  assert (Missing ≠ Unreadable) as H1 by discriminate.
  assert (truthy (JStr " carol ") = true) as H2 by reflexivity.
  split; [exact H1|]. split; [exact H2|].
  exact (route_postUser_statuses (λ _, "") Missing (JStr " carol ") H1 H2).
Defined.
